(* ===== verification/_CoqProject ===== *)
-Q . S2P
Prelude.v
Int64.v
Frame.v
PyFloat.v
Preprocess.v
Stats.v
Sorting.v
Summary.v
Csv.v
CsvRead.v
Charts.v
FileSystem.v
Pipeline.v
Machine.v
Difflib.v
Cli.v
