(* ===== verification/Prelude.v ===== *)
(** * Horse-population report: a verification development

    The program is [src/source/generate_figures.py], a one-shot Python
    script.  Its command [main input_dir out_dir], a click command, runs
    these steps in order:

    - [create_dir_if_not_exists out_dir] (lines 16-18, 25): [os.makedirs]
      when [os.path.exists] is false;
    - [pd.read_csv input_dir] (line 28), then the query / replace / scale /
      astype pipeline over the columns GEO, DATE, Ref_Date, Value (29-32);
    - the faceted altair chart over the filtered frame, saved as
      [horse_pops_plot.png] (35-45);
    - [groupby('GEO')['Value'].agg(Std='std')], [reset_index], [rename],
      [sort_values(by='Std', ascending=False)], written with [to_csv] to
      [horses_sd.csv] (49-50);
    - [horses_sd.iloc[0]['Province']], the rows of that province, and a
      second chart saved as [horse_pops_plot_largest_sd.png] (54-64).

    The components share two things: the filtered frame, which all three
    outputs read, and the filesystem, which the steps change one after
    the other.  A Python exception stops the script but keeps the files
    already written.  The development models it in these files, listed in
    dependency order in [_CoqProject]:

    - [Prelude] (this file): the Python-exception state monad [st]
      ([Ok]/[Raise] outcome paired with the state, so effects before an
      exception persist), its notation in [horses_scope], the hint
      database [horses] and list lemmas the components share, and
      Section [Sequences]: the reflexive-transitive closure [star] of a
      step relation, final configurations, and [eventually] (CTL's AF)
      with the lemma that a deterministic run makes eventual whatever
      holds where it arrives.
    - [Int64]: numpy [int64] arithmetic as wrap-around on [Z] ([wrap64]);
      the [Value * 1000] of line 31 on an integer column.
    - [Frame]: the DataFrame as a schema (dtype per column) and a list of
      rows; cells [CStr]/[CInt]/[CFloat] with [CFloat None] as NaN, year
      cells [RInt]/[RFloat]/[RStr]/[RNaN]; the dtype well-formedness
      invariant [frame_wf]; the [table] that
      [read_csv] returns, the column labels of the file's header with the
      data of the four columns the script uses.
    - [Preprocess]: lines 29-32, one definition per statement ([query],
      [replace_geo], [scale_value], [astype_str_ref]) composed as
      [preprocess]; [astype(str)] of an [int64] year is the decimal
      printing of [Z] ([py_str_int]), with its parse round trip, and of a
      float64 year the same digits followed by [.0] ([py_str_float_int]).
    - [PyFloat]: Python's [float()] of a [str] ([py_float]), which
      numpy's cast to float64 calls on each string of an object column:
      underscores between digits, surrounding whitespace, the decimal
      syntax of [_Py_dg_strtod], [inf] / [infinity] / [nan], overflow to
      infinity; [None] is its [ValueError].  A string with no digit is
      rejected unless it is one of the short words ([py_float_no_digit]).
    - [Stats]: pandas' grouped [std]: Welford's online update
      ([welford], as in pandas' cython [group_var]) with [ddof = 1], the
      two-pass textbook [sample_var] it is proved equal to, and
      [group_var_f] on float64 values (NaN when one is infinite).
    - [Sorting]: [sort_values(ascending=False)] as pandas' [nargsort]
      (reverse, ascending argsort, reverse, NaN appended).  numpy's
      [argsort(kind='quicksort')] does not fix the order of equal keys,
      so it is an interface: the class [Argsort] promises, for every
      total preorder, a sorted permutation ([SortBy]); Section [NArgSort]
      takes it as its [Context] and proves [nargsort] a descending sort
      with NaN last for every instance.  Section [InsertionSort] gives
      two instances, [stable_argsort] (numpy's insertion sort on at most
      16 items) and [antistable_argsort] (equal keys reversed).
    - [Summary]: the groupby with sorted keys and dropped NaN keys
      ([group_keys]); [std] as pandas 2 computes it: the whole Value
      column cast to float64 first ([ensure_float64], [cell_float],
      [ValueError] on a string [float()] rejects), then [group_var_f] per
      group on the cast values ([group_floats]); the rename and sort
      ([horses_sd]) and [iloc[0]] ([largest_sd_prov]).  Section [Summary]
      takes an [Argsort] as [Context], so its theorems hold whatever
      order numpy gives equal Std values; [tie_order_open] shows two
      admissible orders selecting different provinces at line 54.
      [summary_spec] is the contract of section 4.4, stated with the
      two-pass variance and no algorithm, which [horses_sd] refines.
    - [Csv]: the text [to_csv] writes at line 50, through Python's
      [csv.writer] with QUOTE_MINIMAL quoting ([write_field],
      [row_body], [write_row_term]) and [os.linesep] as line terminator
      (a newline on POSIX, which the filesystem model is, or a carriage
      return and a newline on Windows), the header [Province,Std] and
      NaN as an empty field ([summary_csv]); a reader of the same
      dialect ([parse_csv], pandas' tokenizer with its three line ends)
      and the proof that it reads back every row the writer wrote.
    - [CsvRead]: [pd.read_csv] on the text of a file ([read_text]):
      pandas' C tokenizer (the reader of [Csv]), blank lines skipped,
      the default NA strings, [int64] / [float64] / [object] inference
      per column ([infer]) and the rows of the four columns the script
      uses ([read_frame]); [None] marks the texts outside the model.
    - [Charts]: the two altair chart specifications as records
      ([horse_pops_chart], [largest_sd_chart]).
    - [FileSystem]: the filesystem as a [gmap] from paths to entries,
      [os.path.exists], [os.mkdir], [os.makedirs] (recursing on the
      reversed path as CPython recurses on [path.split]), the ensurer of
      lines 16-18, file writes and [read_csv]'s failure modes, and the
      invariant [fs_wf] that every operation preserves ([preserves_wf]).
      [ensure_spec] is the specification's contract for the ensurer
      (section 4.1), which the code refines.
    - [Pipeline]: [main] as a sequence of monadic steps over the
      filesystem; lines 29-32 on the table read ([load_filter]), where
      the query resolves its names DATE and GEO among the column labels
      ([resolve_name], [UndefinedVariableError]) and each column lookup
      may raise [KeyError] ([getitem]) before [Preprocess] transforms the
      frame; the end-to-end theorems.
    - [Machine]: [main] again, as a small-step machine with one
      transition per statement and outcome ([mstep], inductive, and
      [next], executable) over configurations made of a program point
      with the live Python locals ([pc]) and the filesystem; it is proved
      to compute exactly [Pipeline.main], and its runs carry the safety
      invariants and the liveness of the summary file.
    - [Difflib]: Python's [difflib.get_close_matches] with click's
      arguments ([n = 3], [cutoff = 0.6]), through [SequenceMatcher]'s
      [find_longest_match], [get_matching_blocks] ([matched]) and
      [ratio] ([close_enough]); click calls it to suggest an option.
    - [Cli]: the click command of lines 21-23 and the entry point of
      lines 67-68: click 8's option parser for [--input_dir], [--out_dir]
      and [--help] ([parse_opts], [cli_parse]), the conversion of the
      argument strings to paths ([path_of]), the exit status of the
      process ([run_cli]) and, on a usage error, the text click writes
      to stderr ([usage_stderr]: usage line, hint, [error_message] with
      the [Difflib] suggestions for an unknown option).

    Every recursion of the script's model is structural (on lists, or on
    the reversed path for [os.makedirs]), so no definition needs fuel and
    every definition evaluates; the witnesses run [main] on small trees
    by [reflexivity].  [Machine.run]'s fuel is the number of statements
    to execute: [Machine.rank] bounds it by 8, and
    [Machine.machine_terminates] shows that [rank] steps always reach the
    end of the run.  [Difflib]'s loops take fuel [length a] for the
    extension loops (each round moves one end of the block inside [a])
    and [length a + 1] for [matched] (each split recurses on a strictly
    shorter part of [a]); [Difflib.matches_fuel] proves that any larger
    fuel gives the same count, so the bounded [matched] computes what
    the unbounded loop of [get_matching_blocks] does.

    The library semantics modelled are those of pandas 2, numpy's int64
    arithmetic, CPython's [os] module on a POSIX filesystem, and click 8.

    Abstractions, with their reasons:
    - float64 values are exact rationals [Q]: rounding is not modelled, so
      every statistic is the exact value the float code approximates.  The
      [Std] column holds the square root of the variance; the model keeps
      the variance itself ([Summary.srow]), and [Stats.std_le_iff] shows
      that sorting by the variance and sorting by its real square root
      agree.
    - An input file of the filesystem holds the table [read_csv] makes
      of it, its column labels and a typed frame, or the error pandas'
      parser raises on its text; [CsvRead.read_text] computes that
      table or error from the text for ASCII texts whose four
      columns have dtypes the frame represents.  GEO and DATE are object
      columns of strings or NaN; Value is an [int64], float64 or object
      column; Ref_Date is an [int64], float64 or object column, a float
      year column (which arises with missing years) holding non-zero
      integers of at most [2^53], exact in binary64 and printed by Python
      in fixed notation.  What [read_csv] makes of the script's
      own outputs is modelled: the summary gives the columns Province and
      Std ([CsvRead.read_summary_csv]), a PNG raises [UnicodeDecodeError].
    - numpy's [argsort] is not modelled as one algorithm: its portable
      introsort is stable on at most 16 items, but numpy 1.26 and later
      may use an AVX-512 sorting network, which is not.  The files from
      [Summary] on take any [Sorting.Argsort] as a Section [Context]; the
      witnesses evaluate with [stable_argsort].
    - Chart rendering ([chart.save]) is modelled as storing the chart
      specification with its scale factor, and [to_csv] as storing the
      summary rows, whose text is [Csv.summary_csv].  The bytes of the
      PNG are not modelled, and neither is the decimal text of a float
      Std (Python's shortest [repr] of the rounded square root), which
      is a parameter of [summary_csv].
    - Paths are lists of components relative to the working directory;
      permissions are not modelled.
    - click is modelled only as far as this command uses it: long
      options, usage errors with their stderr text, and exit status.
      The help page is not: click wraps it to the terminal's width.
      Neither is the traceback Python prints for an exception of [main],
      whose text names source lines; the model keeps the exception.
      Absolute paths and [..] are read relative to the working directory.

    Groups of theorems (each property names its claim id):
    - Preprocess: no row of the result has GEO "Canada", every row has the
      target DATE, no "Prince Edward Island" remains, values are scaled
      exactly by 1000 on a float column and on an [int64] column within
      bounds, and an [int64] value is exact after the scaling exactly
      when it is within [scale_limit], wrapped otherwise; the dtype
      invariant is preserved; the specification's scenario evaluates.
    - Stats: Welford equals the two-pass variance; fewer than two values
      give NaN.
    - Sorting: [nargsort] is a permutation sorted descending with the NaN
      items last, in their input order, for every admissible argsort.
    - Summary: one row per distinct non-NaN province, each with
      [group_var] of its own group's cast values, [Std] non-increasing
      with NaN last, the first row has the largest [Std]; [ValueError]
      exactly when some row, whatever its GEO, has a string Value that
      [float()] rejects; a numeral string Value, repeated by line 31,
      is cast to [inf] and makes its province's Std NaN.
    - Charts: the second chart is drawn from the selected province's
      rows, which are not empty, and names it in its title.
    - Csv: [horses_sd.csv] reads back as its header, the two columns
      Province and Std only (not the max and min the comment of line 48
      announces), and, row by row in the sorted order, each province
      exactly and its Std's text; any
      rows written with either line terminator read back as written.
    - CsvRead: every table read satisfies the dtype invariant; pandas
      reads the script's own summary as the table with the labels
      Province and Std and none of the input's columns; a column of
      years with a missing one is read as float64 and line 32 prints its
      years as [2019.0] and the missing ones as [nan]; a file with
      Windows line ends reads as the same file with newline ends.
    - FileSystem: the ensurer makes the directory and changes nothing
      else, and silently accepts a file in the directory's place, after
      which writes into it fail.
    - Pipeline: from a ready tree the three outputs are written; an empty
      filtered frame raises [IndexError] after two outputs; a string
      Value whose thousandfold repetition (line 31) [float()] rejects
      raises [ValueError] after one, in particular when a kept line of
      the input's text has a token without a digit such as Statistics
      Canada's [..] as its Value, which makes pandas read the column as
      strings; a missing input
      raises at line
      28 after the output directory was created, with no output, and so
      does an input text that pandas' parser rejects (an empty file); an
      input without one of the four columns raises the error of the
      first one missing in the order lines 29-32 read them, with no
      output (the script's own summary as input raises at DATE); a file
      in place of an ancestor of [out_dir] raises at line 25 with nothing
      changed; a second run leaves the filesystem unchanged.
    - Refinement: the ensurer refines the contract of section 4.1 (or
      raises, unchanged, because an ancestor is a file); the summary
      refines the contract of section 4.4.
    - Machine: the machine computes [main] exactly, is deterministic and
      never stuck, and terminates within [rank] steps; by rule induction
      on its runs, the tree stays well formed, nothing but [out_dir], its
      ancestors and the three outputs changes, and line 54 runs only with
      the faceted chart and the summary already on disk; every run whose
      summary line 49 computes eventually has it in [horses_sd.csv] for
      good (liveness), even when line 54 then raises.
    - Cli: both spellings and orders of the options reach [main]
      unchanged; a missing required option exits 2 without touching the
      filesystem; a ready run from the command line exits 0 with the
      three artifacts written; click's stderr text for a missing option
      and for the options spelled with hyphens, where difflib suggests
      both real options.
 *)

From Stdlib Require Import List Bool ZArith QArith Lia Permutation Sorted.
Import ListNotations.

Declare Scope horses_scope.
Delimit Scope horses_scope with horses.

Create HintDb horses.
Create Rewrite HintDb horses_rw.

(** ** The Python-exception state monad

    A statement of the script either returns or raises; either way the
    state it changed stays changed. *)
Inductive outcome (E A : Type) : Type :=
| Ok (a : A)
| Raise (e : E).
Arguments Ok {E A} a.
Arguments Raise {E A} e.

Definition st (S E A : Type) : Type := S -> outcome E A * S.

Section Monad.
Context {S E : Type}.

Definition ret {A} (a : A) : st S E A := fun s => (Ok a, s).

Definition raise {A} (e : E) : st S E A := fun s => (Raise e, s).

Definition bind {A B} (m : st S E A) (k : A -> st S E B) : st S E B :=
  fun s => match m s with
           | (Ok a, s') => k a s'
           | (Raise e, s') => (Raise e, s')
           end.

Definition get : st S E S := fun s => (Ok s, s).

Definition put (s : S) : st S E unit := fun _ => (Ok tt, s).

Lemma bind_ret_l {A B} (a : A) (k : A -> st S E B) s :
  bind (ret a) k s = k a s.
Proof. reflexivity. Qed.

Lemma bind_raise {A B} (e : E) (k : A -> st S E B) s :
  bind (raise e) k s = (Raise e, s).
Proof. reflexivity. Qed.

Lemma bind_ok {A B} (m : st S E A) (k : A -> st S E B) s a s' :
  m s = (Ok a, s') -> bind m k s = k a s'.
Proof. unfold bind. intros ->. reflexivity. Qed.

Lemma bind_err {A B} (m : st S E A) (k : A -> st S E B) s e s' :
  m s = (Raise e, s') -> bind m k s = (Raise e, s').
Proof. unfold bind. intros ->. reflexivity. Qed.

Lemma bind_ok_inv {A B} (m : st S E A) (k : A -> st S E B) s b s' :
  bind m k s = (Ok b, s') -> exists a s1, m s = (Ok a, s1) /\ k a s1 = (Ok b, s').
Proof.
  unfold bind. destruct (m s) as [[a|e] s1]; [eauto | discriminate].
Qed.

Lemma bind_assoc {A B C} (m : st S E A) (k : A -> st S E B)
      (k' : B -> st S E C) s :
  bind (bind m k) k' s = bind m (fun a => bind (k a) k') s.
Proof. unfold bind. destruct (m s) as [[a|e] s']; reflexivity. Qed.
End Monad.

Notation "'let!' x ':=' m 'in' k" := (bind m (fun x => k))
  (at level 10, x name, m at level 100, k at level 200) : horses_scope.
Notation "'do!' m 'in' k" := (bind m (fun _ => k))
  (at level 10, m at level 100, k at level 200) : horses_scope.

#[export] Hint Rewrite @bind_ret_l @bind_raise : horses_rw.

(** Runs a monadic step whose outcome is known from a hypothesis. *)
Ltac step_with H :=
  first [ rewrite (bind_ok _ _ _ _ _ H) | rewrite (bind_err _ _ _ _ _ H) ].

(** ** Lists *)

Section ListFacts.
Context {A : Type}.

Lemma filter_ext_in_eq (f g : A -> bool) (l : list A) :
  (forall x, In x l -> f x = g x) -> List.filter f l = List.filter g l.
Proof.
  induction l as [|x l IH]; intros H; simpl; [reflexivity|].
  rewrite (H x) by (left; reflexivity).
  rewrite IH by (intros y Hy; apply H; right; exact Hy). reflexivity.
Qed.

Lemma filter_rev (f : A -> bool) (l : list A) :
  List.filter f (rev l) = rev (List.filter f l).
Proof.
  induction l as [|x l IH]; simpl; [reflexivity|].
  rewrite List.filter_app, IH. simpl.
  destruct (f x); simpl; [reflexivity|apply app_nil_r].
Qed.

Lemma filter_filter_comm (f g : A -> bool) (l : list A) :
  List.filter f (List.filter g l) = List.filter (fun x => g x && f x) l.
Proof.
  induction l as [|x l IH]; simpl; [reflexivity|].
  destruct (g x); simpl; [destruct (f x)|]; simpl; rewrite ?IH; reflexivity.
Qed.

Lemma filter_const_false (l : list A) : List.filter (fun _ => false) l = [].
Proof. induction l; simpl; [reflexivity | assumption]. Qed.

Lemma forallb_filter (f g : A -> bool) (l : list A) :
  (forall x, g x = true -> f x = true) ->
  forallb f (List.filter g l) = true.
Proof.
  intros H. apply forallb_forall. intros x Hx.
  apply filter_In in Hx as [_ Hx]. apply H, Hx.
Qed.

Lemma Forall_filter_In (P : A -> Prop) (g : A -> bool) (l : list A) :
  (forall x, g x = true -> P x) -> Forall P (List.filter g l).
Proof.
  intros H. apply Forall_forall. intros x Hx.
  apply filter_In in Hx as [_ Hx]. apply H, Hx.
Qed.

(** An invariant of a Python [for] loop folded over [l]. *)
Lemma fold_left_inv {B} (P : B -> Prop) (f : B -> A -> B) (l : list A) (x : B) :
  P x -> (forall y z, In z l -> P y -> P (f y z)) -> P (fold_left f l x).
Proof.
  revert x. induction l as [|z l IH]; intros x Hx Hf; simpl; [exact Hx|].
  apply IH; [apply Hf; [left; reflexivity | exact Hx]|].
  intros y w Hw. apply Hf. right. exact Hw.
Qed.
End ListFacts.

#[export] Hint Resolve Forall_filter_In forallb_filter : horses.

(** ** Transition sequences

    The reflexive-transitive closure of a transition relation and the
    final (irreducible) configurations, as in the mechanized-semantics
    course's [Sequences]. *)

Section Sequences.
Context {C : Type} (R : C -> C -> Prop).

Inductive star : C -> C -> Prop :=
| star_refl a : star a a
| star_step a b c : R a b -> star b c -> star a c.

Lemma star_one a b : R a b -> star a b.
Proof. intros H. eapply star_step; [exact H | apply star_refl]. Qed.

Lemma star_trans a b c : star a b -> star b c -> star a c.
Proof. induction 1; intros; [assumption | eapply star_step; eauto]. Qed.

Definition irred (a : C) : Prop := forall b, ~ R a b.

Lemma star_irred a b : irred a -> star a b -> b = a.
Proof. intros Ia H. destruct H as [|a a' b Hs _]; [reflexivity | exfalso; apply (Ia _ Hs)]. Qed.

(** [P] holds eventually on every path from a configuration (CTL's
    AF): now, or the configuration can step and every successor
    eventually satisfies [P]. *)
Inductive eventually (P : C -> Prop) : C -> Prop :=
| ev_now a : P a -> eventually P a
| ev_later a : (exists b, R a b) -> (forall b, R a b -> eventually P b) -> eventually P a.

Hypothesis R_determ : forall a b c, R a b -> R a c -> b = c.

(** In a deterministic system a configuration reaches at most one final
    configuration. *)
Lemma star_determ_final a b c : star a b -> star a c -> irred b -> irred c -> b = c.
Proof.
  intros Hb. revert c. induction Hb as [a|a a' b Hs Hb IH]; intros c Hc Ib Ic.
  - destruct Hc as [|a a'' c Hs' _]; [reflexivity | exfalso; apply (Ib _ Hs')].
  - destruct Hc as [|a a'' c Hs' Hc]; [exfalso; apply (Ic _ Hs)|].
    rewrite (R_determ _ _ _ Hs Hs') in IH. apply IH; assumption.
Qed.

(** In a deterministic system, a configuration that reaches one where
    [P] holds satisfies [P] eventually, on its only path. *)
Lemma star_eventually (P : C -> Prop) a b : star a b -> P b -> eventually P a.
Proof.
  induction 1 as [a|a a' b Hs _ IH]; intros Hb; [apply ev_now, Hb|].
  apply ev_later; [eauto|]. intros c Hc. rewrite (R_determ _ _ _ Hc Hs). auto.
Qed.

End Sequences.

#[export] Hint Resolve star_refl star_one : horses.
