(* ===== verification/Int64.v ===== *)
(** numpy [int64] arithmetic.  An [int64] column multiplied by a Python
    integer (line 31 of [generate_figures.py], [horse_pop['Value'] * 1000])
    is computed by numpy element by element in two's complement, with no
    overflow check: the exact product is reduced modulo [2^64] into the
    signed range.  [wrap64] is that reduction. *)

From Stdlib Require Import Bool ZArith Lia.
From S2P Require Import Prelude.

Open Scope Z_scope.

Definition int64_min : Z := - 2 ^ 63.
Definition int64_max : Z := 2 ^ 63 - 1.

(** Membership in the signed 64-bit range, as a boolean test. *)
Definition in_int64 (z : Z) : bool := (int64_min <=? z) && (z <=? int64_max).

(** Two's-complement reduction into the signed 64-bit range. *)
Definition wrap64 (z : Z) : Z := (z + 2 ^ 63) mod 2 ^ 64 - 2 ^ 63.

(** numpy's [int64 * int64]. *)
Definition mul64 (a b : Z) : Z := wrap64 (a * b).

Lemma in_int64_iff z : in_int64 z = true <-> int64_min <= z <= int64_max.
Proof.
  unfold in_int64. rewrite andb_true_iff, !Z.leb_le. reflexivity.
Qed.

Lemma wrap64_range z : in_int64 (wrap64 z) = true.
Proof.
  apply in_int64_iff. unfold wrap64, int64_min, int64_max.
  pose proof (Z.mod_pos_bound (z + 2 ^ 63) (2 ^ 64)). lia.
Qed.

Lemma wrap64_id z : in_int64 z = true -> wrap64 z = z.
Proof.
  rewrite in_int64_iff. unfold wrap64, int64_min, int64_max. intros H.
  rewrite Z.mod_small by lia. lia.
Qed.

Lemma wrap64_mod z : wrap64 z mod 2 ^ 64 = z mod 2 ^ 64.
Proof.
  unfold wrap64.
  rewrite Zminus_mod, Z.mod_mod, <- Zminus_mod by lia.
  replace (z + 2 ^ 63 - 2 ^ 63) with z by lia. reflexivity.
Qed.

#[export] Hint Resolve wrap64_range : horses.

(** The largest value (in thousands) that survives the scaling by 1000. *)
Definition scale_limit : Z := int64_max / 1000.

Lemma mul64_1000_exact v :
  - scale_limit <= v <= scale_limit -> mul64 v 1000 = v * 1000.
Proof.
  intros H. unfold mul64. apply wrap64_id, in_int64_iff.
  change scale_limit with 9223372036854775 in H.
  unfold int64_min, int64_max. lia.
Qed.

(** The wrap leaves exactly the [int64] values alone. *)
Lemma wrap64_id_iff z : wrap64 z = z <-> in_int64 z = true.
Proof. split; [intros <-; apply wrap64_range | apply wrap64_id]. Qed.

(** The product by 1000 fits in [int64] exactly up to [scale_limit]. *)
Lemma in_int64_mul_1000 v : in_int64 (v * 1000) = true <-> - scale_limit <= v <= scale_limit.
Proof.
  rewrite in_int64_iff. change scale_limit with 9223372036854775.
  unfold int64_min, int64_max. lia.
Qed.
