(* ===== verification/Frame.v ===== *)
(** The Observation Table of [generate_figures.py]: the pandas DataFrame
    that [pd.read_csv] returns (line 28) and lines 29-32 transform.

    A DataFrame is columnar with one dtype per column; the model keeps the
    dtypes of the two columns whose dtype changes what the script computes
    (Ref_Date and Value) in a [schema], and the rows as records.  GEO and
    DATE are object columns of strings, where a missing value is NaN
    ([None]).  A Value cell is a Python string, an [int64] or a float64
    ([CFloat None] is NaN); a Ref_Date cell is an [int64], a float64 with
    an integral value, a string or NaN.  [frame_wf] says that every cell
    has its column's dtype. *)

From Stdlib Require Import List Bool ZArith QArith String.
From S2P Require Import Prelude Int64.
Import ListNotations.

(** The dtypes pandas infers for a CSV column. *)
Inductive dtype : Type :=
| DObject
| DInt64
| DFloat64.

Definition dtype_eqb (a b : dtype) : bool :=
  match a, b with
  | DObject, DObject | DInt64, DInt64 | DFloat64, DFloat64 => true
  | _, _ => false
  end.

(** A Value cell. *)
Inductive cell : Type :=
| CStr (s : string)
| CInt (z : Z)
| CFloat (q : option Q).

(** A Ref_Date cell: a year read as [int64], a year read as a float64
    (the dtype pandas gives a column of years with a missing one), a
    string, or NaN. *)
Inductive refcell : Type :=
| RInt (z : Z)
| RFloat (z : Z)
| RStr (s : string)
| RNaN.

Record schema : Type := mkSchema {
  ref_t : dtype;
  value_t : dtype
}.

Record row : Type := mkRow {
  GEO : option string;
  DATE : option string;
  Ref_Date : refcell;
  Value : cell
}.

Record frame : Type := mkFrame {
  fschema : schema;
  frows : list row
}.

(** A DataFrame as [pd.read_csv] returns it (line 28): the labels of its
    columns, as the header line of the file gives them, and the data of
    the four columns the script uses.  When one of the four is not among
    the labels, its field in [tframe] is never read: lines 29-32 raise
    before they reach it. *)
Record table : Type := mkTable {
  tcols : list string;
  tframe : frame
}.

(** A Value cell fits its column's dtype; an [int64] is in range. *)
Definition cell_has_dtype (t : dtype) (c : cell) : bool :=
  match t, c with
  | DObject, CStr _ => true
  | DObject, CFloat None => true
  | DInt64, CInt z => in_int64 z
  | DFloat64, CFloat _ => true
  | _, _ => false
  end.

(** The integral float64 values of the model: a non-zero integer of at
    most [2^53] in magnitude is exact in binary64 and Python prints it in
    fixed notation; a zero, whose sign the value does not keep, is left
    out. *)
Definition float_int_exact (z : Z) : bool := negb (z =? 0)%Z && (Z.abs z <=? 2 ^ 53)%Z.

(** A Ref_Date cell fits its column's dtype; a float year column holds
    exact integral values or NaN. *)
Definition refcell_has_dtype (t : dtype) (c : refcell) : bool :=
  match t, c with
  | DInt64, RInt z => in_int64 z
  | DFloat64, RFloat z => float_int_exact z
  | DFloat64, RNaN => true
  | DObject, RStr _ => true
  | DObject, RNaN => true
  | _, _ => false
  end.

Definition row_wf (sc : schema) (r : row) : bool :=
  refcell_has_dtype (ref_t sc) (Ref_Date r) && cell_has_dtype (value_t sc) (Value r).

(** The type invariant of a DataFrame. *)
Definition frame_wf (f : frame) : bool :=
  forallb (row_wf (fschema f)) (frows f).

(** Equality of an object cell with a string literal, as pandas' [==]
    computes it: NaN equals nothing. *)
Definition obj_eqb (c : option string) (s : string) : bool :=
  match c with
  | Some s' => String.eqb s' s
  | None => false
  end.

Lemma obj_eqb_true c s : obj_eqb c s = true <-> c = Some s.
Proof.
  destruct c as [s'|]; simpl; [rewrite String.eqb_eq|]; split; congruence.
Qed.

Lemma frame_wf_forall f :
  frame_wf f = true <-> Forall (fun r => row_wf (fschema f) r = true) (frows f).
Proof. unfold frame_wf. rewrite forallb_forall, Forall_forall. reflexivity. Qed.
