(* ===== verification/PyFloat.v ===== *)
(** Python's [float()] of a [str]: what numpy's cast of an object array
    to float64 calls on each string ([MyPyFloat_AsDouble], then
    [PyNumber_Float]), and so what [std] at line 49 does to a Value column
    of strings through pandas' [ensure_float64].

    CPython's [float_from_string] first maps Unicode spaces to [' ']; then
    [_Py_string_to_number_with_underscores] accepts an underscore only
    between two digits and drops it; [float_from_string_inner] strips
    leading and trailing whitespace ([ValueError] on nothing left) and
    asks [PyOS_string_to_double] for the whole rest: an optional sign and
    a decimal number ([_Py_dg_strtod]: digits with at most one point and
    at least one digit, an optional exponent), or an optional sign and
    [inf], [infinity] or [nan] in any case ([_Py_parse_inf_or_nan]).
    Anything left over is a [ValueError].  A value too large for binary64
    is an infinity, not an error.

    Finite values are exact rationals, as everywhere in the development
    (rounding is not modelled); a magnitude of at least [2^1024 - 2^970]
    rounds to infinity, and one below [10^-330], far under half the
    smallest subnormal, rounds to zero.

    The lemmas at the end describe the strings line 31 makes of an
    object column: a string without a digit is rejected unless its
    non-space part is one of the short words ([py_float_no_digit]), and
    a numeral with more than 309 digits after its first non-zero one is
    [inf] ([py_float_long_numeral]). *)

From Stdlib Require Import List Bool Ascii String ZArith QArith Lia.
From S2P Require Import Prelude.
Import ListNotations.

(** A float64 value: finite, an infinity, or NaN. *)
Inductive pyfloat : Type :=
| PFin (q : Q)
| PInf (neg : bool)
| PNaN.

Definition is_digit (c : ascii) : bool :=
  let n := nat_of_ascii c in ((48 <=? n) && (n <=? 57))%nat.

Definition digit_of (c : ascii) : Z := (Z.of_nat (nat_of_ascii c) - 48)%Z.

(** [Py_UNICODE_ISSPACE] on ASCII: tab to carriage return, the
    separators 0x1C to 0x1F, and space. *)
Definition py_space (c : ascii) : bool :=
  let n := nat_of_ascii c in ((9 <=? n) && (n <=? 13) || (28 <=? n) && (n <=? 32))%nat.

Definition underscore : ascii := "_".

(** [_Py_string_to_number_with_underscores]: [prev] is the character
    before, NUL at the start. *)
Fixpoint strip_underscores (prev : ascii) (l : list ascii) : option (list ascii) :=
  match l with
  | [] => if Ascii.eqb prev underscore then None else Some []
  | c :: l' =>
      if Ascii.eqb c underscore then
        if is_digit prev then strip_underscores c l' else None
      else if Ascii.eqb prev underscore && negb (is_digit c) then None
      else option_map (cons c) (strip_underscores c l')
  end.

Fixpoint drop_spaces (l : list ascii) : list ascii :=
  match l with
  | c :: l' => if py_space c then drop_spaces l' else l
  | [] => []
  end.

(** Leading and trailing whitespace removed. *)
Definition strip_spaces (l : list ascii) : list ascii := rev (drop_spaces (rev (drop_spaces l))).

Fixpoint take_digit_list (l : list ascii) : list Z * list ascii :=
  match l with
  | c :: l' => if is_digit c then let (ds, r) := take_digit_list l' in (digit_of c :: ds, r) else ([], l)
  | [] => ([], [])
  end.

Definition take_sign (l : list ascii) : bool * list ascii :=
  match l with
  | c :: l' =>
      if Ascii.eqb c "-"%char then (true, l')
      else if Ascii.eqb c "+"%char then (false, l')
      else (false, l)
  | [] => (false, [])
  end.

Definition digits_value (ds : list Z) : Z := fold_left (fun acc d => acc * 10 + d)%Z ds 0%Z.

(** [_Py_dg_strtod] on the whole string: the sign, the digits of the
    mantissa (integer and fractional part together) and the decimal
    exponent of its last digit. *)
Definition parse_decimal (l : list ascii) : option (bool * list Z * Z) :=
  let (neg, l1) := take_sign l in
  let (d1, l2) := take_digit_list l1 in
  let '(d2, l3) := match l2 with
                   | c :: l' => if Ascii.eqb c "."%char then take_digit_list l' else ([], l2)
                   | [] => ([], [])
                   end in
  let frac := Z.of_nat (List.length d2) in
  match (d1 ++ d2)%list with
  | [] => None
  | ds =>
      match l3 with
      | [] => Some (neg, ds, - frac)%Z
      | c :: l4 =>
          if Ascii.eqb c "e"%char || Ascii.eqb c "E"%char then
            let (eneg, l5) := take_sign l4 in
            match take_digit_list l5 with
            | (d3 :: d3s, []) =>
                let e := digits_value (d3 :: d3s) in
                Some (neg, ds, (if eneg then - e else e) - frac)%Z
            | _ => None
            end
          else None
      end
  end.

Definition lower (c : ascii) : ascii :=
  let n := nat_of_ascii c in if ((65 <=? n) && (n <=? 90))%nat then ascii_of_nat (n + 32) else c.

(** [_Py_parse_inf_or_nan] on the whole string. *)
Definition parse_inf_nan (l : list ascii) : option pyfloat :=
  let (neg, l1) := take_sign l in
  let w := string_of_list_ascii (map lower l1) in
  if String.eqb w "inf" || String.eqb w "infinity" then Some (PInf neg)
  else if String.eqb w "nan" then Some PNaN
  else None.

Fixpoint drop_zeros (ds : list Z) : list Z :=
  match ds with
  | 0%Z :: ds' => drop_zeros ds'
  | _ => ds
  end.

Definition scale10 (m e : Z) : Q :=
  if (0 <=? e)%Z then inject_Z (m * 10 ^ e) else Qmake m (Z.to_pos (10 ^ (- e))).

(** Where the correctly rounded value overflows: the midpoint between
    the largest finite double and [2^1024], which rounds up. *)
Definition overflow_bound : Q := inject_Z (2 ^ 1024 - 2 ^ 970).

(** The float64 of [(-1)^neg * ds * 10^e]; [nd] digits without the
    leading zeros put the value in [[10^(nd+e-1), 10^(nd+e))]. *)
Definition decimal_value (neg : bool) (ds : list Z) (e : Z) : pyfloat :=
  let sig := drop_zeros ds in
  let nd := Z.of_nat (List.length sig) in
  match sig with
  | [] => PFin 0
  | _ =>
      if (310 <=? nd + e)%Z then PInf neg
      else if (nd + e <=? -330)%Z then PFin 0
      else
        let q := scale10 (digits_value sig) e in
        if Qle_bool overflow_bound q then PInf neg
        else PFin (if neg then Qopp q else q)
  end.

(** [float(s)] for a [str]; [None] is the [ValueError]. *)
Definition py_float (s : string) : option pyfloat :=
  match strip_underscores "000"%char (list_ascii_of_string s) with
  | None => None
  | Some l =>
      match strip_spaces l with
      | [] => None
      | l' =>
          match parse_decimal l' with
          | Some (neg, ds, e) => Some (decimal_value neg ds e)
          | None => parse_inf_nan l'
          end
      end
  end.

(** ** Strings without a digit *)

Definition no_digit (l : list ascii) : bool := forallb (fun c => negb (is_digit c)) l.

(** The characters that are not whitespace. *)
Definition nonspace_count (l : list ascii) : nat :=
  List.length (List.filter (fun c => negb (py_space c)) l).

Lemma nonspace_count_app l1 l2 :
  nonspace_count (l1 ++ l2) = (nonspace_count l1 + nonspace_count l2)%nat.
Proof. unfold nonspace_count. rewrite filter_app, length_app. reflexivity. Qed.

Lemma nonspace_count_rev l : nonspace_count (rev l) = nonspace_count l.
Proof. unfold nonspace_count. rewrite filter_rev, length_rev. reflexivity. Qed.

Lemma nonspace_count_le l : (nonspace_count l <= List.length l)%nat.
Proof. apply filter_length_le. Qed.

Lemma forallb_rev (f : ascii -> bool) l : forallb f (rev l) = forallb f l.
Proof.
  induction l as [|c l IH]; simpl; [reflexivity|].
  rewrite forallb_app, IH. simpl. rewrite andb_true_r, andb_comm. reflexivity.
Qed.

Lemma no_digit_rev l : no_digit (rev l) = no_digit l.
Proof. apply forallb_rev. Qed.

(** Without a digit, an underscore is an error and nothing else changes. *)
Lemma strip_underscores_no_digit l prev :
  is_digit prev = false -> no_digit l = true ->
  strip_underscores prev l = None \/ strip_underscores prev l = Some l.
Proof.
  revert prev. induction l as [|c l IH]; intros prev Hp Hl; simpl.
  - destruct (Ascii.eqb prev underscore); auto.
  - simpl in Hl. apply andb_prop in Hl as [Hc Hl]. apply negb_true_iff in Hc.
    destruct (Ascii.eqb c underscore); [rewrite Hp; auto|].
    destruct (Ascii.eqb prev underscore && negb (is_digit c)); [auto|].
    destruct (IH c Hc Hl) as [-> | ->]; auto.
Qed.

Lemma drop_spaces_count l : nonspace_count (drop_spaces l) = nonspace_count l.
Proof.
  induction l as [|c l IH]; simpl; [reflexivity|].
  destruct (py_space c) eqn:E; [|reflexivity].
  rewrite IH. unfold nonspace_count. simpl. rewrite E. reflexivity.
Qed.

Lemma drop_spaces_no_digit l : no_digit l = true -> no_digit (drop_spaces l) = true.
Proof.
  induction l as [|c l IH]; simpl; [auto|]. intros H.
  destruct (py_space c); [apply IH; apply andb_prop in H as [_ H]; exact H | exact H].
Qed.

Lemma drop_spaces_nil l : nonspace_count l = 0%nat -> drop_spaces l = [].
Proof.
  induction l as [|c l IH]; simpl; [reflexivity|]. unfold nonspace_count. simpl.
  destruct (py_space c); simpl; [exact IH | discriminate].
Qed.

Lemma strip_spaces_count l : nonspace_count (strip_spaces l) = nonspace_count l.
Proof. unfold strip_spaces. rewrite nonspace_count_rev, drop_spaces_count, nonspace_count_rev, drop_spaces_count. reflexivity. Qed.

Lemma strip_spaces_no_digit l : no_digit l = true -> no_digit (strip_spaces l) = true.
Proof.
  intros H. unfold strip_spaces. rewrite no_digit_rev.
  apply drop_spaces_no_digit. rewrite no_digit_rev. apply drop_spaces_no_digit, H.
Qed.

Lemma take_digits_no_digit l : no_digit l = true -> take_digit_list l = ([], l).
Proof.
  destruct l as [|c l]; simpl; [reflexivity|]. intros H.
  apply andb_prop in H as [Hc _]. apply negb_true_iff in Hc. rewrite Hc. reflexivity.
Qed.

Lemma take_sign_tail l neg l1 : take_sign l = (neg, l1) -> l1 = l \/ exists c, l = c :: l1.
Proof.
  destruct l as [|c l]; simpl; [intros [= _ <-]; auto|].
  destruct (Ascii.eqb c "-"%char); [|destruct (Ascii.eqb c "+"%char)]; intros [= _ <-]; eauto.
Qed.

Lemma take_sign_no_digit l neg l1 : take_sign l = (neg, l1) -> no_digit l = true -> no_digit l1 = true.
Proof.
  intros Hs Hl. destruct (take_sign_tail _ _ _ Hs) as [-> | [c ->]]; [exact Hl|].
  simpl in Hl. apply andb_prop in Hl as [_ Hl]. exact Hl.
Qed.

(** A decimal number needs a digit. *)
Lemma parse_decimal_no_digit l : no_digit l = true -> parse_decimal l = None.
Proof.
  intros Hl. unfold parse_decimal. destruct (take_sign l) as [neg l1] eqn:Es.
  pose proof (take_sign_no_digit _ _ _ Es Hl) as H1.
  rewrite (take_digits_no_digit _ H1).
  destruct l1 as [|c l']; [reflexivity|].
  simpl in H1. apply andb_prop in H1 as [_ H1].
  destruct (Ascii.eqb c "."%char); [rewrite (take_digits_no_digit _ H1)|]; reflexivity.
Qed.

Lemma length_string_of_list_ascii l : String.length (string_of_list_ascii l) = List.length l.
Proof. induction l as [|c l IH]; simpl; [reflexivity | rewrite IH; reflexivity]. Qed.

(** [inf], [infinity] and [nan] with a sign have at most nine characters. *)
Lemma parse_inf_nan_long l : (10 <= List.length l)%nat -> parse_inf_nan l = None.
Proof.
  intros Hl. unfold parse_inf_nan. destruct (take_sign l) as [neg l1] eqn:Es.
  assert (H1 : (9 <= List.length l1)%nat)
    by (destruct (take_sign_tail _ _ _ Es) as [-> | [c ->]]; simpl in Hl; lia).
  assert (Hw : (9 <= String.length (string_of_list_ascii (map lower l1)))%nat)
    by (rewrite length_string_of_list_ascii, length_map; exact H1).
  destruct (String.eqb _ "inf") eqn:E1; [apply String.eqb_eq in E1; rewrite E1 in Hw; simpl in Hw; lia|].
  destruct (String.eqb _ "infinity") eqn:E2; [apply String.eqb_eq in E2; rewrite E2 in Hw; simpl in Hw; lia|].
  destruct (String.eqb _ "nan") eqn:E3; [apply String.eqb_eq in E3; rewrite E3 in Hw; simpl in Hw; lia|].
  reflexivity.
Qed.

(** [float()] rejects a string without a digit, unless its non-space
    part is one of the short words [inf], [infinity] and [nan]. *)
Lemma py_float_no_digit s :
  no_digit (list_ascii_of_string s) = true ->
  (nonspace_count (list_ascii_of_string s) = 0%nat \/ (10 <= nonspace_count (list_ascii_of_string s))%nat) ->
  py_float s = None.
Proof.
  intros Hd Hc. unfold py_float.
  destruct (strip_underscores_no_digit _ "000"%char eq_refl Hd) as [-> | ->]; [reflexivity|].
  destruct Hc as [Hc | Hc].
  - unfold strip_spaces. rewrite (drop_spaces_nil _ Hc). reflexivity.
  - destruct (strip_spaces _) as [|c l'] eqn:E; [reflexivity|].
    rewrite parse_decimal_no_digit by (rewrite <- E; apply strip_spaces_no_digit, Hd).
    apply parse_inf_nan_long.
    pose proof (strip_spaces_count (list_ascii_of_string s)) as Hn. rewrite E in Hn.
    pose proof (nonspace_count_le (c :: l')). lia.
Qed.

(** ** Numerals *)

Lemma digit_not_space c : is_digit c = true -> py_space c = false.
Proof.
  unfold is_digit, py_space. intros H. apply andb_prop in H as [H1 H2].
  apply Nat.leb_le in H1. apply Nat.leb_le in H2.
  repeat match goal with |- context [Nat.leb ?a ?b] => destruct (Nat.leb_spec a b) end;
    simpl; try reflexivity; lia.
Qed.

Lemma digit_not_char c d : is_digit c = true -> is_digit d = false -> Ascii.eqb c d = false.
Proof. intros Hc Hd. destruct (Ascii.eqb_spec c d) as [->|]; [congruence | reflexivity]. Qed.

(** A digit other than [0] has a non-zero value. *)
Lemma digit_of_nonzero c : is_digit c = true -> Ascii.eqb c "0"%char = false -> digit_of c <> 0%Z.
Proof.
  intros _ H0 Hz. unfold digit_of in Hz.
  assert (Hn : nat_of_ascii c = 48%nat) by lia.
  rewrite <- (ascii_nat_embedding c), Hn in H0. discriminate.
Qed.

(** Without an underscore, [strip_underscores] changes nothing. *)
Lemma strip_underscores_digits l prev :
  Ascii.eqb prev underscore = false -> forallb is_digit l = true -> strip_underscores prev l = Some l.
Proof.
  revert prev. induction l as [|c l IH]; intros prev Hp Hl; simpl; [rewrite Hp; reflexivity|].
  simpl in Hl. apply andb_prop in Hl as [Hc Hl].
  assert (Hcu : Ascii.eqb c underscore = false) by (apply digit_not_char; [exact Hc | reflexivity]).
  rewrite Hcu, Hp. simpl. rewrite (IH c Hcu Hl). reflexivity.
Qed.

Lemma drop_spaces_digits l : forallb is_digit l = true -> drop_spaces l = l.
Proof.
  destruct l as [|c l]; simpl; [reflexivity|]. intros H. apply andb_prop in H as [Hc _].
  rewrite (digit_not_space c Hc). reflexivity.
Qed.

Lemma strip_spaces_digits l : forallb is_digit l = true -> strip_spaces l = l.
Proof.
  intros H. unfold strip_spaces. rewrite (drop_spaces_digits l H), drop_spaces_digits, rev_involutive;
    [reflexivity | rewrite forallb_rev; exact H].
Qed.

Lemma take_digit_list_digits l : forallb is_digit l = true -> take_digit_list l = (map digit_of l, []).
Proof.
  induction l as [|c l IH]; simpl; [reflexivity|]. intros H. apply andb_prop in H as [Hc Hl].
  rewrite Hc, (IH Hl). reflexivity.
Qed.

(** A run of digits is a decimal number with exponent 0. *)
Lemma parse_decimal_digits l :
  l <> [] -> forallb is_digit l = true -> parse_decimal l = Some (false, map digit_of l, 0%Z).
Proof.
  destruct l as [|c l']; [congruence|]. intros _ H.
  pose proof H as H'. simpl in H'. apply andb_prop in H' as [Hc _].
  unfold parse_decimal. simpl take_sign.
  rewrite (digit_not_char c "-"%char Hc eq_refl), (digit_not_char c "+"%char Hc eq_refl).
  rewrite (take_digit_list_digits _ H). simpl. rewrite app_nil_r. reflexivity.
Qed.

(** Leading zeros come only from the part before a non-zero digit. *)
Lemma drop_zeros_app ds1 ds2 :
  Exists (fun d => d <> 0%Z) ds1 -> (List.length ds2 <= List.length (drop_zeros (ds1 ++ ds2)))%nat.
Proof.
  induction ds1 as [|d ds1 IH]; intros Hx; [inversion Hx|].
  destruct d as [|p|p]; simpl.
  - apply IH. inversion Hx; [congruence | assumption].
  - rewrite length_app. lia.
  - rewrite length_app. lia.
Qed.

(** [float()] of a numeral with more than 309 digits after its first
    non-zero one overflows to [inf]. *)
Lemma py_float_long_numeral s l1 l2 :
  forallb is_digit (list_ascii_of_string s) = true ->
  list_ascii_of_string s = l1 ++ l2 ->
  existsb (fun c => negb (Ascii.eqb c "0"%char)) l1 = true ->
  (310 <= List.length l2)%nat ->
  py_float s = Some (PInf false).
Proof.
  intros Hd Hs Hnz Hlen. unfold py_float.
  rewrite (strip_underscores_digits _ "000"%char eq_refl Hd), (strip_spaces_digits _ Hd).
  assert (Hne : list_ascii_of_string s <> []) by (rewrite Hs; destruct l1; [discriminate | discriminate]).
  destruct (list_ascii_of_string s) as [|c l] eqn:E; [congruence|]. cbv beta iota.
  rewrite (parse_decimal_digits _ Hne Hd).
  rewrite Hs in Hd. rewrite forallb_app in Hd. apply andb_prop in Hd as [Hd1 _].
  assert (Hx : Exists (fun d => d <> 0%Z) (map digit_of l1)).
  { apply Exists_exists. apply existsb_exists in Hnz as (c' & Hin & Hc').
    exists (digit_of c'). split; [apply in_map, Hin|].
    apply digit_of_nonzero; [exact (proj1 (forallb_forall _ _) Hd1 c' Hin)|].
    apply negb_true_iff, Hc'. }
  pose proof (drop_zeros_app _ (map digit_of l2) Hx) as Hz.
  rewrite length_map, <- map_app, <- Hs in Hz.
  unfold decimal_value. destruct (drop_zeros (map digit_of (c :: l))) as [|d ds]; [simpl in Hz; lia|].
  replace (310 <=? Z.of_nat (List.length (d :: ds)) + 0)%Z with true by (symmetry; apply Z.leb_le; lia).
  reflexivity.
Qed.

