(* ===== verification/Preprocess.v ===== *)
(** Lines 29-32 of [generate_figures.py], one definition per statement:

    {v
    horse_pop = horse_pop.query('DATE == "At June 1 (x 1,000)" and GEO != "Canada"')
    horse_pop['GEO'] = horse_pop['GEO'].replace({"Prince Edward Island": "P.E.I."})
    horse_pop['Value'] = horse_pop['Value'] * 1000
    horse_pop['Ref_Date'] = horse_pop['Ref_Date'].astype(str)
    v}

    composed in that order as [preprocess]. *)

From Stdlib Require Import List Bool ZArith QArith String Lia.
From Stdlib Require Import DecimalString DecimalZ DecimalPos.
From S2P Require Import Prelude Int64 Frame.
Import ListNotations.

Open Scope string_scope.

Definition target_date : string := "At June 1 (x 1,000)".
Definition national_geo : string := "Canada".
Definition pei_long : string := "Prince Edward Island".
Definition pei_short : string := "P.E.I.".

(** The row mask of the query (line 29). *)
Definition query_keep (r : row) : bool :=
  obj_eqb (DATE r) target_date && negb (obj_eqb (GEO r) national_geo).

Definition query (f : frame) : frame :=
  mkFrame (fschema f) (List.filter query_keep (frows f)).

(** [Series.replace] with a one-entry dict: exact matches only (line 30). *)
Definition replace_geo_value (g : option string) : option string :=
  match g with
  | Some s => if String.eqb s pei_long then Some pei_short else Some s
  | None => None
  end.

Definition set_GEO (g : option string) (r : row) : row :=
  mkRow g (DATE r) (Ref_Date r) (Value r).
Definition set_Value (v : cell) (r : row) : row :=
  mkRow (GEO r) (DATE r) (Ref_Date r) v.
Definition set_Ref_Date (d : refcell) (r : row) : row :=
  mkRow (GEO r) (DATE r) d (Value r).

Definition replace_geo (f : frame) : frame :=
  mkFrame (fschema f) (map (fun r => set_GEO (replace_geo_value (GEO r)) r) (frows f)).

(** Python's [s * n] on a string: [n] copies, none when [n <= 0]. *)
Fixpoint str_repeat (n : nat) (s : string) : string :=
  match n with
  | O => ""
  | S n' => s ++ str_repeat n' s
  end.

(** [x * k] on one cell of the Value column (line 31): numpy's wrapping
    [int64] product, the float product (NaN stays NaN), and on an object
    column Python's own [*], which repeats a string. *)
Definition mul_cell (k : Z) (c : cell) : cell :=
  match c with
  | CInt z => CInt (mul64 z k)
  | CFloat q => CFloat (option_map (Qmult (inject_Z k)) q)
  | CStr s => CStr (str_repeat (Z.to_nat k) s)
  end.

Definition scale_value (f : frame) : frame :=
  mkFrame (fschema f) (map (fun r => set_Value (mul_cell 1000 (Value r)) r) (frows f)).

(** Python's [str] of an integer: optional minus sign, then the decimal
    digits without leading zeros. *)
Definition py_str_int (z : Z) : string := NilZero.string_of_int (Z.to_int z).

(** Python's [int] of a decimal string. *)
Definition py_int_of_string (s : string) : option Z :=
  option_map Z.of_int (NilZero.int_of_string s).

(** Python's [str] of a float64 with an integral value below [10^16]
    ([float_repr] in fixed notation with [Py_DTSF_ADD_DOT_0]): the
    integer's digits followed by [.0]. *)
Definition py_str_float_int (z : Z) : string := py_str_int z ++ ".0".

(** [astype(str)] on one Ref_Date cell (line 32): each value through
    Python's [str], and NaN printed as "nan". *)
Definition astype_str_cell (c : refcell) : refcell :=
  match c with
  | RInt z => RStr (py_str_int z)
  | RFloat z => RStr (py_str_float_int z)
  | RStr s => RStr s
  | RNaN => RStr "nan"
  end.

Definition astype_str_ref (f : frame) : frame :=
  mkFrame (mkSchema DObject (value_t (fschema f)))
          (map (fun r => set_Ref_Date (astype_str_cell (Ref_Date r)) r) (frows f)).

(** Lines 29-32 in order. *)
Definition preprocess (f : frame) : frame :=
  astype_str_ref (scale_value (replace_geo (query f))).

(** The whole of lines 30-32 on one row that the query kept. *)
Definition transform_row (r : row) : row :=
  mkRow (replace_geo_value (GEO r)) (DATE r)
        (astype_str_cell (Ref_Date r)) (mul_cell 1000 (Value r)).

(** ** The row-level view of the pipeline *)

Lemma preprocess_rows f :
  frows (preprocess f) = map transform_row (List.filter query_keep (frows f)).
Proof.
  unfold preprocess, astype_str_ref, scale_value, replace_geo, query; simpl.
  rewrite !map_map. reflexivity.
Qed.

Lemma preprocess_schema f :
  fschema (preprocess f) = mkSchema DObject (value_t (fschema f)).
Proof. reflexivity. Qed.

Lemma in_preprocess f r :
  In r (frows (preprocess f)) <->
  exists r0, In r0 (frows f) /\ query_keep r0 = true /\ r = transform_row r0.
Proof.
  rewrite preprocess_rows, in_map_iff. split.
  - intros (r0 & <- & Hin). apply filter_In in Hin as [Hin Hk]. eauto.
  - intros (r0 & Hin & Hk & ->). exists r0. split; [reflexivity|].
    apply filter_In. auto.
Qed.

Lemma query_keep_true r :
  query_keep r = true <-> DATE r = Some target_date /\ GEO r <> Some national_geo.
Proof.
  unfold query_keep. rewrite andb_true_iff, negb_true_iff, obj_eqb_true.
  rewrite <- not_true_iff_false, obj_eqb_true. reflexivity.
Qed.

Lemma replace_geo_value_cases g :
  (g = Some pei_long /\ replace_geo_value g = Some pei_short) \/
  (g <> Some pei_long /\ replace_geo_value g = g).
Proof.
  destruct g as [s|]; simpl; [|right; split; [discriminate|reflexivity]].
  destruct (String.eqb_spec s pei_long) as [->|Hne]; [left|right]; split;
    try reflexivity; congruence.
Qed.

Lemma py_str_int_roundtrip z : py_int_of_string (py_str_int z) = Some z.
Proof.
  unfold py_int_of_string, py_str_int. rewrite NilZero.isi.
  - simpl. rewrite DecimalZ.of_to. reflexivity.
  - destruct z; simpl; try discriminate.
    intros [= H]. apply (Unsigned.to_uint_nonnil p), H.
  - destruct z; simpl; try discriminate.
    intros [= H]. apply (Unsigned.to_uint_nonnil p), H.
Qed.

#[export] Hint Rewrite preprocess_rows : horses_rw.

(** ** Lemmas on the cell operations *)

Lemma mul_cell_dtype t c k :
  cell_has_dtype t c = true -> cell_has_dtype t (mul_cell k c) = true.
Proof.
  destruct t, c as [s|z|[q|]]; simpl; intros H; try discriminate; try reflexivity.
  apply wrap64_range.
Qed.

Lemma astype_str_cell_dtype c : refcell_has_dtype DObject (astype_str_cell c) = true.
Proof. destruct c; reflexivity. Qed.

#[export] Hint Resolve mul_cell_dtype astype_str_cell_dtype : horses.

(** The numeric reading of a Value cell, as [std] converts it: an [int64]
    is read exactly, a string has none. *)
Definition cell_num (c : cell) : option Q :=
  match c with
  | CInt z => Some (inject_Z z)
  | CFloat q => q
  | CStr _ => None
  end.

(** The [int64] cells that the scaling by 1000 cannot wrap. *)
Definition scale_safe (c : cell) : Prop :=
  match c with
  | CInt v => - scale_limit <= v <= scale_limit
  | _ => True
  end%Z.

Lemma mul_cell_1000_num c :
  scale_safe c -> cell_num (mul_cell 1000 c) = option_map (Qmult (inject_Z 1000)) (cell_num c).
Proof.
  destruct c as [s|v|q]; simpl; intros H; [reflexivity| |reflexivity].
  rewrite mul64_1000_exact by exact H. unfold inject_Z, Qmult. simpl.
  rewrite Z.mul_comm. reflexivity.
Qed.

(** ** Properties of lines 29-32 *)

(** C2: After the query, rename, scaling and conversion of lines 29-32, no
    row of the frame has the national aggregate GEO "Canada". *)
Theorem preprocess_no_national f r :
  In r (frows (preprocess f)) -> GEO r <> Some national_geo.
Proof.
  intros (r0 & _ & Hk & ->)%in_preprocess. apply query_keep_true in Hk as [_ Hg].
  simpl. destruct (replace_geo_value_cases (GEO r0)) as [[_ ->]|[_ ->]];
    [discriminate|exact Hg].
Qed.

(** C3: After lines 29-32, every row of the frame has the target DATE label
    "At June 1 (x 1,000)". *)
Theorem preprocess_date f r :
  In r (frows (preprocess f)) -> DATE r = Some target_date.
Proof.
  intros (r0 & _ & Hk & ->)%in_preprocess. apply query_keep_true in Hk as [Hd _].
  exact Hd.
Qed.

(** C4: After lines 29-32, no row has GEO "Prince Edward Island": the
    replace of line 30 renamed every such row to "P.E.I.". *)
Theorem preprocess_no_pei_long f r :
  In r (frows (preprocess f)) -> GEO r <> Some pei_long.
Proof.
  intros (r0 & _ & _ & ->)%in_preprocess. simpl.
  destruct (replace_geo_value_cases (GEO r0)) as [[_ ->]|[Hne ->]]; [discriminate|exact Hne].
Qed.

(** C5: When no [int64] value of a kept row exceeds [scale_limit] in
    absolute value, the numeric Value of every output row is exactly 1000
    times the Value of the input row it comes from, in order; NaN stays
    NaN.  This holds for [int64] and float64 columns alike. *)
Theorem preprocess_scales_values f :
  Forall (fun r => scale_safe (Value r)) (List.filter query_keep (frows f)) ->
  map (fun r => cell_num (Value r)) (frows (preprocess f)) =
  map (fun r => option_map (Qmult (inject_Z 1000)) (cell_num (Value r)))
      (List.filter query_keep (frows f)).
Proof.
  rewrite preprocess_rows, map_map. intros H.
  apply map_ext_Forall. eapply Forall_impl; [|exact H].
  intros r Hr. apply mul_cell_1000_num, Hr.
Qed.

(** C31: Lines 29-32 preserve the dtype invariant; the Ref_Date column
    becomes an object column of strings and the Value column keeps its
    dtype. *)
Theorem preprocess_wf f :
  frame_wf f = true ->
  frame_wf (preprocess f) = true /\
  fschema (preprocess f) = mkSchema DObject (value_t (fschema f)).
Proof.
  intros Hwf. split; [|reflexivity].
  apply frame_wf_forall. rewrite preprocess_rows, Forall_map.
  apply frame_wf_forall in Hwf. apply Forall_forall.
  intros r [Hr _]%filter_In. apply Forall_forall with (x := r) in Hwf; [|exact Hr].
  unfold row_wf in *. apply andb_true_iff in Hwf as [_ Hv]. simpl.
  apply andb_true_iff. split; [apply astype_str_cell_dtype|].
  apply mul_cell_dtype, Hv.
Qed.

(** ** The scenario of the specification and the overflow *)

(** The input of the end-to-end scenario: two Ontario rows, the national
    row, and one Prince Edward Island row, all with the target DATE; both
    numeric columns read as [int64]. *)
Definition scenario_frame : frame :=
  mkFrame (mkSchema DInt64 DInt64)
    [ mkRow (Some "Ontario") (Some target_date) (RInt 2019) (CInt 10);
      mkRow (Some "Ontario") (Some target_date) (RInt 2020) (CInt 12);
      mkRow (Some "Canada") (Some target_date) (RInt 2019) (CInt 50);
      mkRow (Some "Prince Edward Island") (Some target_date) (RInt 2019) (CInt 1) ].

(** On the scenario of the specification, lines 29-32 drop the
    "Canada" row, rename "Prince Edward Island" to "P.E.I.", print the
    years as strings and scale the values to 10000, 12000 and 1000. *)
Theorem preprocess_spec_scenario :
  frows (preprocess scenario_frame) =
    [ mkRow (Some "Ontario") (Some target_date) (RStr "2019") (CInt 10000);
      mkRow (Some "Ontario") (Some target_date) (RStr "2020") (CInt 12000);
      mkRow (Some "P.E.I.") (Some target_date) (RStr "2019") (CInt 1000) ].
Proof. vm_compute. reflexivity. Qed.

(** A well-typed [int64] frame whose one value is just above
    [scale_limit]. *)
Definition overflow_frame : frame :=
  mkFrame (mkSchema DInt64 DInt64)
    [ mkRow (Some "Ontario") (Some target_date) (RInt 2019)
            (CInt (scale_limit + 1)) ].

(** C34: Line 31 multiplies an [int64] Value by 1000 with numpy's
    wrap-around: a kept row with Value [v] becomes a row of the result
    whose Value is [v * 1000] reduced into [[-2^63, 2^63)], and that is
    [v * 1000] itself exactly when [|v|] is at most [scale_limit]
    (9223372036854775); beyond it the product silently wraps. *)
Theorem preprocess_value_overflow f r v :
  In r (frows f) -> query_keep r = true -> Value r = CInt v ->
  In (transform_row r) (frows (preprocess f)) /\
  Value (transform_row r) = CInt (wrap64 (v * 1000)) /\
  (Value (transform_row r) = CInt (v * 1000) <-> - scale_limit <= v <= scale_limit)%Z.
Proof.
  intros Hin Hk Hv. split; [apply in_preprocess; eauto|].
  assert (Hval : Value (transform_row r) = CInt (wrap64 (v * 1000))) by (simpl; rewrite Hv; reflexivity).
  split; [exact Hval|]. rewrite Hval, <- in_int64_mul_1000, <- wrap64_id_iff.
  split; [intros [= E]; exact E | intros ->; reflexivity].
Qed.

(** ** Witnesses *)

Definition scenario_ontario_2019 : row :=
  mkRow (Some "Ontario") (Some target_date) (RStr "2019") (CInt 10000).
Definition scenario_pei : row :=
  mkRow (Some "P.E.I.") (Some target_date) (RStr "2019") (CInt 1000).

Lemma preprocess_no_national_witness :
  In scenario_pei (frows (preprocess scenario_frame)) /\
  GEO scenario_pei <> Some national_geo.
Proof.
  assert (H : In scenario_pei (frows (preprocess scenario_frame)))
    by (vm_compute; right; right; left; reflexivity).
  split; [exact H | apply (preprocess_no_national scenario_frame), H].
Defined.

Lemma preprocess_date_witness :
  In scenario_ontario_2019 (frows (preprocess scenario_frame)) /\
  DATE scenario_ontario_2019 = Some target_date.
Proof.
  assert (H : In scenario_ontario_2019 (frows (preprocess scenario_frame)))
    by (vm_compute; left; reflexivity).
  split; [exact H | apply (preprocess_date scenario_frame), H].
Defined.

Lemma preprocess_no_pei_long_witness :
  In scenario_pei (frows (preprocess scenario_frame)) /\
  GEO scenario_pei <> Some pei_long.
Proof.
  assert (H : In scenario_pei (frows (preprocess scenario_frame)))
    by (vm_compute; right; right; left; reflexivity).
  split; [exact H | apply (preprocess_no_pei_long scenario_frame), H].
Defined.

Lemma preprocess_scales_values_witness :
  Forall (fun r => scale_safe (Value r)) (List.filter query_keep (frows scenario_frame)) /\
  map (fun r => cell_num (Value r)) (frows (preprocess scenario_frame)) =
  map (fun r => option_map (Qmult (inject_Z 1000)) (cell_num (Value r)))
      (List.filter query_keep (frows scenario_frame)).
Proof.
  assert (H : Forall (fun r => scale_safe (Value r))
                     (List.filter query_keep (frows scenario_frame))).
  { apply Forall_forall. intros r [Hr _]%filter_In.
    destruct Hr as [<-|[<-|[<-|[<-|[]]]]]; cbn [Value scale_safe];
      change scale_limit with 9223372036854775%Z; lia. }
  split; [exact H | apply (preprocess_scales_values scenario_frame), H].
Defined.

Lemma preprocess_wf_witness :
  frame_wf scenario_frame = true /\
  frame_wf (preprocess scenario_frame) = true /\
  fschema (preprocess scenario_frame) = mkSchema DObject (value_t (fschema scenario_frame)).
Proof.
  assert (H : frame_wf scenario_frame = true) by (vm_compute; reflexivity).
  split; [exact H | apply (preprocess_wf scenario_frame), H].
Defined.

Lemma preprocess_value_overflow_witness :
  In (List.hd scenario_ontario_2019 (frows overflow_frame)) (frows overflow_frame) /\
  query_keep (List.hd scenario_ontario_2019 (frows overflow_frame)) = true /\
  Value (List.hd scenario_ontario_2019 (frows overflow_frame)) = CInt (scale_limit + 1) /\
  Value (transform_row (List.hd scenario_ontario_2019 (frows overflow_frame))) =
    CInt (-9223372036854775616) /\
  (Value (transform_row (List.hd scenario_ontario_2019 (frows overflow_frame))) =
     CInt ((scale_limit + 1) * 1000) <-> - scale_limit <= scale_limit + 1 <= scale_limit)%Z.
Proof.
  assert (Hin : In (List.hd scenario_ontario_2019 (frows overflow_frame)) (frows overflow_frame))
    by (left; reflexivity).
  assert (Hk : query_keep (List.hd scenario_ontario_2019 (frows overflow_frame)) = true) by reflexivity.
  assert (Hv : Value (List.hd scenario_ontario_2019 (frows overflow_frame)) = CInt (scale_limit + 1))
    by reflexivity.
  destruct (preprocess_value_overflow overflow_frame _ _ Hin Hk Hv) as (_ & Hval & Hiff).
  split; [exact Hin|]. split; [exact Hk|]. split; [exact Hv|]. split; [|exact Hiff].
  rewrite Hval. vm_compute. reflexivity.
Defined.
