(* ===== verification/Stats.v ===== *)
(** The [std] aggregation of line 49, [groupby('GEO')['Value'].agg(Std='std')].

    pandas computes a grouped [std] in its cython kernel [group_var]: one
    pass of Welford's online update per group over the non-NaN values,

    {v
    nobs += 1
    oldmean = mean
    mean += (val - oldmean) / nobs
    M2 += (val - mean) * (val - oldmean)
    v}

    then [M2 / (nobs - ddof)] with [ddof = 1], NaN when [nobs <= ddof],
    and the square root.  [welford_step], [welford] and [group_var] are that
    kernel on exact rationals; [sample_var] is the two-pass textbook
    definition, [sum (x - mean)^2 / (n - 1)], that the kernel is proved to
    compute.  [std_of_var] is the square root, in [R].  [group_var_f] is
    the kernel on the float64 values pandas casts the column to, where an
    infinite value makes its group's result NaN. *)

From Stdlib Require Import List Bool ZArith QArith Qfield Lqa Lia.
From Stdlib Require Import Reals Qreals.
From S2P Require Import Prelude PyFloat.
Import ListNotations.

Open Scope Q_scope.

(** A count as a rational. *)
Definition Q_of_nat (n : nat) : Q := inject_Z (Z.of_nat n).

(** The accumulators of [group_var] for one group. *)
Record wstate : Type := mkW {
  nobs : nat;
  wmean : Q;
  wm2 : Q
}.

Definition winit : wstate := mkW 0 0 0.

(** One value; NaN is skipped. *)
Definition welford_step (s : wstate) (v : option Q) : wstate :=
  match v with
  | None => s
  | Some x =>
      let n := S (nobs s) in
      let m := wmean s + (x - wmean s) / Q_of_nat n in
      mkW n m (wm2 s + (x - m) * (x - wmean s))
  end.

Definition welford (vs : list (option Q)) : wstate := fold_left welford_step vs winit.

(** [ddof = 1]: NaN ([None]) for fewer than two values. *)
Definition group_var (vs : list (option Q)) : option Q :=
  let s := welford vs in
  if (nobs s <=? 1)%nat then None else Some (wm2 s / (Q_of_nat (nobs s) - 1)).

(** [group_var] on float64 values: NaN is skipped ([val == val] fails);
    an infinite value makes [mean] infinite (or NaN) and [M2] NaN
    ([inf - inf]), so the group's result is NaN whatever else it holds;
    otherwise the kernel runs on the finite values. *)
Definition fin_value (v : pyfloat) : option Q :=
  match v with
  | PFin q => Some q
  | _ => None
  end.

Definition is_inf_value (v : pyfloat) : bool :=
  match v with
  | PInf _ => true
  | _ => false
  end.

Definition group_var_f (vs : list pyfloat) : option Q :=
  if existsb is_inf_value vs then None else group_var (map fin_value vs).

(** ** The reference definition *)

(** The non-NaN values, in order. *)
Fixpoint present (vs : list (option Q)) : list Q :=
  match vs with
  | [] => []
  | Some x :: vs' => x :: present vs'
  | None :: vs' => present vs'
  end.

Definition qsum (xs : list Q) : Q := fold_right Qplus 0 xs.

Definition qmean (xs : list Q) : Q := qsum xs / Q_of_nat (length xs).

Definition sum_sq_dev (xs : list Q) : Q :=
  qsum (map (fun x => (x - qmean xs) * (x - qmean xs)) xs).

(** The sample variance with the [n - 1] denominator. *)
Definition sample_var (xs : list Q) : option Q :=
  if (length xs <=? 1)%nat then None
  else Some (sum_sq_dev xs / (Q_of_nat (length xs) - 1)).

(** Equality of two optional rationals, NaN equal to NaN. *)
Definition opt_Qeq (a b : option Q) : Prop :=
  match a, b with
  | Some x, Some y => x == y
  | None, None => True
  | _, _ => False
  end.

(** The [Std] of a variance. *)
Definition std_of_var (v : Q) : R := sqrt (Q2R v).

(** ** Lemmas *)

Lemma Q_of_nat_S n : Q_of_nat (S n) == Q_of_nat n + 1.
Proof.
  unfold Q_of_nat. rewrite Nat2Z.inj_succ, <- Z.add_1_r, inject_Z_plus. reflexivity.
Qed.

Lemma Q_of_nat_nonneg n : 0 <= Q_of_nat n.
Proof.
  unfold Q_of_nat, Qle. simpl. lia.
Qed.

Lemma Q_of_nat_le m n : (m <= n)%nat -> Q_of_nat m <= Q_of_nat n.
Proof. intros H. unfold Q_of_nat. rewrite <- Zle_Qle. lia. Qed.

Lemma ddof_den_pos n : (1 < n)%nat -> 0 < Q_of_nat n - 1.
Proof.
  intros Hn. pose proof (Q_of_nat_le 2 n Hn) as H.
  change (Q_of_nat 2) with (2 # 1) in H. lra.
Qed.

#[export] Hint Resolve Q_of_nat_nonneg Q_of_nat_le ddof_den_pos : horses.

Definition qsq (xs : list Q) : Q := qsum (map (fun x => x * x) xs).

(** The invariant of Welford's accumulators after the values [xs]. *)
Definition welford_inv (s : wstate) (xs : list Q) : Prop :=
  nobs s = length xs /\
  wmean s * Q_of_nat (length xs) == qsum xs /\
  wm2 s == qsq xs - Q_of_nat (length xs) * (wmean s * wmean s).

Lemma qsum_app xs ys : qsum (xs ++ ys) == qsum xs + qsum ys.
Proof.
  unfold qsum. induction xs as [|x xs IH]; cbn [app fold_right]; [ring|].
  rewrite IH. ring.
Qed.

Lemma welford_step_inv s xs x :
  welford_inv s xs -> welford_inv (welford_step s (Some x)) (xs ++ [x]).
Proof.
  intros (Hn & Hm & H2). unfold welford_step, welford_inv; cbn [nobs wmean wm2].
  unfold qsq. rewrite length_app, map_app, !qsum_app. cbn [length map qsum fold_right].
  rewrite Nat.add_1_r, Hn, Q_of_nat_S.
  pose proof (Q_of_nat_nonneg (length xs)) as Hpos.
  set (n := Q_of_nat (length xs)) in *.
  assert (Hnz : ~ n + 1 == 0) by lra.
  change (qsum (map (fun x => x * x) xs)) with (qsq xs).
  rewrite <- Hm, H2. split; [reflexivity|]. split; field; exact Hnz.
Qed.

Lemma welford_fold_inv vs s xs :
  welford_inv s xs ->
  welford_inv (fold_left welford_step vs s) (xs ++ present vs).
Proof.
  revert s xs. induction vs as [|[x|] vs IH]; intros s xs Hinv; simpl.
  - rewrite app_nil_r. exact Hinv.
  - replace (xs ++ x :: present vs) with ((xs ++ [x]) ++ present vs)
      by (rewrite <- app_assoc; reflexivity).
    apply IH, welford_step_inv, Hinv.
  - apply IH, Hinv.
Qed.

(** What Welford's accumulators hold after a whole group. *)
Lemma welford_spec vs : welford_inv (welford vs) (present vs).
Proof.
  apply (welford_fold_inv vs winit []).
  unfold welford_inv, qsq, qsum; simpl. split; [reflexivity|]. split; ring.
Qed.

Lemma sum_sq_dev_center (c : Q) xs :
  qsum (map (fun x => (x - c) * (x - c)) xs) ==
  qsq xs - 2 * c * qsum xs + Q_of_nat (length xs) * (c * c).
Proof.
  unfold qsq, qsum. induction xs as [|x xs IH]; cbn [map fold_right length].
  - unfold Q_of_nat; simpl. ring.
  - rewrite IH, Q_of_nat_S. ring.
Qed.

Lemma length_pos_nz (xs : list Q) :
  (1 <= length xs)%nat -> ~ Q_of_nat (length xs) == 0.
Proof.
  intros H. unfold Q_of_nat, Qeq; simpl. lia.
Qed.

(** The two-pass sum of squared deviations in closed form. *)
Lemma sum_sq_dev_closed xs :
  (1 <= length xs)%nat ->
  sum_sq_dev xs == qsq xs - qsum xs * qsum xs / Q_of_nat (length xs).
Proof.
  intros H. unfold sum_sq_dev, qmean. rewrite sum_sq_dev_center.
  pose proof (length_pos_nz xs H). field. exact H0.
Qed.

Lemma welford_m2 vs :
  (1 <= length (present vs))%nat -> wm2 (welford vs) == sum_sq_dev (present vs).
Proof.
  intros H. destruct (welford_spec vs) as (_ & Hm & H2).
  rewrite sum_sq_dev_closed by exact H. rewrite H2, <- Hm.
  pose proof (length_pos_nz _ H). field. exact H0.
Qed.

Lemma present_scale c vs :
  present (map (option_map (Qmult c)) vs) = map (Qmult c) (present vs).
Proof. induction vs as [|[x|] vs IH]; simpl; rewrite ?IH; reflexivity. Qed.

Lemma qsum_scale c xs : qsum (map (Qmult c) xs) == c * qsum xs.
Proof.
  unfold qsum. induction xs as [|y ys IH]; cbn [map fold_right]; [ring|].
  rewrite IH. ring.
Qed.

Lemma qsq_scale c xs : qsq (map (Qmult c) xs) == c * c * qsq xs.
Proof.
  unfold qsq, qsum. rewrite map_map.
  induction xs as [|y ys IH]; cbn [map fold_right]; [ring|]. rewrite IH. ring.
Qed.

Lemma sum_sq_dev_scale c xs :
  sum_sq_dev (map (Qmult c) xs) == c * c * sum_sq_dev xs.
Proof.
  destruct xs as [|x xs]; [unfold sum_sq_dev, qsum; cbn [map fold_right]; ring|].
  rewrite !sum_sq_dev_closed by (simpl; lia). rewrite length_map, qsum_scale, qsq_scale.
  pose proof (length_pos_nz (x :: xs) ltac:(simpl; lia)) as Hnz. field. exact Hnz.
Qed.

Lemma Qsq_nonneg (d : Q) : 0 <= d * d.
Proof.
  destruct (Qlt_le_dec d 0) as [Hd|Hd].
  - setoid_replace (d * d) with ((- d) * (- d)) by ring.
    apply Qmult_le_0_compat; lra.
  - apply Qmult_le_0_compat; exact Hd.
Qed.

Lemma qsum_nonneg xs : Forall (Qle 0) xs -> 0 <= qsum xs.
Proof.
  unfold qsum. induction 1 as [|x xs Hx _ IH]; simpl; [apply Qle_refl|]. lra.
Qed.

Lemma sum_sq_dev_nonneg xs : 0 <= sum_sq_dev xs.
Proof.
  unfold sum_sq_dev. apply qsum_nonneg, Forall_forall.
  intros y (x & <- & _)%in_map_iff. apply Qsq_nonneg.
Qed.

Lemma welford_nobs vs : nobs (welford vs) = length (present vs).
Proof. apply welford_spec. Qed.

Lemma group_var_unfold vs :
  group_var vs =
  if (length (present vs) <=? 1)%nat then None
  else Some (wm2 (welford vs) / (Q_of_nat (length (present vs)) - 1)).
Proof. unfold group_var. rewrite welford_nobs. reflexivity. Qed.

Lemma sample_var_nonneg xs v : sample_var xs = Some v -> 0 <= v.
Proof.
  unfold sample_var. destruct (Nat.leb_spec (length xs) 1) as [_|Hn]; [discriminate|].
  intros [= <-]. apply Qle_shift_div_l.
  - apply ddof_den_pos, Hn.
  - pose proof (sum_sq_dev_nonneg xs). lra.
Qed.

Lemma Q2R_Qsq_std (c v : Q) :
  std_of_var (c * c * v) = (Rabs (Q2R c) * std_of_var v)%R.
Proof.
  unfold std_of_var. rewrite !Q2R_mult, sqrt_mult_alt.
  - rewrite <- sqrt_Rsqr_abs. unfold Rsqr. reflexivity.
  - apply Rle_0_sqr.
Qed.

(** Sorting by the variance is sorting by the [Std] column. *)
Lemma std_le_iff (v1 v2 : Q) :
  0 <= v1 -> 0 <= v2 -> (v1 <= v2 <-> (std_of_var v1 <= std_of_var v2)%R).
Proof.
  intros H1 H2. apply Qle_Rle in H1, H2. rewrite RMicromega.Q2R_0 in H1, H2.
  unfold std_of_var. split.
  - intros H. apply sqrt_le_1; [exact H1 | exact H2 | apply Qle_Rle, H].
  - intros H. apply Rle_Qle, sqrt_le_0; assumption.
Qed.

(** The kernel against the reference. *)
Lemma group_var_sample_var vs : opt_Qeq (group_var vs) (sample_var (present vs)).
Proof.
  rewrite group_var_unfold. unfold sample_var, opt_Qeq.
  destruct (Nat.leb_spec (length (present vs)) 1) as [_|Hn]; [exact I|].
  rewrite welford_m2 by lia. reflexivity.
Qed.

(** C6: pandas' one-pass Welford kernel ([group_var], ddof = 1) computes
    exactly the two-pass sample variance of the non-NaN values of the
    group, and NaN exactly when the reference does. *)
Theorem group_var_correct vs : opt_Qeq (group_var vs) (sample_var (present vs)).
Proof. exact (group_var_sample_var vs). Qed.

(** A variance that [group_var] returns is never negative. *)
Theorem group_var_nonneg vs v : group_var vs = Some v -> 0 <= v.
Proof.
  intros Hv. pose proof (group_var_sample_var vs) as Hc. rewrite Hv in Hc.
  unfold opt_Qeq in Hc. destruct (sample_var (present vs)) as [w|] eqn:Hw; [|contradiction].
  rewrite Hc. apply (sample_var_nonneg _ _ Hw).
Qed.

(** A group's [Std] is NaN exactly when it has fewer than two
    non-NaN values (ddof = 1); a single observation is not an error. *)
Theorem group_var_nan_iff vs :
  group_var vs = None <-> (length (present vs) <= 1)%nat.
Proof.
  rewrite group_var_unfold.
  destruct (Nat.leb_spec (length (present vs)) 1); split; intros; congruence || lia.
Qed.

(** Multiplying every value of a group by [c] (line 31 scales by
    1000) multiplies its [Std] by [|c|]: the [Std] column is in absolute
    units exactly when the values are. *)
Theorem group_std_scale c vs :
  option_map std_of_var (group_var (map (option_map (Qmult c)) vs)) =
  option_map (fun v => (Rabs (Q2R c) * std_of_var v)%R) (group_var vs).
Proof.
  pose proof (group_var_sample_var vs) as H1.
  pose proof (group_var_sample_var (map (option_map (Qmult c)) vs)) as H2.
  rewrite present_scale in H2. unfold sample_var in H1, H2. rewrite length_map in H2.
  destruct (Nat.leb_spec (length (present vs)) 1) as [_|Hn];
    destruct (group_var vs) as [v|], (group_var (map (option_map (Qmult c)) vs)) as [w|];
    simpl in *; try contradiction; [reflexivity|].
  f_equal. rewrite <- Q2R_Qsq_std. unfold std_of_var. f_equal. apply Qeq_eqR.
  rewrite H2, H1, sum_sq_dev_scale.
  assert (Hnz : ~ Q_of_nat (length (present vs)) - 1 == 0).
  { pose proof (ddof_den_pos _ Hn). lra. }
  field. exact Hnz.
Qed.

(** ** Witnesses *)

Lemma group_var_nonneg_witness :
  exists v, group_var [Some 10000; Some 12000] = Some v /\ 0 <= v.
Proof.
  eexists. split; [reflexivity|].
  apply (group_var_nonneg [Some 10000; Some 12000]). reflexivity.
Defined.
