(* ===== verification/Sorting.v ===== *)
(** [sort_values(by='Std', ascending=False)] of line 49.

    pandas sorts one column through [nargsort]: it separates the NaN
    positions, reverses the non-NaN values, sorts them ascending with
    numpy's [argsort(kind='quicksort')], reverses the result and appends
    the NaN positions ([na_position='last']).

    numpy promises only that [argsort] returns a permutation that sorts
    the values.  Which of several equal values comes first depends on the
    array and the machine: its introsort is stable only on arrays of at
    most 16 items, which it sorts by insertion, and the AVX-512 sorting
    network it uses where the CPU has one is not stable at all.  The class
    [Argsort] states exactly that promise and nothing more, and every
    definition that sorts takes an instance of it, so every theorem about
    the summary holds whichever order numpy gives equal Std values.  Two
    insertion sorts, one keeping equal items in order and one reversing
    them, are instances ([stable_argsort], [antistable_argsort]); the
    witnesses run with the first.

    The file holds the insertion sort over a total preorder given as a
    boolean comparison (Section [InsertionSort]), the classes [TotalBool],
    [SortBy] and [Argsort], and [nargsort_desc] with the proof that it
    sorts descending with NaN last. *)

From Stdlib Require Import List Bool QArith Sorted Permutation.
From S2P Require Import Prelude.
Import ListNotations.

Section InsertionSort.
Context {A : Type} (le : A -> A -> bool).
Hypothesis le_total : forall a b, le a b = true \/ le b a = true.
Hypothesis le_trans : forall a b c, le a b = true -> le b c = true -> le a c = true.

(** [tie_first]: whether [x] goes before the elements equal to it. *)
Definition goes_before (tie_first : bool) (x y : A) : bool :=
  if tie_first then le x y else negb (le y x).

Fixpoint insert_by (tie_first : bool) (x : A) (l : list A) : list A :=
  match l with
  | [] => [x]
  | y :: l' => if goes_before tie_first x y then x :: l else y :: insert_by tie_first x l'
  end.

Fixpoint isort_by (tie_first : bool) (l : list A) : list A :=
  match l with
  | [] => []
  | x :: l' => insert_by tie_first x (isort_by tie_first l')
  end.

(** Insertion before the first element not below [x]: an element is
    inserted before the equal elements that come after it in the input,
    so the sort is stable. *)
Definition isort (l : list A) : list A := isort_by true l.

Definition sorted (l : list A) : Prop := StronglySorted (fun a b => le a b = true) l.

Lemma le_refl a : le a a = true.
Proof. destruct (le_total a a); assumption. Qed.

Lemma before_le t x y : goes_before t x y = true -> le x y = true.
Proof.
  unfold goes_before. destruct t; [auto|]. intros H. apply negb_true_iff in H.
  destruct (le_total x y) as [H'|H']; congruence.
Qed.

Lemma not_before_le t x y : goes_before t x y = false -> le y x = true.
Proof.
  unfold goes_before. destruct t; [|apply negb_false_iff].
  intros H. destruct (le_total x y) as [H'|H']; congruence.
Qed.

Lemma in_insert t x l y : In y (insert_by t x l) <-> x = y \/ In y l.
Proof.
  induction l as [|z l IH]; simpl; [tauto|].
  destruct (goes_before t x z); simpl; [tauto|]. rewrite IH. tauto.
Qed.

Lemma in_isort_by t l y : In y (isort_by t l) <-> In y l.
Proof.
  induction l as [|x l IH]; simpl; [tauto|]. rewrite in_insert, IH. reflexivity.
Qed.

Lemma in_isort l y : In y (isort l) <-> In y l.
Proof. apply in_isort_by. Qed.

Lemma insert_perm t x l : Permutation (x :: l) (insert_by t x l).
Proof.
  induction l as [|y l IH]; simpl; [reflexivity|].
  destruct (goes_before t x y); [reflexivity|].
  etransitivity; [apply perm_swap | apply perm_skip, IH].
Qed.

Lemma isort_by_perm t l : Permutation l (isort_by t l).
Proof.
  induction l as [|x l IH]; simpl; [reflexivity|].
  etransitivity; [apply perm_skip, IH | apply insert_perm].
Qed.

Lemma isort_perm l : Permutation l (isort l).
Proof. apply isort_by_perm. Qed.

Lemma insert_sorted t x l : sorted l -> sorted (insert_by t x l).
Proof.
  unfold sorted. induction 1 as [|y l Hl IH Hy]; simpl.
  - repeat constructor.
  - destruct (goes_before t x y) eqn:Hxy.
    + apply before_le in Hxy. constructor; [constructor; assumption|].
      constructor; [exact Hxy|]. eapply Forall_impl; [|exact Hy]. eauto.
    + apply not_before_le in Hxy. constructor; [exact IH|]. apply Forall_forall. intros z Hz.
      apply in_insert in Hz as [<-|Hz]; [exact Hxy|]. rewrite Forall_forall in Hy. auto.
Qed.

Lemma isort_by_sorted t l : sorted (isort_by t l).
Proof. induction l; simpl; [constructor | apply insert_sorted; assumption]. Qed.

Lemma isort_sorted l : sorted (isort l).
Proof. apply isort_by_sorted. Qed.

Lemma sorted_head_le x l y : sorted (x :: l) -> In y (x :: l) -> le x y = true.
Proof.
  intros Hs [<-|Hy]; [apply le_refl|].
  inversion Hs as [|? ? _ Hall]. rewrite Forall_forall in Hall. auto.
Qed.

End InsertionSort.

(** ** Generic facts on strongly sorted lists *)

Lemma StronglySorted_app {A} (R : A -> A -> Prop) l1 l2 :
  StronglySorted R l1 -> StronglySorted R l2 ->
  (forall x y, In x l1 -> In y l2 -> R x y) -> StronglySorted R (l1 ++ l2).
Proof.
  induction 1 as [|x l1 _ IH Hx]; intros H2 Hr; simpl; [exact H2|].
  constructor.
  - apply IH; [exact H2|]. intros; apply Hr; simpl; auto.
  - apply Forall_app. split; [exact Hx|]. apply Forall_forall. intros; apply Hr; simpl; auto.
Qed.

Lemma StronglySorted_rev {A} (R : A -> A -> Prop) l :
  StronglySorted R l -> StronglySorted (fun a b => R b a) (rev l).
Proof.
  induction 1 as [|x l _ IH Hx]; simpl; [constructor|].
  apply StronglySorted_app; [exact IH | repeat constructor|].
  intros y z Hy [<-|[]]. apply in_rev in Hy. rewrite Forall_forall in Hx. auto.
Qed.

Lemma StronglySorted_impl_in {A} (R R' : A -> A -> Prop) l :
  (forall a b, In a l -> In b l -> R a b -> R' a b) ->
  StronglySorted R l -> StronglySorted R' l.
Proof.
  intros Himp Hs. induction Hs as [|x l _ IH Hx]; constructor.
  - apply IH. intros a b Ha Hb. apply Himp; simpl; auto.
  - rewrite Forall_forall in *. intros y Hy. apply Himp; simpl; auto.
Qed.

Lemma StronglySorted_all {A} (R : A -> A -> Prop) l :
  (forall a b, In a l -> In b l -> R a b) -> StronglySorted R l.
Proof.
  induction l as [|x l IH]; intros H; constructor.
  - apply IH. intros; apply H; simpl; auto.
  - apply Forall_forall. intros; apply H; simpl; auto.
Qed.

Lemma StronglySorted_map {A B} (R : B -> B -> Prop) (f : A -> B) l :
  StronglySorted R (map f l) -> StronglySorted (fun a b => R (f a) (f b)) l.
Proof.
  induction l as [|x l IH]; simpl; intros H; inversion H as [|? ? Hs Hx]; subst; constructor.
  - apply IH, Hs.
  - rewrite Forall_map in Hx. exact Hx.
Qed.

(** ** Orders on an optional float, NaN last *)

Definition oq_asc (x y : option Q) : bool :=
  match x, y with
  | Some x, Some y => Qle_bool x y
  | Some _, None => true
  | None, Some _ => false
  | None, None => true
  end.

Definition oq_desc (x y : option Q) : bool :=
  match x, y with
  | Some x, Some y => Qle_bool y x
  | Some _, None => true
  | None, Some _ => false
  | None, None => true
  end.

Lemma Qle_bool_total x y : Qle_bool x y = true \/ Qle_bool y x = true.
Proof.
  rewrite !Qle_bool_iff. destruct (Qlt_le_dec x y); [left; apply Qlt_le_weak|right]; assumption.
Qed.

Lemma Qle_bool_trans x y z : Qle_bool x y = true -> Qle_bool y z = true -> Qle_bool x z = true.
Proof. rewrite !Qle_bool_iff. apply Qle_trans. Qed.

Lemma oq_asc_total x y : oq_asc x y = true \/ oq_asc y x = true.
Proof. destruct x, y; simpl; auto using Qle_bool_total. Qed.

Lemma oq_desc_total x y : oq_desc x y = true \/ oq_desc y x = true.
Proof. destruct x, y; simpl; auto using Qle_bool_total. Qed.

Lemma oq_asc_trans x y z : oq_asc x y = true -> oq_asc y z = true -> oq_asc x z = true.
Proof. destruct x, y, z; simpl; try discriminate; eauto using Qle_bool_trans. Qed.

Lemma oq_desc_trans x y z : oq_desc x y = true -> oq_desc y z = true -> oq_desc x z = true.
Proof. destruct x, y, z; simpl; try discriminate; eauto using Qle_bool_trans. Qed.

#[export] Hint Resolve oq_asc_total oq_desc_total oq_asc_trans oq_desc_trans : horses.

(** ** The contract of a sort routine

    What a caller of a sort relies on is stated as classes: the
    comparison is a total preorder ([TotalBool]), and the routine returns a
    sorted rearrangement of its input ([SortBy]).  [Argsort] is numpy's
    [argsort]: for every total preorder, a sorted permutation. *)

Class TotalBool {A : Type} (le : A -> A -> bool) : Prop := {
  tb_total : forall a b, le a b = true \/ le b a = true;
  tb_trans : forall a b c, le a b = true -> le b c = true -> le a c = true
}.

Class SortBy {A : Type} (le : A -> A -> bool) (f : list A -> list A) : Prop := {
  sort_perm : forall l, Permutation l (f l);
  sort_sorted : forall l, sorted le (f l)
}.

Class Argsort : Type := {
  argsort : forall {A : Type}, (A -> A -> bool) -> list A -> list A;
  argsort_sortby : forall {A : Type} (le : A -> A -> bool), TotalBool le -> SortBy le (argsort le)
}.

#[export] Instance isort_by_sortby {A : Type} (le : A -> A -> bool) `{!TotalBool le} t :
  SortBy le (isort_by le t).
Proof. split; [apply isort_by_perm | apply isort_by_sorted; [apply tb_total | apply tb_trans]]. Qed.

#[export] Instance isort_sortby {A : Type} (le : A -> A -> bool) `{!TotalBool le} : SortBy le (isort le).
Proof. apply isort_by_sortby; assumption. Qed.

(** numpy's behaviour on arrays of at most 16 items: equal items in
    order. *)
Definition stable_argsort : Argsort :=
  {| argsort := fun A le => isort_by le true;
     argsort_sortby := fun A le H => isort_by_sortby le true |}.

(** Another admissible [argsort]: equal items in reverse order. *)
Definition antistable_argsort : Argsort :=
  {| argsort := fun A le => isort_by le false;
     argsort_sortby := fun A le H => isort_by_sortby le false |}.

Section SortClient.
Context {A : Type} (le : A -> A -> bool) `{!TotalBool le}.
Context (f : list A -> list A) `{!SortBy le f}.

Lemma sort_in l x : In x (f l) <-> In x l.
Proof. split; apply Permutation_in; [symmetry|]; apply sort_perm. Qed.

(** The first item of the result is below every item of the input. *)
Lemma sort_head_le l x rest y : f l = x :: rest -> In y l -> le x y = true.
Proof.
  intros Hf Hy. apply (sorted_head_le le tb_total x rest y).
  - rewrite <- Hf. apply sort_sorted.
  - rewrite <- Hf. apply sort_in, Hy.
Qed.

Lemma sort_nil : f [] = [].
Proof. apply Permutation_nil, sort_perm. Qed.

End SortClient.

(** ** pandas' [nargsort] with [ascending=False] *)

Section NArgSort.
Context `{Argsort} {A : Type} (key : A -> option Q).

Definition asc_le (a b : A) : bool := oq_asc (key a) (key b).
Definition desc_le (a b : A) : bool := oq_desc (key a) (key b).

Definition is_nan (a : A) : bool :=
  match key a with
  | None => true
  | Some _ => false
  end.

(** numpy's [argsort] of the non-NaN values, applied to the items. *)
Definition argsort_asc (items : list A) : list A := argsort asc_le items.

(** [nargsort(items, ascending=False, na_position='last')]. *)
Definition nargsort_desc (items : list A) : list A :=
  let non_nans := List.filter (fun a => negb (is_nan a)) items in
  let nans := List.filter is_nan items in
  rev (argsort_asc (rev non_nans)) ++ nans.

#[local] Instance asc_le_total_bool : TotalBool asc_le.
Proof. split; [intros; apply oq_asc_total | intros a b c; apply oq_asc_trans]. Qed.

Lemma desc_le_total a b : desc_le a b = true \/ desc_le b a = true.
Proof. apply oq_desc_total. Qed.
Lemma desc_le_trans a b c : desc_le a b = true -> desc_le b c = true -> desc_le a c = true.
Proof. apply oq_desc_trans. Qed.

Lemma argsort_asc_perm l : Permutation l (argsort_asc l).
Proof. apply (@sort_perm _ asc_le), argsort_sortby, _. Qed.

Lemma in_sorted_part items a :
  In a (rev (argsort_asc (rev (List.filter (fun a => negb (is_nan a)) items)))) ->
  In a items /\ is_nan a = false.
Proof.
  intros Ha. apply in_rev, (Permutation_in _ (Permutation_sym (argsort_asc_perm _))), in_rev in Ha.
  apply filter_In in Ha as [Ha Hn]. apply negb_true_iff in Hn. auto.
Qed.

Lemma nargsort_desc_sorted items : sorted desc_le (nargsort_desc items).
Proof.
  unfold nargsort_desc, sorted. apply StronglySorted_app.
  - apply StronglySorted_impl_in with (R := fun a b => asc_le b a = true).
    + intros a b [_ Ha]%in_sorted_part [_ Hb]%in_sorted_part.
      unfold asc_le, desc_le, is_nan in *. destruct (key a), (key b); cbn in *; congruence.
    + apply StronglySorted_rev. apply (@sort_sorted _ asc_le), argsort_sortby, _.
  - apply StronglySorted_all. intros a b Ha Hb.
    apply filter_In in Ha as [_ Ha]. apply filter_In in Hb as [_ Hb].
    unfold desc_le, is_nan in *. destruct (key a), (key b); cbn in *; congruence.
  - intros a b [_ Ha]%in_sorted_part Hb. apply filter_In in Hb as [_ Hb].
    unfold desc_le, is_nan in *. destruct (key a), (key b); cbn in *; congruence.
Qed.

Lemma perm_filter_split (p : A -> bool) l :
  Permutation l (List.filter (fun a => negb (p a)) l ++ List.filter p l).
Proof.
  induction l as [|x l IH]; simpl; [reflexivity|].
  destruct (p x); simpl; [apply Permutation_cons_app, IH | apply perm_skip, IH].
Qed.

Lemma nargsort_desc_perm items : Permutation items (nargsort_desc items).
Proof.
  unfold nargsort_desc. etransitivity; [apply (perm_filter_split is_nan)|].
  apply Permutation_app_tail. etransitivity; [apply Permutation_rev|].
  etransitivity; [apply argsort_asc_perm|]. apply Permutation_rev.
Qed.

(** C7: pandas' [nargsort] for [ascending=False], whatever order numpy's
    [argsort] gives equal values: its result is a permutation of its
    input, non-increasing in the key with every NaN after every number,
    and it ends with the NaN items in their original order. *)
Theorem nargsort_desc_correct items :
  Permutation items (nargsort_desc items) /\
  sorted desc_le (nargsort_desc items) /\
  exists front, nargsort_desc items = front ++ List.filter is_nan items /\
                Forall (fun a => is_nan a = false) front.
Proof.
  split; [apply nargsort_desc_perm|]. split; [apply nargsort_desc_sorted|].
  eexists. split; [reflexivity|]. apply Forall_forall. intros a Ha. apply (in_sorted_part items a Ha).
Qed.

End NArgSort.

#[export] Instance desc_le_total_bool {A : Type} (key : A -> option Q) : TotalBool (desc_le key).
Proof. split; [apply desc_le_total | apply desc_le_trans]. Qed.

#[export] Instance nargsort_sortby `{Argsort} {A : Type} (key : A -> option Q) :
  SortBy (desc_le key) (nargsort_desc key).
Proof. split; [apply nargsort_desc_perm | apply nargsort_desc_sorted]. Qed.
