(* ===== verification/Summary.v ===== *)
(** The Standard-Deviation Summary: lines 49 and 54-55 of
    [generate_figures.py],

    {v
    horses_sd = horse_pop.groupby('GEO')['Value'].agg(Std='std').reset_index()
                  .rename(columns={'GEO': 'Province'}).sort_values(by='Std', ascending=False)
    largest_sd_prov = horses_sd.iloc[0]['Province']
    horse_pop_largest_sd = horse_pop[horse_pop['GEO'] == largest_sd_prov]
    v}

    [groupby] (with its defaults [sort=True], [dropna=True]) makes one group
    per distinct non-NaN GEO, in increasing string order ([group_keys]).
    pandas 2 computes [std] in [_cython_agg_general]: it first casts the
    whole Value column to float64 ([ensure_float64], numpy's cast, which
    calls Python's [float()] on each string: [cell_float]), then runs the
    [group_var] kernel per group on the cast values.  A string that
    [float()] rejects raises [ValueError] ([None]) in whichever row it
    is, one whose GEO is NaN included; a string it accepts is a number,
    possibly infinite, and an infinite value makes its group's Std NaN.
    [reset_index] and [rename] give the rows [srow] with fields Province
    and Std; [sort_values] is [Sorting.nargsort_desc] on Std, with
    numpy's [argsort] an instance of [Sorting.Argsort]: the Section
    [Summary] takes it as a [Context], so the theorems hold for every
    order numpy may give equal Std values.  [iloc[0]] raises [IndexError]
    on an empty table ([largest_sd_prov] returns [None]).  A [srow] keeps
    the variance; the [Std] column is its square root
    ([Stats.std_of_var]), and [Stats.std_le_iff] shows the two order the
    rows alike.

    Python compares strings by code point; Rocq's [String.leb] compares
    bytes, and on UTF-8 the byte order is the code-point order. *)

From Stdlib Require Import List Bool Ascii QArith Sorted Permutation String RelationClasses Lia.
From stdpp Require strings.
From S2P Require Import Prelude Frame PyFloat Preprocess Stats Sorting.
Import ListNotations.

(** A row of [horses_sd]. *)
Record srow : Type := mkSRow {
  Province : string;
  Std : option Q
}.

(** The non-NaN GEO values, in row order. *)
Fixpoint geo_values (rows : list row) : list string :=
  match rows with
  | [] => []
  | r :: rs =>
      match GEO r with
      | Some g => g :: geo_values rs
      | None => geo_values rs
      end
  end.

(** The group keys of [groupby('GEO')]: distinct, sorted, NaN dropped. *)
Definition group_keys (rows : list row) : list string :=
  isort String.leb (nodup string_dec (geo_values rows)).

(** The Value cells of one group, in row order. *)
Definition group_cells (k : string) (rows : list row) : list cell :=
  map Value (List.filter (fun r => obj_eqb (GEO r) k) rows).

(** numpy's cast of one Value cell to float64: NaN stays NaN, a number
    is read as itself, a string goes through Python's [float()]. *)
Definition cell_float (c : cell) : option pyfloat :=
  match c with
  | CInt z => Some (PFin (inject_Z z))
  | CFloat (Some q) => Some (PFin q)
  | CFloat None => Some PNaN
  | CStr s => py_float s
  end.

(** [ensure_float64] on a column: [None] is the [ValueError] of a string
    that [float()] rejects. *)
Fixpoint ensure_float64 (cs : list cell) : option (list pyfloat) :=
  match cs with
  | [] => Some []
  | c :: cs' =>
      match cell_float c, ensure_float64 cs' with
      | Some v, Some vs => Some (v :: vs)
      | _, _ => None
      end
  end.

(** The cast values of one group: the kernel reads the cast column at
    the rows whose label (GEO) is the key. *)
Definition group_floats (k : string) (labels : list (option string)) (vs : list pyfloat) : list pyfloat :=
  map snd (List.filter (fun p => obj_eqb (fst p) k) (combine labels vs)).

(** [agg(Std='std')], [reset_index()] and [rename]: the column is cast
    once, then one row per key with [group_var] on its group. *)
Definition groupby_std (f : frame) : option (list srow) :=
  match ensure_float64 (map Value (frows f)) with
  | None => None
  | Some vs =>
      Some (map (fun k => mkSRow k (group_var_f (group_floats k (map GEO (frows f)) vs)))
                (group_keys (frows f)))
  end.

(** Line 54: [iloc[0]['Province']]; [None] is the [IndexError]. *)
Definition largest_sd_prov (sd : list srow) : option string :=
  match sd with
  | [] => None
  | r :: _ => Some (Province r)
  end.

(** Line 55: the rows of one province. *)
Definition horse_pop_largest_sd (f : frame) (prov : string) : frame :=
  mkFrame (fschema f) (List.filter (fun r => obj_eqb (GEO r) prov) (frows f)).

Section Summary.
Context `{Argsort}.

(** [sort_values(by='Std', ascending=False)]. *)
Definition sort_values_std (sd : list srow) : list srow := nargsort_desc Std sd.

(** Line 49: [None] is the [ValueError] of the cast. *)
Definition horses_sd (f : frame) : option (list srow) :=
  option_map sort_values_std (groupby_std f).

(** ** The string order *)

Lemma str_leb_trans a b c :
  String.leb a b = true -> String.leb b c = true -> String.leb a c = true.
Proof.
  intros H1 H2.
  pose proof (@PreOrder_Transitive _ _
    (@stdpp.base.partial_order_pre _ _ stdpp.strings.String.le_po) a b c) as Htr.
  unfold stdpp.strings.String.le in Htr. rewrite H1, H2 in Htr.
  destruct (String.leb a c); [reflexivity|]. destruct Htr; exact I.
Qed.

#[export] Instance string_leb_total : TotalBool String.leb.
Proof. split; [apply String.leb_total | apply str_leb_trans]. Qed.

(** ** Group keys *)

Lemma in_geo_values rows k : In k (geo_values rows) <-> In (Some k) (map GEO rows).
Proof.
  induction rows as [|r rs IH]; simpl; [tauto|].
  destruct (GEO r) as [g|]; simpl; rewrite IH; [|split; [tauto|intros [H'|H']; [discriminate|exact H']]].
  split; intros [H'|H']; auto; left; congruence.
Qed.

Lemma group_keys_in rows k : In k (group_keys rows) <-> In (Some k) (map GEO rows).
Proof.
  unfold group_keys. rewrite in_isort, nodup_In. apply in_geo_values.
Qed.

Lemma group_keys_nodup rows : List.NoDup (group_keys rows).
Proof.
  unfold group_keys. eapply Permutation_NoDup; [apply isort_perm | apply NoDup_nodup].
Qed.

(** ** The cast of the Value column *)

Lemma ensure_float64_none cs :
  ensure_float64 cs = None <-> exists s, In (CStr s) cs /\ py_float s = None.
Proof.
  induction cs as [|c cs IH]; simpl.
  - split; [discriminate | intros (s & [] & _)].
  - destruct (cell_float c) as [v|] eqn:Ec.
    + destruct (ensure_float64 cs) as [vs|]; split.
      * discriminate.
      * intros (s & [Hc|Hs] & Hf); [subst c; simpl in Ec; congruence|].
        destruct IH as [_ IH]. discriminate (IH (ex_intro _ s (conj Hs Hf))).
      * intros _. destruct IH as [IH _]. destruct (IH eq_refl) as (s & Hs & Hf). eauto.
      * reflexivity.
    + split; [intros _|reflexivity].
      destruct c as [s|z|[q|]]; try discriminate. exists s. auto.
Qed.

Lemma list_ascii_of_string_app a b :
  list_ascii_of_string (String.append a b) = List.app (list_ascii_of_string a) (list_ascii_of_string b).
Proof. induction a as [|c a IH]; simpl; [reflexivity | rewrite IH; reflexivity]. Qed.

(** Line 31 turns a string [s] of the Value column into [s * 1000]; when
    [s] has no digit, [float()] rejects that (it has no non-space
    character, or at least a thousand of them). *)
Lemma py_float_repeat_no_digit n s :
  no_digit (list_ascii_of_string s) = true -> (10 <= n)%nat -> py_float (str_repeat n s) = None.
Proof.
  intros Hd Hn.
  assert (Hr : forall m, no_digit (list_ascii_of_string (str_repeat m s)) = true /\
    nonspace_count (list_ascii_of_string (str_repeat m s)) = (m * nonspace_count (list_ascii_of_string s))%nat).
  { induction m as [|m [IH1 IH2]]; [split; reflexivity|]. simpl.
    rewrite list_ascii_of_string_app, nonspace_count_app, IH2. unfold no_digit in *.
    rewrite forallb_app, Hd, IH1. split; reflexivity. }
  destruct (Hr n) as [H1 H2]. apply py_float_no_digit; [exact H1|]. rewrite H2.
  destruct (nonspace_count (list_ascii_of_string s)); [left; lia | right; nia].
Qed.

(** Line 31 turns a numeral [s] with a non-zero digit into [s * 1000],
    a numeral of at least a thousand digits, which [float()] reads as
    [inf]. *)
Lemma py_float_repeat_numeral n s :
  forallb is_digit (list_ascii_of_string s) = true ->
  existsb (fun c => negb (Ascii.eqb c "0"%char)) (list_ascii_of_string s) = true ->
  (311 <= n)%nat -> py_float (str_repeat n s) = Some (PInf false).
Proof.
  intros Hd Hnz Hn. destruct n as [|m]; [lia|].
  assert (Hr : forall k, forallb is_digit (list_ascii_of_string (str_repeat k s)) = true /\
    List.length (list_ascii_of_string (str_repeat k s)) = (k * List.length (list_ascii_of_string s))%nat).
  { induction k as [|k [IH1 IH2]]; [split; reflexivity|]. simpl.
    rewrite list_ascii_of_string_app, forallb_app, length_app, Hd, IH1, IH2. split; reflexivity. }
  assert (Hs : (1 <= List.length (list_ascii_of_string s))%nat)
    by (destruct (list_ascii_of_string s); [discriminate | simpl; lia]).
  destruct (Hr (S m)) as [HdS _]. destruct (Hr m) as [_ Hlen].
  apply (py_float_long_numeral _ (list_ascii_of_string s) (list_ascii_of_string (str_repeat m s)) HdS);
    [apply list_ascii_of_string_app | exact Hnz | rewrite Hlen; nia].
Qed.

Lemma ensure_float64_in cs vs c v :
  ensure_float64 cs = Some vs -> In c cs -> cell_float c = Some v -> In v vs.
Proof.
  revert vs. induction cs as [|c' cs IH]; intros vs Hvs Hin Hc; [destruct Hin|]. simpl in Hvs.
  destruct (cell_float c') as [v'|] eqn:Ec; [|discriminate].
  destruct (ensure_float64 cs) as [vs'|]; [|discriminate]. injection Hvs as <-.
  destruct Hin as [<-|Hin]; [left; congruence | right; apply (IH vs' eq_refl Hin Hc)].
Qed.

(** Line 30 keeps a GEO present. *)
Lemma transform_row_geo r : GEO r <> None -> GEO (transform_row r) <> None.
Proof.
  simpl. destruct (GEO r) as [g|]; [|congruence]. intros _.
  unfold replace_geo_value. destruct (String.eqb g pei_long); discriminate.
Qed.

(** The cast of the whole column, read at one group's rows, is the cast
    of that group's cells. *)
Lemma ensure_float64_group rows vs k :
  ensure_float64 (map Value rows) = Some vs ->
  ensure_float64 (group_cells k rows) = Some (group_floats k (map GEO rows) vs).
Proof.
  unfold group_cells, group_floats. revert vs.
  induction rows as [|r rows IH]; intros vs Hv; simpl in Hv.
  - injection Hv as <-. reflexivity.
  - destruct (cell_float (Value r)) as [v|] eqn:Ec; [|discriminate].
    destruct (ensure_float64 (map Value rows)) as [vs'|]; [|discriminate].
    injection Hv as <-. simpl. specialize (IH vs' eq_refl).
    destruct (obj_eqb (GEO r) k); simpl; [rewrite Ec, IH|]; exact IH || reflexivity.
Qed.

Lemma groupby_std_some f g :
  groupby_std f = Some g ->
  exists vs, ensure_float64 (map Value (frows f)) = Some vs /\
    g = map (fun k => mkSRow k (group_var_f (group_floats k (map GEO (frows f)) vs))) (group_keys (frows f)).
Proof.
  unfold groupby_std. destruct (ensure_float64 _) as [vs|]; [|discriminate]. intros [= <-]. eauto.
Qed.

Lemma groupby_std_keys f g : groupby_std f = Some g -> map Province g = group_keys (frows f).
Proof.
  intros (vs & _ & ->)%groupby_std_some. rewrite map_map. apply map_id.
Qed.

Lemma groupby_std_none f :
  groupby_std f = None <-> exists r s, In r (frows f) /\ Value r = CStr s /\ py_float s = None.
Proof.
  unfold groupby_std. destruct (ensure_float64 (map Value (frows f))) eqn:E.
  - split; [discriminate|]. intros (r & s & Hr & Hv & Hs).
    assert (Hn : ensure_float64 (map Value (frows f)) = None).
    { apply ensure_float64_none. exists s. split; [rewrite <- Hv; apply in_map, Hr | exact Hs]. }
    congruence.
  - split; [intros _|reflexivity]. apply ensure_float64_none in E as (s & Hin & Hs).
    apply in_map_iff in Hin as (r & Hv & Hr). eauto.
Qed.

(** ** The summary *)

Lemma horses_sd_sort f sd :
  horses_sd f = Some sd ->
  exists g, groupby_std f = Some g /\ sd = sort_values_std g.
Proof.
  unfold horses_sd. destruct (groupby_std f) as [g|]; simpl; [|discriminate].
  intros [= <-]. eauto.
Qed.

Lemma horses_sd_perm f sd :
  horses_sd f = Some sd -> Permutation (group_keys (frows f)) (map Province sd).
Proof.
  intros (g & Hg & ->)%horses_sd_sort.
  rewrite <- (groupby_std_keys _ _ Hg). apply Permutation_map, (sort_perm (le := desc_le Std)).
Qed.

Lemma horses_sd_sorted f sd : horses_sd f = Some sd -> sorted (desc_le Std) sd.
Proof. intros (g & _ & ->)%horses_sd_sort. apply (sort_sorted (le := desc_le Std)). Qed.

(** A string that [float()] rejects, in any row, makes line 49 raise. *)
Lemma horses_sd_none_of_str f r s :
  In r (frows f) -> Value r = CStr s -> py_float s = None -> horses_sd f = None.
Proof.
  intros Hr Hv Hs. unfold horses_sd.
  replace (groupby_std f) with (@None (list srow)); [reflexivity|].
  symmetry. apply groupby_std_none. eauto.
Qed.

Lemma horses_sd_keys f sd :
  horses_sd f = Some sd ->
  List.NoDup (map Province sd) /\
  (forall p, In p (map Province sd) <-> In (Some p) (map GEO (frows f))).
Proof.
  intros H'. pose proof (horses_sd_perm f sd H') as Hp. split.
  - eapply Permutation_NoDup; [exact Hp | apply group_keys_nodup].
  - intros p. rewrite <- group_keys_in. split; apply Permutation_in; [symmetry|]; exact Hp.
Qed.

Lemma horses_sd_std_group f sd x :
  horses_sd f = Some sd -> In x sd ->
  exists vs, ensure_float64 (group_cells (Province x) (frows f)) = Some vs /\ Std x = group_var_f vs.
Proof.
  intros (g & Hg & ->)%horses_sd_sort Hx.
  unfold sort_values_std in Hx. rewrite (sort_in (desc_le Std) (nargsort_desc Std)) in Hx.
  destruct (groupby_std_some _ _ Hg) as (vs & Hvs & ->).
  apply in_map_iff in Hx as (k & <- & _). simpl.
  eexists. split; [apply ensure_float64_group, Hvs | reflexivity].
Qed.

(** ** The contract of the Summary Statistics Builder

    Section 4.4 of the specification, stated without the algorithm: one
    row per province of the filtered table; its [Std] the sample variance
    (two-pass, [N - 1]) of the province's values as float64 casts them,
    NaN when one of them is infinite; rows in non-increasing [Std] with
    NaN last.  The order of rows of equal [Std] is left open, as numpy
    leaves it. *)
Record summary_spec (hp : frame) (sd : list srow) : Prop := {
  spec_nodup : List.NoDup (map Province sd);
  spec_provinces : forall p, In p (map Province sd) <-> In (Some p) (map GEO (frows hp));
  spec_std : forall x, In x sd ->
    exists vs, ensure_float64 (group_cells (Province x) (frows hp)) = Some vs /\
      opt_Qeq (Std x) (if existsb is_inf_value vs then None else sample_var (present (map fin_value vs)));
  spec_sorted : StronglySorted (fun a b => oq_desc (Std a) (Std b) = true) sd
}.

(** ** Properties of the summary *)

(** C8: The summary has exactly one row per distinct non-NaN province of
    the filtered frame: its Province values have no duplicate, and a name
    is among them exactly when some row of the frame has that GEO. *)
Theorem horses_sd_provinces f sd :
  horses_sd f = Some sd ->
  List.NoDup (map Province sd) /\
  (forall p, In p (map Province sd) <-> In (Some p) (map GEO (frows f))).
Proof.
  apply horses_sd_keys.
Qed.

(** C12: The summary is sorted by Std, non-increasing, with every NaN
    after every number. *)
Theorem horses_sd_std_sorted f sd :
  horses_sd f = Some sd ->
  StronglySorted (fun a b => oq_desc (Std a) (Std b) = true) sd.
Proof. apply horses_sd_sorted. Qed.

(** C13: The province that line 54 selects is the Province of a summary
    row whose Std is at least that of every row (NaN counts as smallest). *)
Theorem largest_sd_prov_max f sd p :
  horses_sd f = Some sd -> largest_sd_prov sd = Some p ->
  exists r, In r sd /\ Province r = p /\
            forall r', In r' sd -> oq_desc (Std r) (Std r') = true.
Proof.
  intros Hsd Hp. destruct sd as [|r rest]; [discriminate|]. injection Hp as <-.
  exists r. split; [left; reflexivity|]. split; [reflexivity|].
  intros r' Hr'. apply (sorted_head_le (desc_le Std) (desc_le_total Std) r rest r');
    [apply (horses_sd_sorted f), Hsd | exact Hr'].
Qed.

(** Line 54 raises [IndexError] (no first row) exactly when the
    filtered frame has no row with a non-NaN GEO, for instance when it is
    empty. *)
Theorem largest_sd_prov_none f sd :
  horses_sd f = Some sd ->
  (largest_sd_prov sd = None <-> forall r, In r (frows f) -> GEO r = None).
Proof.
  intros H'. pose proof (horses_sd_perm f sd H') as Hp. split.
  - destruct sd as [|r0 rest]; [|discriminate]. intros _ r Hr.
    destruct (GEO r) as [k|] eqn:Hk; [|reflexivity]. exfalso.
    simpl in Hp. apply Permutation_sym, Permutation_nil in Hp.
    assert (Hk' : In k (group_keys (frows f))).
    { apply group_keys_in, in_map_iff. exists r. split; assumption. }
    rewrite Hp in Hk'. contradiction.
  - destruct sd as [|r0 rest]; [reflexivity|]. intros Hnone. exfalso.
    assert (Hin : In (Province r0) (group_keys (frows f))).
    { apply (Permutation_in _ (Permutation_sym Hp)). left. reflexivity. }
    apply group_keys_in, in_map_iff in Hin as (r & Hr & Hrin).
    rewrite Hnone in Hr by exact Hrin. discriminate.
Qed.

(** C30: Line 49 raises [ValueError] exactly when some row of the
    filtered frame, whatever its GEO, has a string Value that Python's
    [float()] rejects: [std] casts the whole column before it groups, and
    a string that [float()] accepts (the repetition of a numeral by line
    31, for one) raises nothing. *)
Theorem horses_sd_value_error f :
  horses_sd f = None <->
  exists r s, In r (frows f) /\ Value r = CStr s /\ py_float s = None.
Proof.
  rewrite <- groupby_std_none. unfold horses_sd.
  destruct (groupby_std f); simpl; split; congruence.
Qed.

(** C11: A numeral is no error in an object Value column: when a kept
    row with a GEO has as Value a string of digits, not all zeros, line
    31 repeats it a thousand times, the float64 cast of line 49 reads the
    result as [inf], and the Std of that row's province in the summary is
    NaN. *)
Theorem horses_sd_numeral_nan raw r s sd :
  In r (frows raw) -> query_keep r = true -> GEO r <> None -> Value r = CStr s ->
  forallb is_digit (list_ascii_of_string s) = true ->
  existsb (fun c => negb (Ascii.eqb c "0"%char)) (list_ascii_of_string s) = true ->
  horses_sd (preprocess raw) = Some sd ->
  exists x, In x sd /\ GEO (transform_row r) = Some (Province x) /\ Std x = None.
Proof.
  intros Hr Hk Hg Hv Hd Hnz Hsd.
  assert (Hr' : In (transform_row r) (frows (preprocess raw))) by (apply in_preprocess; eauto).
  destruct (GEO (transform_row r)) as [p|] eqn:Hp; [|exfalso; exact (transform_row_geo r Hg Hp)].
  destruct (horses_sd_keys _ _ Hsd) as [_ Hkeys].
  assert (Hin : In p (map Province sd)) by (apply Hkeys, in_map_iff; eauto).
  apply in_map_iff in Hin as (x & Hx & Hxin). subst p.
  exists x. split; [exact Hxin|]. split; [reflexivity|].
  destruct (horses_sd_std_group _ _ _ Hsd Hxin) as (vs & Hvs & ->).
  assert (Hinf : In (PInf false) vs).
  { apply (ensure_float64_in _ _ (Value (transform_row r)) _ Hvs).
    - apply in_map, filter_In. split; [exact Hr' | rewrite Hp; apply obj_eqb_true; reflexivity].
    - simpl. rewrite Hv. apply py_float_repeat_numeral; [exact Hd | exact Hnz | lia]. }
  unfold group_var_f. replace (existsb is_inf_value vs) with true; [reflexivity|].
  symmetry. apply existsb_exists. exists (PInf false). split; [exact Hinf | reflexivity].
Qed.

(** C9: Each summary row carries the aggregate of its own group: the
    cast of the Value cells of the rows whose GEO is its Province
    succeeds, and its Std is what pandas' [group_var] kernel returns on
    those float64 values (the sort moves whole rows). *)
Theorem horses_sd_std_values f sd x :
  horses_sd f = Some sd -> In x sd ->
  exists vs, ensure_float64 (group_cells (Province x) (frows f)) = Some vs /\ Std x = group_var_f vs.
Proof. apply horses_sd_std_group. Qed.

(** C10: Line 49 refines the contract of section 4.4: whenever it
    returns a summary, that summary has one row per province, each with
    the textbook sample variance of its cast values (NaN when one is
    infinite), sorted by [Std] with NaN last, whatever order numpy gives
    equal values. *)
Theorem horses_sd_refines f sd : horses_sd f = Some sd -> summary_spec f sd.
Proof.
  intros H'. destruct (horses_sd_keys f sd H') as [Hn Hp].
  split; [exact Hn | exact Hp | | apply (horses_sd_sorted f sd H')].
  intros x Hx. destruct (horses_sd_std_group f sd x H' Hx) as (vs & Hvs & ->).
  exists vs. split; [exact Hvs|]. unfold group_var_f.
  destruct (existsb is_inf_value vs); [exact I | apply group_var_sample_var].
Qed.

End Summary.

(** ** Witnesses *)

(** The witnesses run with numpy's order on small arrays. *)
#[local] Existing Instance stable_argsort.

(** Two provinces with the same variance; Quebec's rows come first. *)
Definition tie_frame : frame :=
  mkFrame (mkSchema DObject DInt64)
    [ mkRow (Some "Quebec") (Some target_date) (RStr "2019") (CInt 1);
      mkRow (Some "Quebec") (Some target_date) (RStr "2020") (CInt 3);
      mkRow (Some "Alberta") (Some target_date) (RStr "2019") (CInt 5);
      mkRow (Some "Alberta") (Some target_date) (RStr "2020") (CInt 7) ].

Definition scenario_sd : list srow :=
  [ mkSRow "Ontario" (Some (4000000 # 2)); mkSRow "P.E.I." None ].

Definition tie_first : srow := mkSRow "Alberta" (Some (4 # 2)).
Definition tie_second : srow := mkSRow "Quebec" (Some (4 # 2)).

Lemma scenario_horses_sd : horses_sd (preprocess scenario_frame) = Some scenario_sd.
Proof. vm_compute. reflexivity. Qed.

Lemma horses_sd_provinces_witness :
  horses_sd (preprocess scenario_frame) = Some scenario_sd /\
  List.NoDup (map Province scenario_sd) /\
  (forall p, In p (map Province scenario_sd) <->
             In (Some p) (map GEO (frows (preprocess scenario_frame)))).
Proof.
  split; [exact scenario_horses_sd|].
  apply (horses_sd_provinces (preprocess scenario_frame)). exact scenario_horses_sd.
Defined.

Lemma horses_sd_std_sorted_witness :
  horses_sd (preprocess scenario_frame) = Some scenario_sd /\
  StronglySorted (fun a b => oq_desc (Std a) (Std b) = true) scenario_sd.
Proof.
  split; [exact scenario_horses_sd|].
  apply (horses_sd_std_sorted (preprocess scenario_frame)). exact scenario_horses_sd.
Defined.

Lemma largest_sd_prov_max_witness :
  horses_sd (preprocess scenario_frame) = Some scenario_sd /\
  largest_sd_prov scenario_sd = Some "Ontario" /\
  exists r, In r scenario_sd /\ Province r = "Ontario" /\
            forall r', In r' scenario_sd -> oq_desc (Std r) (Std r') = true.
Proof.
  split; [exact scenario_horses_sd|]. split; [reflexivity|].
  apply (largest_sd_prov_max (preprocess scenario_frame)); [exact scenario_horses_sd | reflexivity].
Defined.

(** The order of equal Std values is numpy's choice: with two admissible
    [argsort]s the tied provinces of [tie_frame] come out in opposite
    orders, so line 54 may select either. *)
Lemma tie_order_open :
  @horses_sd stable_argsort tie_frame = Some [tie_first; tie_second] /\
  @horses_sd antistable_argsort tie_frame = Some [tie_second; tie_first].
Proof. split; vm_compute; reflexivity. Qed.

Lemma largest_sd_prov_none_witness :
  horses_sd (preprocess scenario_frame) = Some scenario_sd /\
  (largest_sd_prov scenario_sd = None <->
   forall r, In r (frows (preprocess scenario_frame)) -> GEO r = None).
Proof.
  split; [exact scenario_horses_sd|].
  apply (largest_sd_prov_none (preprocess scenario_frame)). exact scenario_horses_sd.
Defined.

Lemma horses_sd_std_values_witness :
  horses_sd (preprocess scenario_frame) = Some scenario_sd /\
  In (mkSRow "Ontario" (Some (4000000 # 2))) scenario_sd /\
  exists vs, ensure_float64 (group_cells "Ontario" (frows (preprocess scenario_frame))) = Some vs /\
             Std (mkSRow "Ontario" (Some (4000000 # 2))) = group_var_f vs.
Proof.
  assert (Hin : In (mkSRow "Ontario" (Some (4000000 # 2))) scenario_sd) by (left; reflexivity).
  split; [exact scenario_horses_sd|]. split; [exact Hin|].
  apply (horses_sd_std_values (preprocess scenario_frame) scenario_sd _ scenario_horses_sd Hin).
Defined.

Lemma horses_sd_refines_witness :
  horses_sd (preprocess scenario_frame) = Some scenario_sd /\
  summary_spec (preprocess scenario_frame) scenario_sd.
Proof.
  split; [exact scenario_horses_sd|].
  apply (horses_sd_refines _ _ scenario_horses_sd).
Defined.

(** An object Value column of numerals. *)
Definition numeral_frame : frame :=
  mkFrame (mkSchema DObject DObject)
    [ mkRow (Some "Ontario") (Some target_date) (RStr "2019") (CStr "12");
      mkRow (Some "Ontario") (Some target_date) (RStr "2020") (CStr "13") ].

Lemma horses_sd_numeral_nan_witness :
  horses_sd (preprocess numeral_frame) = Some [mkSRow "Ontario" None] /\
  exists x, In x [mkSRow "Ontario" None] /\
    GEO (transform_row (mkRow (Some "Ontario") (Some target_date) (RStr "2019") (CStr "12")))
      = Some (Province x) /\ Std x = None.
Proof.
  assert (Hsd : horses_sd (preprocess numeral_frame) = Some [mkSRow "Ontario" None])
    by (vm_compute; reflexivity).
  split; [exact Hsd|].
  apply (horses_sd_numeral_nan numeral_frame _ "12");
    [left; reflexivity | reflexivity | discriminate | reflexivity | reflexivity | reflexivity | exact Hsd].
Defined.

