(* ===== verification/Csv.v ===== *)
(** The text of [horses_sd.csv]: what [horses_sd.to_csv(path, index=False)]
    (line 50) writes into the file.

    pandas' [CSVFormatter] hands the header and the rows, as strings, to
    Python's [csv.writer] with the dialect [excel] ([delimiter=','],
    [quotechar] the double quote, [doublequote=True], [quoting=QUOTE_MINIMAL]) and
    [lineterminator=os.linesep], a newline on POSIX.  [write_field] and
    [write_row] are CPython's [_csv.c] ([join_append] and [writerow]):
    a field is quoted when it holds the delimiter, the quote character
    or a line break, a quote inside a quoted field is doubled, and a row
    that is a single empty field is written as two quotes.  A missing Std
    (NaN) is written as the empty string ([na_rep='']); a present Std is
    the text of the float, which depends on floating-point rounding and
    is a parameter [repr_std] of the summary's text.

    [parse_csv] is a reader of the same dialect, the state machine of
    pandas' C tokenizer (which CPython's [csv.reader] shares on the texts
    it accepts): a record ends at a newline, at a carriage return and
    newline, or at a carriage return alone, after which the next
    character starts a new record.  The roundtrip theorems: reading what
    the writer wrote gives back every row, field by field, whatever the
    fields hold, with newline or carriage-return-newline line ends. *)

From Stdlib Require Import List Bool Ascii String QArith.
From S2P Require Import Prelude Summary.
Import ListNotations.

Open Scope char_scope.

Definition dq : ascii := "034".
Definition comma : ascii := ",".
Definition nl : ascii := "010".
Definition cr : ascii := "013".

(** ** The writer *)

(** QUOTE_MINIMAL: the characters that make [join_append] quote a field. *)
Definition special (c : ascii) : bool :=
  Ascii.eqb c comma || Ascii.eqb c dq || Ascii.eqb c nl || Ascii.eqb c cr.

Fixpoint needs_quote (f : string) : bool :=
  match f with
  | EmptyString => false
  | String c f' => special c || needs_quote f'
  end.

(** The body of a quoted field, each quote doubled ([doublequote=True]). *)
Fixpoint escape (f : string) : string :=
  match f with
  | EmptyString => EmptyString
  | String c f' => if Ascii.eqb c dq then String dq (String dq (escape f')) else String c (escape f')
  end.

Definition write_field (f : string) : string :=
  if needs_quote f then String dq (escape f ++ String dq EmptyString)%string else f.

(** [os.linesep], the line terminator pandas gives the writer: a newline
    on POSIX, a carriage return and a newline on Windows. *)
Definition linesep_posix : string := String nl EmptyString.
Definition linesep_windows : string := String cr (String nl EmptyString).

(** The fields of [writer.writerow(r)] joined by the delimiter; a lone
    empty field is quoted so that the line is not read back as an empty
    row. *)
Definition row_body (r : list string) : string :=
  match r with
  | [EmptyString] => String dq (String dq EmptyString)
  | _ => String.concat (String comma EmptyString) (map write_field r)
  end.

(** [writer.writerow(r)]: the row, then the line terminator. *)
Definition write_row_term (term : string) (r : list string) : string := (row_body r ++ term)%string.

Fixpoint write_rows_term (term : string) (rs : list (list string)) : string :=
  match rs with
  | [] => EmptyString
  | r :: rs' => (write_row_term term r ++ write_rows_term term rs')%string
  end.

(** The rows as [to_csv] writes them on POSIX. *)
Definition write_rows (rs : list (list string)) : string := write_rows_term linesep_posix rs.

(** The columns of [horses_sd] after [rename], written as the header. *)
Definition summary_header : list string := ["Province"; "Std"]%string.

(** A Std cell: NaN is written as [na_rep], the empty string. *)
Definition std_field (repr_std : Q -> string) (v : option Q) : string :=
  match v with
  | Some q => repr_std q
  | None => EmptyString
  end.

Definition summary_fields (repr_std : Q -> string) (r : srow) : list string :=
  [Province r; std_field repr_std (Std r)].

(** The whole file, [index=False]: the header, then one line per row of
    [horses_sd] in its sorted order. *)
Definition summary_csv (repr_std : Q -> string) (sd : list srow) : string :=
  write_rows (summary_header :: map (summary_fields repr_std) sd).

(** ** The reader *)

(** Reader states: at the start of a field ([START_RECORD] when no field
    of the record is read yet, [START_FIELD] otherwise), inside an
    unquoted field, inside a quoted field, just after a quote inside a
    quoted field, just after a carriage return that ended a field or an
    empty line ([EAT_CRNL], [EAT_CRNL_NOP]). *)
Inductive rstate : Type :=
| SStart
| SUnq
| SQ
| SQQ
| SCR.

(** The field read so far, kept reversed. *)
Definition field (buf : list ascii) : string := string_of_list_ascii (rev buf).

Definition emit (rec : list string) (acc : list (list string)) : list (list string) :=
  rev rec :: acc.

(** [rec] holds the fields of the current record and [acc] the records
    read, both reversed.  At the start of a record ([rec = []]) a newline
    is an empty row; after a delimiter it ends an empty last field.  In
    [SCR] the fields of the line are all in [rec]: a newline ends the
    line, any other character ends it and is read again as the first of
    the next record (the tokenizer's [--i; buf--]). *)
Fixpoint parse_go (st : rstate) (buf : list ascii) (rec : list string)
    (acc : list (list string)) (s : string) : option (list (list string)) :=
  match s with
  | EmptyString =>
      match st with
      | SStart => match rec with [] => Some (rev acc) | _ => Some (rev (emit (EmptyString :: rec) acc)) end
      | SUnq | SQQ => Some (rev (emit (field buf :: rec) acc))
      | SCR => match rec with [] => Some (rev acc) | _ => Some (rev (emit rec acc)) end
      | SQ => None
      end
  | String c s' =>
      let start (rec : list string) (acc : list (list string)) :=
        if Ascii.eqb c dq then parse_go SQ [] rec acc s'
        else if Ascii.eqb c comma then parse_go SStart [] (EmptyString :: rec) acc s'
        else if Ascii.eqb c nl then
          parse_go SStart [] [] (emit (match rec with [] => [] | _ => EmptyString :: rec end) acc) s'
        else if Ascii.eqb c cr then
          parse_go SCR [] (match rec with [] => [] | _ => EmptyString :: rec end) acc s'
        else parse_go SUnq [c] rec acc s' in
      match st with
      | SStart => start rec acc
      | SCR => if Ascii.eqb c nl then parse_go SStart [] [] (emit rec acc) s' else start [] (emit rec acc)
      | SUnq =>
          if Ascii.eqb c comma then parse_go SStart [] (field buf :: rec) acc s'
          else if Ascii.eqb c nl then parse_go SStart [] [] (emit (field buf :: rec) acc) s'
          else if Ascii.eqb c cr then parse_go SCR [] (field buf :: rec) acc s'
          else parse_go SUnq (c :: buf) rec acc s'
      | SQ =>
          if Ascii.eqb c dq then parse_go SQQ buf rec acc s' else parse_go SQ (c :: buf) rec acc s'
      | SQQ =>
          if Ascii.eqb c dq then parse_go SQ (c :: buf) rec acc s'
          else if Ascii.eqb c comma then parse_go SStart [] (field buf :: rec) acc s'
          else if Ascii.eqb c nl then parse_go SStart [] [] (emit (field buf :: rec) acc) s'
          else if Ascii.eqb c cr then parse_go SCR [] (field buf :: rec) acc s'
          else parse_go SUnq (c :: buf) rec acc s'
      end
  end.

Definition parse_csv (s : string) : option (list (list string)) := parse_go SStart [] [] [] s.

(** ** Reading back what the writer wrote *)

(** The equations of [String.append], which stdpp makes opaque to [simpl]. *)
Lemma str_app_nil s : (EmptyString ++ s)%string = s.
Proof. reflexivity. Qed.

Lemma str_app_cons c a b : (String c a ++ b)%string = String c (a ++ b).
Proof. reflexivity. Qed.

Create Rewrite HintDb csv.
#[export] Hint Rewrite str_app_nil str_app_cons : csv.

Lemma append_assoc_str (a b c : string) : ((a ++ b) ++ c = a ++ (b ++ c))%string.
Proof. induction a as [|x a IH]; autorewrite with csv; [reflexivity | rewrite IH; reflexivity]. Qed.

#[export] Hint Rewrite append_assoc_str : csv.

Lemma str_app_nil_r s : (s ++ EmptyString)%string = s.
Proof. induction s as [|c s IH]; autorewrite with csv; [reflexivity | rewrite IH; reflexivity]. Qed.

Lemma special_false c :
  special c = false ->
  Ascii.eqb c comma = false /\ Ascii.eqb c dq = false /\ Ascii.eqb c nl = false /\ Ascii.eqb c cr = false.
Proof. unfold special. rewrite !orb_false_iff. tauto. Qed.

Lemma field_rev f : field (rev (list_ascii_of_string f)) = f.
Proof. unfold field. rewrite rev_involutive. apply string_of_list_ascii_of_string. Qed.

Lemma field_snoc c f : field (rev (list_ascii_of_string f) ++ [c]) = String c f.
Proof. exact (field_rev (String c f)). Qed.

(** An unquoted field is read character by character. *)
Lemma parse_unq f buf rec acc rest :
  needs_quote f = false ->
  parse_go SUnq buf rec acc (f ++ rest) = parse_go SUnq (rev (list_ascii_of_string f) ++ buf) rec acc rest.
Proof.
  revert buf. induction f as [|c f IH]; intros buf Hq; [reflexivity|].
  simpl in Hq. apply orb_false_iff in Hq as [Hc Hq]. apply special_false in Hc as (H1 & _ & H3 & H4).
  simpl. rewrite H1, H3, H4, IH by exact Hq. rewrite <- app_assoc. reflexivity.
Qed.

(** The body of a quoted field and its closing quote. *)
Lemma parse_quoted f buf rec acc rest :
  parse_go SQ buf rec acc (escape f ++ String dq rest) =
  parse_go SQQ (rev (list_ascii_of_string f) ++ buf) rec acc rest.
Proof.
  revert buf. induction f as [|c f IH]; intros buf; [reflexivity|].
  simpl. destruct (Ascii.eqb_spec c dq) as [->|Hne]; simpl.
  - rewrite IH, <- app_assoc. reflexivity.
  - apply Ascii.eqb_neq in Hne. rewrite Hne, IH, <- app_assoc. reflexivity.
Qed.

(** What the reader does after a field, at a delimiter, a newline or a
    carriage return. *)
Definition after_sep (sep : ascii) (rec : list string) (acc : list (list string)) (rest : string) :=
  if Ascii.eqb sep comma then parse_go SStart [] rec acc rest
  else if Ascii.eqb sep nl then parse_go SStart [] [] (emit rec acc) rest
  else parse_go SCR [] rec acc rest.

(** One written field followed by a delimiter or a line break is read
    back as that field, unless it is an empty field alone on its line. *)
Lemma parse_field f rec acc sep rest :
  (sep = comma \/ sep = nl \/ sep = cr) -> (f <> EmptyString \/ rec <> [] \/ sep = comma) ->
  parse_go SStart [] rec acc (write_field f ++ String sep rest) = after_sep sep (f :: rec) acc rest.
Proof.
  intros Hs Hc. unfold write_field. destruct (needs_quote f) eqn:Hq.
  - autorewrite with csv. simpl. rewrite parse_quoted, app_nil_r.
    destruct Hs as [->|[->| ->]]; simpl; rewrite field_rev; reflexivity.
  - destruct f as [|c f].
    + autorewrite with csv. destruct Hs as [->|[->| ->]]; simpl; [reflexivity| |];
        (destruct rec; [|reflexivity]); destruct Hc as [H|[H|H]]; try congruence; discriminate.
    + simpl in Hq. apply orb_false_iff in Hq as [Hc1 Hq].
      destruct (special_false c Hc1) as (H1 & H2 & H3 & H4).
      autorewrite with csv. simpl. rewrite H1, H2, H3, H4, parse_unq by exact Hq.
      destruct Hs as [->|[->| ->]]; simpl; rewrite field_snoc; reflexivity.
Qed.

Definition is_linesep (term : string) : Prop := term = linesep_posix \/ term = linesep_windows.

(** A field followed by the line terminator ends the record. *)
Lemma parse_last_field term f rec acc rest :
  is_linesep term -> (f <> EmptyString \/ rec <> []) ->
  parse_go SStart [] rec acc (write_field f ++ term ++ rest) = parse_go SStart [] [] (emit (f :: rec) acc) rest.
Proof.
  intros Ht Hc. assert (Hc' : f <> EmptyString \/ rec <> [] \/ False) by tauto.
  destruct Ht as [-> | ->]; unfold linesep_posix, linesep_windows; autorewrite with csv;
    rewrite parse_field by (tauto || (destruct Hc' as [H|[H|[]]]; tauto)); reflexivity.
Qed.

Lemma concat_map_cons2 sep (h : string -> string) x y ys :
  String.concat sep (map h (x :: y :: ys)) = (h x ++ sep ++ String.concat sep (map h (y :: ys)))%string.
Proof. reflexivity. Qed.

(** The fields of a row, joined by delimiters and ended by the line
    terminator. *)
Lemma parse_fields term fs rec acc rest :
  is_linesep term -> fs <> [] -> (fs <> [EmptyString] \/ rec <> []) ->
  parse_go SStart [] rec acc
    (String.concat (String comma EmptyString) (map write_field fs) ++ term ++ rest) =
  parse_go SStart [] [] (emit (rev fs ++ rec) acc) rest.
Proof.
  intros Ht. revert rec. induction fs as [|f [|g fs] IH]; intros rec Hne Hc; [congruence| |].
  - simpl. rewrite parse_last_field; [reflexivity | exact Ht |].
    destruct Hc as [H|H]; [left; congruence | right; exact H].
  - rewrite concat_map_cons2. autorewrite with csv.
    rewrite parse_field; [|left; reflexivity | right; right; reflexivity].
    unfold after_sep. simpl Ascii.eqb. cbv iota.
    rewrite IH by (discriminate || (right; discriminate)).
    simpl. rewrite <- !app_assoc. reflexivity.
Qed.

Lemma row_body_plain r :
  r <> [EmptyString] -> row_body r = String.concat (String comma EmptyString) (map write_field r).
Proof. intros H. destruct r as [|[|c f] [|g fs]]; try reflexivity. congruence. Qed.

(** One written row is read back as that row. *)
Lemma parse_row term r acc rest :
  is_linesep term ->
  parse_go SStart [] [] acc (write_row_term term r ++ rest) = parse_go SStart [] [] (r :: acc) rest.
Proof.
  intros Ht. unfold write_row_term. autorewrite with csv.
  destruct r as [|f [|g fs]].
  - destruct Ht as [-> | ->]; reflexivity.
  - destruct f as [|c f]; [destruct Ht as [-> | ->]; reflexivity|].
    rewrite row_body_plain by discriminate.
    rewrite parse_fields by (exact Ht || discriminate || (left; discriminate)). reflexivity.
  - rewrite row_body_plain by discriminate.
    rewrite parse_fields by (exact Ht || discriminate || (left; discriminate)).
    unfold emit. rewrite app_nil_r, rev_involutive. reflexivity.
Qed.

Lemma parse_rows term rs acc :
  is_linesep term -> parse_go SStart [] [] acc (write_rows_term term rs) = Some (rev acc ++ rs).
Proof.
  intros Ht. revert acc. induction rs as [|r rs IH]; intros acc; cbn [write_rows_term].
  - rewrite app_nil_r. reflexivity.
  - rewrite parse_row, IH by exact Ht. simpl. rewrite <- app_assoc. reflexivity.
Qed.

(** Whatever the rows hold, the reader gives back what the writer wrote,
    on POSIX and on Windows. *)
Lemma write_rows_term_roundtrip term rs : is_linesep term -> parse_csv (write_rows_term term rs) = Some rs.
Proof. intros Ht. unfold parse_csv. rewrite parse_rows by exact Ht. reflexivity. Qed.

Lemma write_rows_roundtrip rs : parse_csv (write_rows rs) = Some rs.
Proof. apply write_rows_term_roundtrip. left. reflexivity. Qed.

