(* ===== verification/CsvRead.v ===== *)
(** [pd.read_csv(input_dir)] (line 28) on the text of a file: pandas 2's
    C parser with the defaults the script uses ([sep=','],
    [quotechar] the double quote, [header='infer'], [na_filter=True],
    [skip_blank_lines=True]).

    The tokenizer is [Csv.parse_csv]: pandas' states START_FIELD,
    IN_FIELD, IN_QUOTED_FIELD and QUOTE_IN_QUOTED_FIELD are [SStart],
    [SUnq], [SQ] and [SQQ]; an end of file inside a quoted field raises
    [ParserError], a file with no line raises [EmptyDataError], empty
    lines are skipped, and a short line is padded with NaN.  The first
    line gives the column labels.

    Each column the script uses is converted as pandas' [_convert_tokens]
    does: a token of [STR_NA_VALUES] is NaN; the column is [int64] when
    every token is an integer ([str_to_int64]: spaces around, a sign,
    digits), else [float64] when every token is NaN or a decimal number
    ([precise_xstrtod]), else [object], holding the token strings.  An
    absent column reads as NaN: lines 29-32 raise before they look at it.
    A Ref_Date column of years with a missing one is float64 (an integer
    column cannot hold NaN); its values are the integers the tokens
    stand for ([float_year]).

    [read_text] returns [None] outside the inputs the model covers, where
    pandas needs a dtype the frame does not have or where the text alone
    does not decide what pandas does: a byte outside ASCII or a carriage
    return not followed by a newline (lines may end in a newline or in a
    carriage return and a newline), a line of blanks, a header with an
    empty or repeated label, a
    line longer than the header (an implicit index), an [int64] column
    with a value out of range (pandas tries [uint64]), a boolean column,
    a float column with an infinite value or with a number that has more
    than 25 digits or a decimal exponent outside [-280, 280] (so that no
    value overflows or underflows binary64), a float Ref_Date column with
    a value that is not a non-zero integer of at most [2^53] (so that
    every year is exact and Python prints it in fixed notation), a
    numeric GEO or DATE column. *)

From Stdlib Require Import List Bool Ascii String ZArith QArith Lia.
From S2P Require Import Prelude Int64 Frame PyFloat Preprocess Summary Csv.
Import ListNotations.

Open Scope string_scope.

(** The exceptions of the parser. *)
Inductive read_error : Type :=
| ParserError
| EmptyDataError.

(** ** Tokens *)

(** pandas 2's [STR_NA_VALUES]. *)
Definition na_values : list string :=
  [""; "#N/A"; "#N/A N/A"; "#NA"; "-1.#IND"; "-1.#QNAN"; "-NaN"; "-nan"; "1.#IND";
   "1.#QNAN"; "<NA>"; "N/A"; "NA"; "NULL"; "NaN"; "None"; "n/a"; "nan"; "null"].

Definition is_na (tok : string) : bool := existsb (String.eqb tok) na_values.

(** [isspace_ascii]: space, and tab to carriage return. *)
Definition is_space (c : ascii) : bool :=
  let n := nat_of_ascii c in (n =? 32)%nat || ((9 <=? n)%nat && (n <=? 13)%nat).

Fixpoint ltrim (s : string) : string :=
  match s with
  | String c s' => if is_space c then ltrim s' else s
  | EmptyString => EmptyString
  end.

Definition rtrim (s : string) : string :=
  string_of_list_ascii (rev (list_ascii_of_string (ltrim (string_of_list_ascii (rev (list_ascii_of_string s)))))).

Definition trim (s : string) : string := rtrim (ltrim s).

Definition digit_val (c : ascii) : option Z :=
  let n := nat_of_ascii c in
  if ((48 <=? n) && (n <=? 57))%nat then Some (Z.of_nat n - 48)%Z else None.

(** The leading digits of a string and what follows them. *)
Fixpoint take_digits (s : string) : list Z * string :=
  match s with
  | String c s' =>
      match digit_val c with
      | Some d => let (ds, r) := take_digits s' in (d :: ds, r)
      | None => ([], s)
      end
  | EmptyString => ([], EmptyString)
  end.

Definition sign_of (s : string) : Z * string :=
  match s with
  | String c s' =>
      if Ascii.eqb c "-"%char then (-1, s')%Z
      else if Ascii.eqb c "+"%char then (1, s')%Z
      else (1%Z, s)
  | EmptyString => (1%Z, EmptyString)
  end.

(** At least one digit and nothing after them. *)
Definition all_digits (s : string) : option Z :=
  match take_digits s with
  | ([], _) => None
  | (ds, EmptyString) => Some (digits_value ds)
  | _ => None
  end.

(** [str_to_int64]: spaces around, an optional sign, digits. *)
Definition int_literal (tok : string) : option Z :=
  let (sg, s) := sign_of (trim tok) in option_map (Z.mul sg) (all_digits s).

(** The exponent part of a decimal number, possibly empty. *)
Definition exponent (s : string) : option Z :=
  match s with
  | EmptyString => Some 0%Z
  | String c s' =>
      if Ascii.eqb c "e"%char || Ascii.eqb c "E"%char then
        let (sg, r) := sign_of s' in option_map (Z.mul sg) (all_digits r)
      else None
  end.

(** [precise_xstrtod] on a whole token: spaces around, an optional sign,
    digits with at most one decimal point and at least one digit, an
    optional exponent.  The value is exact ([Q]); its magnitude in the
    binary64 range is checked by [float_bounded]. *)
Definition float_literal (tok : string) : option (Z * Z) :=
  let (sg, s) := sign_of (trim tok) in
  let (d1, s1) := take_digits s in
  let '(d2, s2) := match s1 with
                   | String c s' => if Ascii.eqb c "."%char then take_digits s' else ([], s1)
                   | EmptyString => ([], EmptyString)
                   end in
  match (d1 ++ d2)%list, exponent s2 with
  | [], _ => None
  | ds, Some e => Some (sg * digits_value ds, e - Z.of_nat (List.length d2))%Z
  | _, None => None
  end.

Definition float_value (tok : string) : option Q :=
  option_map (fun me => scale10 (fst me) (snd me)) (float_literal tok).

(** A decimal exponent far from binary64's limits: no overflow to
    infinity and no underflow. *)
Definition float_bounded (tok : string) : bool :=
  match float_literal tok with
  | Some (m, e) => (m =? 0)%Z || ((-280 <=? e)%Z && (e <=? 280)%Z && (Z.abs m <? 10 ^ 25)%Z)
  | None => false
  end.

Fixpoint lower_str (s : string) : string :=
  match s with
  | String c s' => String (lower c) (lower_str s')
  | EmptyString => EmptyString
  end.

(** [_try_double]'s infinities and [to_boolean]'s words, case blind. *)
Definition is_inf (tok : string) : bool :=
  existsb (String.eqb (lower_str tok)) ["inf"; "+inf"; "-inf"; "infinity"; "+infinity"; "-infinity"].

Definition is_bool (tok : string) : bool :=
  existsb (String.eqb (lower_str tok)) ["true"; "false"].

Definition is_int_tok (tok : string) : bool :=
  negb (is_na tok) && match int_literal tok with Some _ => true | None => false end.

(** An integer token within [int64]. *)
Definition int_fits (tok : string) : bool :=
  match int_literal tok with Some z => in_int64 z | None => false end.

Definition is_float_tok (tok : string) : bool :=
  is_na tok || match float_literal tok with Some _ => true | None => false end || is_inf tok.

(** ** Columns *)

(** The dtype pandas gives a column, [None] where it is one the model
    does not represent.  A column with no data row is [object]. *)
Definition infer (toks : list string) : option dtype :=
  match toks with
  | [] => Some DObject
  | _ =>
      if forallb is_int_tok toks then
        if forallb int_fits toks then Some DInt64 else None
      else if forallb is_float_tok toks then
        if existsb is_inf toks || negb (forallb (fun t => is_na t || float_bounded t) toks)
        then None else Some DFloat64
      else if forallb (fun t => is_na t || is_bool t) toks then None
      else Some DObject
  end.

Fixpoint label_index (c : string) (hdr : list string) : option nat :=
  match hdr with
  | [] => None
  | h :: hdr' => if String.eqb h c then Some 0%nat else option_map S (label_index c hdr')
  end.

(** The token of a line in column [c]: a short line is padded with NaN,
    and an absent column reads as NaN. *)
Definition tok_of (hdr : list string) (r : list string) (c : string) : string :=
  match label_index c hdr with
  | Some i => nth i r EmptyString
  | None => EmptyString
  end.

Definition column (hdr : list string) (recs : list (list string)) (c : string) : list string :=
  map (fun r => tok_of hdr r c) recs.

Definition col_dtype (hdr : list string) (recs : list (list string)) (c : string) : option dtype :=
  match label_index c hdr with
  | Some _ => infer (column hdr recs c)
  | None => Some DObject
  end.

(** GEO and DATE must be [object] columns, or NaN throughout. *)
Definition obj_ok (hdr : list string) (recs : list (list string)) (c : string) : bool :=
  match col_dtype hdr recs c with
  | Some DObject => true
  | Some DFloat64 => forallb is_na (column hdr recs c)
  | _ => false
  end.

Definition obj_cell (tok : string) : option string := if is_na tok then None else Some tok.

(** The integer a float token stands for, when its value is integral. *)
Definition float_year (tok : string) : option Z :=
  match float_value tok with
  | Some q => if (Z.rem (Qnum q) (Z.pos (Qden q)) =? 0)%Z
              then Some (Z.quot (Qnum q) (Z.pos (Qden q))) else None
  | None => None
  end.

(** A float Ref_Date token of the model: NaN or an exact integral value. *)
Definition year_ok (tok : string) : bool :=
  is_na tok || match float_year tok with Some z => float_int_exact z | None => false end.

Definition ref_cell (t : dtype) (tok : string) : refcell :=
  if is_na tok then RNaN
  else match t with
       | DInt64 => match int_literal tok with Some z => RInt z | None => RStr tok end
       | DFloat64 => match float_year tok with Some z => RFloat z | None => RStr tok end
       | DObject => RStr tok
       end.

Definition value_cell (t : dtype) (tok : string) : cell :=
  if is_na tok then CFloat None
  else match t with
       | DInt64 => match int_literal tok with Some z => CInt z | None => CStr tok end
       | DFloat64 => CFloat (float_value tok)
       | DObject => CStr tok
       end.

Definition read_row (hdr : list string) (rt vt : dtype) (r : list string) : row :=
  mkRow (obj_cell (tok_of hdr r "GEO")) (obj_cell (tok_of hdr r "DATE"))
        (ref_cell rt (tok_of hdr r "Ref_Date")) (value_cell vt (tok_of hdr r "Value")).

(** The frame of the four columns, from the data lines. *)
Definition read_frame (hdr : list string) (recs : list (list string)) : option frame :=
  match col_dtype hdr recs "Ref_Date", col_dtype hdr recs "Value" with
  | Some rt, Some vt =>
      if obj_ok hdr recs "GEO" && obj_ok hdr recs "DATE" &&
         match rt with DFloat64 => forallb year_ok (column hdr recs "Ref_Date") | _ => true end
      then Some (mkFrame (mkSchema rt vt) (map (read_row hdr rt vt) recs))
      else None
  | _, _ => None
  end.

(** ** The file *)

Definition ascii_only (s : string) : bool :=
  forallb (fun c => (nat_of_ascii c <? 128)%nat) (list_ascii_of_string s).

(** A carriage return not followed by a newline (the line end of
    classic Mac OS), which the model leaves out. *)
Fixpoint has_lone_cr (s : string) : bool :=
  match s with
  | EmptyString => false
  | String c s' =>
      (Ascii.eqb c cr && match s' with String d _ => negb (Ascii.eqb d nl) | EmptyString => true end)
      || has_lone_cr s'
  end.

(** A line of blanks only, which pandas skips unless it is quoted. *)
Definition blank_line (r : list string) : bool :=
  match r with
  | [w] => negb (String.eqb w EmptyString) &&
           forallb (fun c => Ascii.eqb c " "%char || Ascii.eqb c "009"%char) (list_ascii_of_string w)
  | _ => false
  end.

Definition nonempty_line (r : list string) : bool := match r with [] => false | _ => true end.

Fixpoint distinct (l : list string) : bool :=
  match l with
  | [] => true
  | x :: l' => negb (existsb (String.eqb x) l') && distinct l'
  end.

Definition header_ok (hdr : list string) : bool :=
  distinct hdr && forallb (fun h => negb (String.eqb h EmptyString)) hdr.

(** The lines pandas reads: empty lines skipped. *)
Definition csv_records (s : string) : option (list (list string)) :=
  option_map (filter nonempty_line) (parse_csv s).

(** [pd.read_csv] on a text: the table, a parser error, or [None] outside
    the inputs the model covers. *)
Definition read_text (s : string) : option (outcome read_error table) :=
  if negb (ascii_only s) || has_lone_cr s then None
  else match parse_csv s with
       | None => Some (Raise ParserError)
       | Some recs =>
           if existsb blank_line recs then None
           else match filter nonempty_line recs with
                | [] => Some (Raise EmptyDataError)
                | hdr :: data =>
                    if header_ok hdr && forallb (fun r => (List.length r <=? List.length hdr)%nat) data
                    then option_map (fun f => Ok (mkTable hdr f)) (read_frame hdr data)
                    else None
                end
       end.

(** The table [read_csv] makes of a summary written by [to_csv]: the
    labels Province and Std, none of the four columns, one row per
    province with every field NaN. *)
Definition nan_row : row := mkRow None None RNaN (CFloat None).

Definition summary_table (sd : list srow) : table :=
  mkTable summary_header (mkFrame (mkSchema DObject DObject) (map (fun _ => nan_row) sd)).

(** ** The dtype invariant of what is read *)

(** The three dtypes [infer] gives, with what an [int64] column holds. *)
Lemma infer_cases toks t :
  infer toks = Some t ->
  (t = DInt64 /\ forall tok, In tok toks ->
     is_na tok = false /\ exists z, int_literal tok = Some z /\ in_int64 z = true) \/
  t = DFloat64 \/ t = DObject.
Proof.
  unfold infer. destruct toks as [|t0 toks]; [cbn; intros [= <-]; auto|].
  destruct (forallb is_int_tok _) eqn:Hi; cbv iota.
  - destruct (forallb int_fits (t0 :: toks)) eqn:Hr; cbv iota; [|discriminate]. intros [= <-]. left. split; [reflexivity|].
    intros tok Htok. rewrite forallb_forall in Hi, Hr. specialize (Hi _ Htok). specialize (Hr _ Htok).
    unfold is_int_tok in Hi. apply andb_true_iff in Hi as [Hn _]. apply negb_true_iff in Hn.
    split; [exact Hn|]. unfold int_fits in Hr. destruct (int_literal tok) as [z|]; [eauto | discriminate].
  - repeat match goal with |- context [if ?b then _ else _] => destruct b end;
      intros [= <-]; auto.
Qed.

Lemma value_cell_wf toks t tok :
  infer toks = Some t -> In tok toks -> cell_has_dtype t (value_cell t tok) = true.
Proof.
  intros Hi Hin. unfold value_cell.
  destruct (infer_cases _ _ Hi) as [[-> Hint]|[->| ->]].
  - destruct (Hint _ Hin) as (Hn & z & Hz & Hr). rewrite Hn, Hz. exact Hr.
  - destruct (is_na tok); reflexivity.
  - destruct (is_na tok); reflexivity.
Qed.

Lemma ref_cell_wf toks t tok :
  infer toks = Some t -> (t = DFloat64 -> year_ok tok = true) -> In tok toks ->
  refcell_has_dtype t (ref_cell t tok) = true.
Proof.
  intros Hi Hf Hin. unfold ref_cell.
  destruct (infer_cases _ _ Hi) as [[-> Hint]|[->| ->]].
  - destruct (Hint _ Hin) as (Hn & z & Hz & Hr). rewrite Hn, Hz. exact Hr.
  - specialize (Hf eq_refl). unfold year_ok in Hf.
    destruct (is_na tok); [reflexivity|]. destruct (float_year tok); [exact Hf | discriminate].
  - destruct (is_na tok); reflexivity.
Qed.

(** The token of a data line in a column, present or absent. *)
Lemma col_dtype_tok hdr recs c t r :
  col_dtype hdr recs c = Some t -> In r recs ->
  (t = DObject /\ tok_of hdr r c = EmptyString) \/
  (infer (column hdr recs c) = Some t /\ In (tok_of hdr r c) (column hdr recs c)).
Proof.
  unfold col_dtype. intros H Hin. destruct (label_index c hdr) eqn:E.
  - right. split; [exact H|]. apply (in_map (fun r => tok_of hdr r c)), Hin.
  - left. injection H as <-. unfold tok_of. rewrite E. auto.
Qed.

Lemma read_frame_wf hdr recs f : read_frame hdr recs = Some f -> frame_wf f = true.
Proof.
  unfold read_frame.
  destruct (col_dtype hdr recs "Ref_Date") as [rt|] eqn:Hr; [|discriminate].
  destruct (col_dtype hdr recs "Value") as [vt|] eqn:Hv; [|discriminate].
  destruct (obj_ok _ _ _ && obj_ok _ _ _ && _) eqn:Hok; [|discriminate].
  apply andb_true_iff in Hok as [_ Hf]. intros [= <-].
  apply frame_wf_forall, Forall_forall. intros row Hrow. apply in_map_iff in Hrow as (r & <- & Hin).
  unfold row_wf, read_row. simpl. apply andb_true_iff. split.
  - destruct (col_dtype_tok _ _ _ _ _ Hr Hin) as [[-> ->]|[Hi Ht]]; [reflexivity|].
    apply (ref_cell_wf _ _ _ Hi); [|exact Ht].
    intros ->. rewrite forallb_forall in Hf. exact (Hf _ Ht).
  - destruct (col_dtype_tok _ _ _ _ _ Hv Hin) as [[-> ->]|[Hi Ht]]; [reflexivity|].
    apply (value_cell_wf _ _ _ Hi Ht).
Qed.

(** Every table [read_csv] returns satisfies the dtype invariant, and its
    labels are the header's. *)
Lemma read_text_ok s t :
  read_text s = Some (Ok t) ->
  exists hdr data, csv_records s = Some (hdr :: data) /\ tcols t = hdr /\
                   read_frame hdr data = Some (tframe t).
Proof.
  unfold read_text, csv_records.
  destruct (negb (ascii_only s) || has_lone_cr s); [discriminate|].
  destruct (parse_csv s) as [recs|]; [|discriminate]. simpl.
  destruct (existsb blank_line recs); [discriminate|].
  destruct (filter nonempty_line recs) as [|hdr data]; [discriminate|].
  destruct (header_ok hdr && _); [|discriminate].
  destruct (read_frame hdr data) as [f|] eqn:E; [|discriminate]. intros [= <-].
  exists hdr, data. auto.
Qed.

(** C32: Every table that [read_csv] returns from a text satisfies the
    dtype invariant of the frame: an [int64] column holds integers in
    range, a float column floats or NaN, an object column strings or NaN;
    so everything the script computes from it starts from a well-typed
    frame. *)
Theorem read_text_wf s t : read_text s = Some (Ok t) -> frame_wf (tframe t) = true.
Proof.
  intros H. destruct (read_text_ok _ _ H) as (hdr & data & _ & _ & Hf). exact (read_frame_wf _ _ _ Hf).
Qed.

(** ** Reading back the script's own summary *)

(** The characters a text of the model may hold. *)
Definition text_char (c : ascii) : bool := (nat_of_ascii c <? 128)%nat && negb (Ascii.eqb cr c).

Definition chars_all (P : ascii -> bool) (s : string) : bool := forallb P (list_ascii_of_string s).

Lemma chars_all_app P a b : chars_all P (a ++ b) = chars_all P a && chars_all P b.
Proof.
  unfold chars_all. induction a as [|c a IH]; [reflexivity|].
  autorewrite with csv. simpl. rewrite IH. apply andb_assoc.
Qed.

Lemma chars_all_escape P f : P dq = true -> chars_all P f = true -> chars_all P (escape f) = true.
Proof.
  unfold chars_all. intros Hq. induction f as [|c f IH]; simpl; [reflexivity|].
  rewrite andb_true_iff. intros [Hc Hf]. destruct (Ascii.eqb c dq); simpl; rewrite ?Hq, ?Hc; simpl; auto.
Qed.

Lemma chars_all_write_field P f :
  P dq = true -> chars_all P f = true -> chars_all P (write_field f) = true.
Proof.
  intros Hq Hf. unfold write_field. destruct (needs_quote f); [|exact Hf].
  change (String dq (escape f ++ String dq EmptyString)) with (String dq EmptyString ++ (escape f ++ String dq EmptyString)).
  rewrite !chars_all_app, chars_all_escape by assumption. unfold chars_all; simpl. rewrite Hq. reflexivity.
Qed.

Lemma chars_all_concat P fs :
  P comma = true -> Forall (fun f => chars_all P f = true) fs ->
  chars_all P (String.concat (String comma EmptyString) fs) = true.
Proof.
  intros Hc. induction 1 as [|f fs Hf Hfs IH]; [reflexivity|].
  destruct fs as [|g fs]; [exact Hf|].
  change (String.concat (String comma EmptyString) (f :: g :: fs))
    with (f ++ String comma EmptyString ++ String.concat (String comma EmptyString) (g :: fs)).
  rewrite !chars_all_app, Hf, IH. unfold chars_all; simpl. rewrite Hc. reflexivity.
Qed.

Lemma chars_all_row_body P r :
  P dq = true -> P comma = true -> Forall (fun f => chars_all P f = true) r ->
  chars_all P (row_body r) = true.
Proof.
  intros Hq Hc Hr. destruct (list_eq_dec string_dec r [EmptyString]) as [->|Hne].
  - unfold chars_all; simpl. rewrite Hq. reflexivity.
  - rewrite row_body_plain by exact Hne. apply chars_all_concat; [exact Hc|].
    apply Forall_map. eapply Forall_impl; [|exact Hr]. intros f. apply chars_all_write_field, Hq.
Qed.

Lemma chars_all_write_rows_term P term rs :
  P dq = true -> P comma = true -> chars_all P term = true ->
  Forall (Forall (fun f => chars_all P f = true)) rs -> chars_all P (write_rows_term term rs) = true.
Proof.
  intros Hq Hc Ht. induction 1 as [|r rs Hr _ IH]; [reflexivity|].
  cbn [write_rows_term]. unfold write_row_term.
  rewrite !chars_all_app, IH, Ht, chars_all_row_body by assumption. reflexivity.
Qed.

Lemma chars_all_impl (P Q : ascii -> bool) s :
  (forall c, P c = true -> Q c = true) -> chars_all P s = true -> chars_all Q s = true.
Proof.
  unfold chars_all. intros H. rewrite !forallb_forall. intros Hs c Hc. apply H, Hs, Hc.
Qed.

(** No carriage return at all. *)
Definition no_cr (c : ascii) : bool := negb (Ascii.eqb cr c).

Lemma lone_cr_app a b : chars_all no_cr a = true -> has_lone_cr (a ++ b) = has_lone_cr b.
Proof.
  unfold chars_all. induction a as [|c a IH]; [reflexivity|].
  autorewrite with csv. simpl. rewrite andb_true_iff. intros [Hc Ha].
  unfold no_cr in Hc. rewrite Ascii.eqb_sym in Hc. apply negb_true_iff in Hc. rewrite Hc, IH by exact Ha.
  reflexivity.
Qed.

Lemma text_char_ok s : chars_all text_char s = true -> ascii_only s = true /\ has_lone_cr s = false.
Proof.
  intros H. split.
  - apply (chars_all_impl text_char); [|exact H]. intros c Hc. apply andb_true_iff in Hc as [Hc _]. exact Hc.
  - rewrite <- (str_app_nil_r s). apply lone_cr_app.
    apply (chars_all_impl text_char); [|exact H]. intros c Hc. apply andb_true_iff in Hc as [_ Hc]. exact Hc.
Qed.

(** In a text written with Windows line ends, from fields without
    carriage returns, every carriage return ends a line. *)
Lemma lone_cr_write_rows_windows rs :
  Forall (Forall (fun f => chars_all no_cr f = true)) rs ->
  has_lone_cr (write_rows_term linesep_windows rs) = false.
Proof.
  induction 1 as [|r rs Hr _ IH]; [reflexivity|].
  cbn [write_rows_term]. unfold write_row_term. autorewrite with csv.
  rewrite lone_cr_app by (apply chars_all_row_body; [reflexivity | reflexivity | exact Hr]).
  exact IH.
Qed.

Lemma summary_lines_shape repr_std sd :
  existsb blank_line (summary_header :: map (summary_fields repr_std) sd) = false /\
  filter nonempty_line (summary_header :: map (summary_fields repr_std) sd) =
    summary_header :: map (summary_fields repr_std) sd /\
  forallb (fun r => (List.length r <=? List.length summary_header)%nat) (map (summary_fields repr_std) sd) = true.
Proof. induction sd as [|r sd IH]; [auto|]. simpl in *. destruct IH as (-> & IH2 & ->). injection IH2 as ->. auto. Qed.

Lemma col_dtype_absent hdr recs c : label_index c hdr = None -> col_dtype hdr recs c = Some DObject.
Proof. unfold col_dtype. intros ->. reflexivity. Qed.

Lemma read_frame_summary repr_std sd :
  read_frame summary_header (map (summary_fields repr_std) sd) = Some (tframe (summary_table sd)).
Proof.
  unfold read_frame, obj_ok. rewrite !col_dtype_absent by reflexivity. simpl.
  rewrite map_map. f_equal.
Qed.

(** pandas reads the file [horses_sd.csv] that line 50 wrote as the
    table with the labels Province and Std, one row per summary row, and
    none of the four columns the script uses: this is what
    [read_contents] gives for a summary, and why the script run on its
    own output raises at the name DATE of line 29.  The province names
    and the Std texts are ASCII without carriage returns. *)
Theorem read_summary_csv repr_std sd :
  Forall (fun r => chars_all text_char (Province r) = true /\
                   chars_all text_char (std_field repr_std (Std r)) = true) sd ->
  read_text (summary_csv repr_std sd) = Some (Ok (summary_table sd)).
Proof.
  intros Hsd.
  assert (Hc : chars_all text_char (summary_csv repr_std sd) = true).
  { apply chars_all_write_rows_term; try reflexivity. constructor; [repeat constructor|].
    apply Forall_map. eapply Forall_impl; [|exact Hsd]. intros r [H1 H2]. repeat constructor; assumption. }
  destruct (text_char_ok _ Hc) as [Ha Hr].
  destruct (summary_lines_shape repr_std sd) as (Hb & Hf & Hl).
  unfold read_text. rewrite Ha, Hr. cbn [negb orb]. unfold summary_csv. rewrite write_rows_roundtrip.
  cbv iota beta. rewrite Hb, Hf, Hl. cbn iota beta.
  change (header_ok summary_header) with true. cbn [andb].
  rewrite read_frame_summary. reflexivity.
Qed.

(** ** Windows line ends *)

(** C15: A file whose lines end in a carriage return and a newline (what
    [to_csv] writes on Windows, where [os.linesep] is [\r\n], and what
    most spreadsheets export) reads as exactly what the same rows give
    with newline line ends: the same table, or the same error. *)
Theorem read_text_crlf rs :
  Forall (Forall (fun f => chars_all text_char f = true)) rs ->
  read_text (write_rows_term linesep_windows rs) = read_text (write_rows rs).
Proof.
  intros H.
  assert (Hl : chars_all text_char (write_rows rs) = true)
    by (apply chars_all_write_rows_term; [reflexivity | reflexivity | reflexivity | exact H]).
  assert (Ha : ascii_only (write_rows_term linesep_windows rs) = true).
  { apply (chars_all_write_rows_term (fun c => (nat_of_ascii c <? 128)%nat)); try reflexivity.
    eapply Forall_impl; [|exact H]. intros r. apply Forall_impl. intros f.
    apply chars_all_impl. intros c Hc. apply andb_true_iff in Hc as [Hc _]. exact Hc. }
  assert (Hr : has_lone_cr (write_rows_term linesep_windows rs) = false).
  { apply lone_cr_write_rows_windows. eapply Forall_impl; [|exact H]. intros r. apply Forall_impl.
    intros f. apply chars_all_impl. intros c Hc. apply andb_true_iff in Hc as [_ Hc]. exact Hc. }
  destruct (text_char_ok _ Hl) as [Ha' Hr'].
  unfold read_text. rewrite Ha, Hr, Ha', Hr', write_rows_roundtrip, write_rows_term_roundtrip
    by (right; reflexivity).
  reflexivity.
Qed.

(** ** A non-numeric Value *)

(** A token that is not NaN, not a number and not a boolean, such as the
    [..] Statistics Canada writes for a value that is not available. *)
Definition value_marker (tok : string) : bool := negb (is_float_tok tok) && negb (is_bool tok).

(** Every integer token is also a decimal number. *)
(** An integer token is a float token with exponent 0. *)
Lemma int_literal_float tok z : int_literal tok = Some z -> float_literal tok = Some (z, 0%Z).
Proof.
  unfold int_literal, float_literal. destruct (sign_of (trim tok)) as [sg s].
  unfold all_digits. destruct (take_digits s) as [[|d ds] r]; [discriminate|].
  destruct r; [|discriminate]. simpl. intros [= <-]. rewrite app_nil_r. reflexivity.
Qed.

Lemma marker_not_int tok : value_marker tok = true -> is_int_tok tok = false.
Proof.
  unfold value_marker, is_float_tok, is_int_tok. rewrite andb_true_iff, !negb_true_iff, !orb_false_iff.
  intros [[[Hn Hf] _] _]. rewrite Hn. simpl.
  destruct (int_literal tok) as [z|] eqn:Hz; [|reflexivity].
  rewrite (int_literal_float _ _ Hz) in Hf. discriminate.
Qed.

(** A column holding such a token is an [object] column of strings. *)
Lemma infer_marker toks tok : In tok toks -> value_marker tok = true -> infer toks = Some DObject.
Proof.
  intros Hin Hm. pose proof (marker_not_int _ Hm) as Hi.
  unfold value_marker in Hm. apply andb_true_iff in Hm as [Hf Hb]. apply negb_true_iff in Hf, Hb.
  unfold infer. destruct toks as [|t0 toks]; [destruct Hin|].
  assert (E : forall f, f tok = false -> forallb f (t0 :: toks) = false).
  { intros f Hft. apply not_true_iff_false. rewrite forallb_forall. intros H. rewrite (H _ Hin) in Hft.
    discriminate. }
  rewrite (E _ Hi), (E _ Hf), (E (fun t => is_na t || is_bool t)); [reflexivity|].
  unfold is_float_tok in Hf. apply orb_false_iff in Hf as [Hf _]. apply orb_false_iff in Hf as [-> _].
  exact Hb.
Qed.

(** The frame [read_frame] builds: the two inferred dtypes and one row
    per data line. *)
Lemma read_frame_some hdr recs f :
  read_frame hdr recs = Some f ->
  exists rt vt, col_dtype hdr recs "Ref_Date" = Some rt /\ col_dtype hdr recs "Value" = Some vt /\
                fschema f = mkSchema rt vt /\ frows f = map (read_row hdr rt vt) recs.
Proof.
  unfold read_frame.
  destruct (col_dtype hdr recs "Ref_Date") as [rt|]; [|discriminate].
  destruct (col_dtype hdr recs "Value") as [vt|]; [|discriminate].
  destruct (_ && _ && _); [|discriminate]. intros [= <-]. exists rt, vt. auto.
Qed.

Lemma read_frame_row hdr recs f r :
  read_frame hdr recs = Some f -> In r recs ->
  exists rt vt, col_dtype hdr recs "Value" = Some vt /\ In (read_row hdr rt vt r) (frows f).
Proof.
  intros Hf Hin. destruct (read_frame_some _ _ _ Hf) as (rt & vt & _ & Hv & _ & ->).
  exists rt, vt. split; [exact Hv | apply in_map, Hin].
Qed.

(** A line of the file whose Value is such a token gives a row of the
    frame with that string as its Value. *)
Lemma read_text_marker_row s t hdr data r :
  read_text s = Some (Ok t) -> csv_records s = Some (hdr :: data) -> In r data ->
  value_marker (tok_of hdr r "Value") = true ->
  exists rt, In (read_row hdr rt DObject r) (frows (tframe t)) /\
             Value (read_row hdr rt DObject r) = CStr (tok_of hdr r "Value").
Proof.
  intros Hs Hrec Hin Hm. destruct (read_text_ok _ _ Hs) as (hdr' & data' & Hrec' & _ & Hf).
  rewrite Hrec in Hrec'. injection Hrec' as <- <-.
  destruct (read_frame_row _ _ _ _ Hf Hin) as (rt & vt & Hv & Hrow).
  destruct (col_dtype_tok _ _ _ _ _ Hv Hin) as [[-> Ht]|[Hi Ht]].
  - rewrite Ht in Hm. discriminate.
  - rewrite (infer_marker _ _ Ht Hm) in Hi. injection Hi as <-.
    exists rt. split; [exact Hrow|]. simpl. unfold value_cell.
    unfold value_marker, is_float_tok in Hm. destruct (is_na (tok_of hdr r "Value")); [discriminate|].
    reflexivity.
Qed.

(** ** A column of years with a missing one *)

Lemma float_year_int tok z : int_literal tok = Some z -> float_year tok = Some z.
Proof.
  intros H. unfold float_year, float_value. rewrite (int_literal_float _ _ H). simpl.
  rewrite Z.mul_1_r, Z.rem_1_r, Z.quot_1_r. reflexivity.
Qed.

(** No NA string reads as an integer. *)
Lemma na_not_int tok : is_na tok = true -> int_literal tok = None.
Proof.
  unfold is_na. rewrite existsb_exists. intros (v & Hv & Heq).
  apply String.eqb_eq in Heq as ->. repeat (destruct Hv as [<-|Hv]; [reflexivity|]). destruct Hv.
Qed.

(** A column of integers and NA strings with at least one NA is
    float64, whenever pandas gives it a dtype of the model. *)
Lemma infer_ints_with_na toks t :
  infer toks = Some t -> existsb is_na toks = true ->
  forallb (fun tok => is_na tok || is_int_tok tok) toks = true -> t = DFloat64.
Proof.
  intros Hi Hna Hall. apply existsb_exists in Hna as (n & Hn & Hnn).
  rewrite forallb_forall in Hall. unfold infer in Hi.
  destruct toks as [|t0 toks]; [destruct Hn|].
  replace (forallb is_int_tok (t0 :: toks)) with false in Hi.
  2:{ symmetry. apply not_true_iff_false. rewrite forallb_forall. intros H.
      specialize (H _ Hn). unfold is_int_tok in H. rewrite Hnn in H. discriminate. }
  replace (forallb is_float_tok (t0 :: toks)) with true in Hi.
  2:{ symmetry. apply forallb_forall. intros tok Htok. specialize (Hall _ Htok).
      unfold is_float_tok. unfold is_int_tok in Hall.
      destruct (is_na tok); [reflexivity|]. simpl in Hall.
      destruct (int_literal tok) eqn:E; [|discriminate]. rewrite (int_literal_float _ _ E). reflexivity. }
  destruct (_ || _); congruence.
Qed.

Lemma label_index_In c hdr : In c hdr -> exists i, label_index c hdr = Some i.
Proof.
  induction hdr as [|h hdr IH]; simpl; [intros []|]. intros [->|H].
  - rewrite String.eqb_refl. eauto.
  - destruct (String.eqb h c); [eauto|]. destruct (IH H) as (i & ->). eauto.
Qed.

(** C26: When the Ref_Date column of the input holds integers and at
    least one missing year (an NA string such as an empty field), pandas
    reads it as float64, and [astype(str)] at line 32 prints each year
    as its digits followed by [.0] and each missing one as [nan]: these
    are the strings both charts put on their temporal axis. *)
Theorem read_missing_year s t hdr data :
  read_text s = Some (Ok t) -> csv_records s = Some (hdr :: data) -> In "Ref_Date" hdr ->
  existsb is_na (column hdr data "Ref_Date") = true ->
  forallb (fun tok => is_na tok || is_int_tok tok) (column hdr data "Ref_Date") = true ->
  ref_t (fschema (tframe t)) = DFloat64 /\
  map (fun r => astype_str_cell (Ref_Date r)) (frows (tframe t)) =
  map (fun tok => RStr (match int_literal tok with Some z => py_str_float_int z | None => "nan" end))
      (column hdr data "Ref_Date").
Proof.
  intros Hs Hrec Hin Hna Hall. destruct (read_text_ok _ _ Hs) as (hdr' & data' & Hrec' & _ & Hf).
  rewrite Hrec in Hrec'. injection Hrec' as <- <-.
  destruct (read_frame_some _ _ _ Hf) as (rt & vt & Hrt & _ & -> & ->).
  destruct (label_index_In _ _ Hin) as (i & Hi).
  unfold col_dtype in Hrt. rewrite Hi in Hrt. rewrite (infer_ints_with_na _ _ Hrt Hna Hall).
  split; [reflexivity|]. unfold column. rewrite !map_map. apply map_ext_in. intros r Hr.
  rewrite forallb_forall in Hall. specialize (Hall _ (in_map (fun r => tok_of hdr r "Ref_Date") _ _ Hr)).
  simpl. unfold ref_cell. destruct (is_na (tok_of hdr r "Ref_Date")) eqn:En.
  - rewrite (na_not_int _ En). reflexivity.
  - unfold is_int_tok in Hall. rewrite En in Hall. simpl in Hall.
    destruct (int_literal (tok_of hdr r "Ref_Date")) eqn:Ez; [|discriminate].
    rewrite (float_year_int _ _ Ez). reflexivity.
Qed.

(** ** Witnesses *)

(** Two June lines of Ontario, the second with Statistics Canada's [..]
    for a value that is not available; [write_rows] quotes the DATE
    label, which holds a comma. *)
Definition marker_rows : list (list string) :=
  [["Ref_Date"; "GEO"; "DATE"; "Value"];
   ["2019"; "Ontario"; "At June 1 (x 1,000)"; "12"];
   ["2020"; "Ontario"; "At June 1 (x 1,000)"; ".."]].

Definition marker_text : string := write_rows marker_rows.

Definition marker_table : table :=
  mkTable ["Ref_Date"; "GEO"; "DATE"; "Value"]
    (mkFrame (mkSchema DInt64 DObject)
       [mkRow (Some "Ontario") (Some "At June 1 (x 1,000)") (RInt 2019) (CStr "12");
        mkRow (Some "Ontario") (Some "At June 1 (x 1,000)") (RInt 2020) (CStr "..")]).

Lemma read_marker_text : read_text marker_text = Some (Ok marker_table).
Proof. vm_compute. reflexivity. Qed.

Lemma read_text_wf_witness :
  read_text marker_text = Some (Ok marker_table) /\ frame_wf (tframe marker_table) = true.
Proof. split; [exact read_marker_text | apply (read_text_wf marker_text), read_marker_text]. Defined.

(** The text Python prints for the one Std of the scenario, the square
    root of 2,000,000. *)
Definition scenario_repr (q : Q) : string :=
  if Qeq_bool q 2000000 then "1414.213562373095" else "nan".

Lemma read_summary_csv_witness :
  Forall (fun r => chars_all text_char (Province r) = true /\
                   chars_all text_char (std_field scenario_repr (Std r)) = true) scenario_sd /\
  read_text (summary_csv scenario_repr scenario_sd) = Some (Ok (summary_table scenario_sd)).
Proof.
  assert (H : Forall (fun r => chars_all text_char (Province r) = true /\
                               chars_all text_char (std_field scenario_repr (Std r)) = true) scenario_sd)
    by (repeat constructor).
  split; [exact H | apply (read_summary_csv scenario_repr scenario_sd H)].
Defined.

(** Three June lines of Ontario, the second without its year. *)
Definition missing_year_data : list (list string) :=
  [["2019"; "Ontario"; "At June 1 (x 1,000)"; "12"];
   [""; "Ontario"; "At June 1 (x 1,000)"; "13"];
   ["2021"; "Ontario"; "At June 1 (x 1,000)"; "14"]].

Definition missing_year_text : string :=
  write_rows (["Ref_Date"; "GEO"; "DATE"; "Value"] :: missing_year_data).

Definition missing_year_table : table :=
  mkTable ["Ref_Date"; "GEO"; "DATE"; "Value"]
    (mkFrame (mkSchema DFloat64 DInt64)
       [mkRow (Some "Ontario") (Some "At June 1 (x 1,000)") (RFloat 2019) (CInt 12);
        mkRow (Some "Ontario") (Some "At June 1 (x 1,000)") RNaN (CInt 13);
        mkRow (Some "Ontario") (Some "At June 1 (x 1,000)") (RFloat 2021) (CInt 14)]).

Lemma read_missing_year_witness :
  read_text missing_year_text = Some (Ok missing_year_table) /\
  ref_t (fschema (tframe missing_year_table)) = DFloat64 /\
  map (fun r => astype_str_cell (Ref_Date r)) (frows (tframe missing_year_table)) =
  [RStr "2019.0"; RStr "nan"; RStr "2021.0"].
Proof.
  assert (Hs : read_text missing_year_text = Some (Ok missing_year_table)) by (vm_compute; reflexivity).
  destruct (read_missing_year missing_year_text missing_year_table ["Ref_Date"; "GEO"; "DATE"; "Value"]
              missing_year_data Hs) as [H1 H2];
    [vm_compute; reflexivity | simpl; auto | vm_compute; reflexivity | vm_compute; reflexivity |].
  split; [exact Hs|]. split; [exact H1|]. rewrite H2. vm_compute. reflexivity.
Defined.

(** The same two lines with Windows line ends. *)
Lemma read_text_crlf_witness :
  Forall (Forall (fun f => chars_all text_char f = true)) marker_rows /\
  read_text (write_rows_term linesep_windows marker_rows) = Some (Ok marker_table).
Proof.
  assert (H : Forall (Forall (fun f => chars_all text_char f = true)) marker_rows) by (repeat constructor).
  split; [exact H|]. rewrite (read_text_crlf marker_rows H). exact read_marker_text.
Defined.
