(* ===== verification/Charts.v ===== *)
(** The two altair charts of [generate_figures.py] (lines 35-43 and
    57-62) as the chart specifications the script builds.

    [alt.Chart(data).mark_line().encode(x=..., y=...).properties(title=...)]
    is a unit chart; [.facet('GEO:N', columns=3)] wraps it in a facet chart
    that takes over the data.  Rendering is altair's and vl-convert's
    business and is not modelled: [chart.save(..., scale_factor=2.0)]
    stores the specification and the scale factor. *)

From Stdlib Require Import List String QArith.
From S2P Require Import Prelude Frame Preprocess Sorting Summary.
Import ListNotations.

Open Scope string_scope.

(** Vega-Lite field types: the [:T], [:Q] and [:N] suffixes. *)
Inductive vl_type : Type :=
| Temporal
| Quantitative
| Nominal.

Inductive mark : Type :=
| MarkLine.

Record encoding : Type := mkEnc {
  enc_field : string;
  enc_type : vl_type;
  enc_title : string
}.

Record unit_chart : Type := mkUnit {
  udata : option frame;
  umark : mark;
  ux : encoding;
  uy : encoding;
  utitle : string
}.

Inductive chart : Type :=
| UnitChart (u : unit_chart)
| FacetChart (data : frame) (spec : unit_chart) (field : string) (ftype : vl_type)
             (columns : nat).

(** [alt.X('Ref_Date:T', title="Year")]. *)
Definition x_year : encoding := mkEnc "Ref_Date" Temporal "Year".

(** [alt.Y('Value:Q', title="Number of horses")]. *)
Definition y_horses : encoding := mkEnc "Value" Quantitative "Number of horses".

(** Lines 35-43. *)
Definition horse_pops_chart (hp : frame) : chart :=
  FacetChart hp
    (mkUnit None MarkLine x_year y_horses
            "Historical number of horses per province in Canada")
    "GEO" Nominal 3.

(** Lines 57-62; the f-string of line 61. *)
Definition largest_sd_chart (data : frame) (prov : string) : chart :=
  UnitChart (mkUnit (Some data) MarkLine x_year y_horses
                    ("Historical number of horses in " ++ prov)).

(** The data a chart is drawn from. *)
Definition chart_data (c : chart) : option frame :=
  match c with
  | UnitChart u => udata u
  | FacetChart d _ _ _ _ => Some d
  end.

Definition chart_title (c : chart) : string :=
  match c with
  | UnitChart u => utitle u
  | FacetChart _ u _ _ _ => utitle u
  end.

Section SecondChart.
Context `{Argsort}.

Lemma largest_sd_prov_in_frame f sd p :
  horses_sd f = Some sd -> largest_sd_prov sd = Some p ->
  exists r, In r (frows f) /\ GEO r = Some p.
Proof.
  intros Hsd Hp. destruct sd as [|r0 rest]; [discriminate|]. injection Hp as <-.
  assert (Hin : In (Province r0) (group_keys (frows f))).
  { apply (Permutation.Permutation_in _ (Permutation.Permutation_sym (horses_sd_perm f _ Hsd))).
    left. reflexivity. }
  apply group_keys_in, in_map_iff in Hin as (r & Hr & Hrin). eauto.
Qed.

(** C18: The second chart (lines 55-62) is drawn from a non-empty frame
    that holds exactly the rows of the filtered frame whose GEO is the
    selected province, and its title names that province. *)
Theorem largest_sd_chart_data f sd p :
  horses_sd f = Some sd -> largest_sd_prov sd = Some p ->
  exists d, chart_data (largest_sd_chart (horse_pop_largest_sd f p) p) = Some d /\
            frows d <> [] /\
            (forall r, In r (frows d) <-> In r (frows f) /\ GEO r = Some p) /\
            chart_title (largest_sd_chart (horse_pop_largest_sd f p) p) =
              "Historical number of horses in " ++ p.
Proof.
  intros Hsd Hp. exists (horse_pop_largest_sd f p). split; [reflexivity|].
  assert (Hmem : forall r, In r (frows (horse_pop_largest_sd f p)) <->
                           In r (frows f) /\ GEO r = Some p).
  { intros r. simpl. rewrite filter_In, obj_eqb_true. reflexivity. }
  split; [|split; [exact Hmem | reflexivity]].
  destruct (largest_sd_prov_in_frame f sd p Hsd Hp) as (r & Hr & Hg).
  intros Hnil. assert (Hd : In r (frows (horse_pop_largest_sd f p))) by (apply Hmem; split; assumption).
  rewrite Hnil in Hd. contradiction.
Qed.

End SecondChart.

#[local] Existing Instance stable_argsort.

Lemma largest_sd_chart_data_witness :
  horses_sd (preprocess scenario_frame) = Some scenario_sd /\
  largest_sd_prov scenario_sd = Some "Ontario" /\
  exists d, chart_data (largest_sd_chart
                          (horse_pop_largest_sd (preprocess scenario_frame) "Ontario") "Ontario")
            = Some d /\ frows d <> [] /\
            (forall r, In r (frows d) <->
                       In r (frows (preprocess scenario_frame)) /\ GEO r = Some "Ontario") /\
            chart_title (largest_sd_chart
                           (horse_pop_largest_sd (preprocess scenario_frame) "Ontario") "Ontario")
            = "Historical number of horses in " ++ "Ontario".
Proof.
  split; [exact scenario_horses_sd|]. split; [reflexivity|].
  apply (largest_sd_chart_data _ scenario_sd); [exact scenario_horses_sd | reflexivity].
Defined.
