(* ===== verification/FileSystem.v ===== *)
(** The filesystem as the script sees it: the Directory Ensurer
    [create_dir_if_not_exists] (lines 16-18), and the file operations the
    libraries perform for it: [pd.read_csv] opening its input (line 28),
    [chart.save] and [to_csv] writing their outputs (lines 45, 50, 64).

    The state is a [gmap] from paths (lists of components, relative to the
    working directory, which is the empty path) to entries, a directory or
    a file.  [resolve_dir] walks a path from the root as the kernel does,
    stopping at the first component that is missing or is a file; the
    [os] functions raise the exception CPython raises in each case.
    [fs_wf] says every entry hangs below directories; every operation
    preserves it. *)

From Stdlib Require Import List Bool String QArith.
From stdpp Require Import base gmap strings.
From S2P Require Import Prelude Frame Summary Csv CsvRead Charts.
Import ListNotations.
Open Scope list_scope.

Abbreviation path := (list string).

(** What a file holds: an input table, a text that pandas' parser
    rejects (with the error [CsvRead.read_text] gives it), the summary
    written by [to_csv], or a chart written by [chart.save] with its
    scale factor. *)
Inductive contents : Type :=
| FTable (t : table)
| FRejected (e : read_error)
| FSummary (sd : list srow)
| FImage (c : chart) (scale : Q).

Inductive entry : Type :=
| EDir
| EFile (c : contents).

Abbreviation fs := (gmap path entry).

(** The exceptions the script can raise.  [UnicodeDecodeError] is
    pandas' C parser failing on the bytes of a PNG chart given as input;
    [UndefinedVariableError] is a name of the query of line 29 that is
    not a column; [KeyError] is a column lookup [df[c]] of lines 30-32 on
    a missing column; [OSError] is the plain [OSError] that pandas raises
    for a missing output directory; [ReadError] is the [ParserError] or
    [EmptyDataError] of [pandas.errors] that the parser raises;
    [ValueError] is [float()] rejecting a string of the Value column when
    line 49 casts it to float64; [IndexError] is [iloc[0]] on an empty
    summary. *)
Inductive exn : Type :=
| FileExistsError (p : path)
| FileNotFoundError (p : path)
| NotADirectoryError (p : path)
| IsADirectoryError (p : path)
| UnicodeDecodeError (p : path)
| UndefinedVariableError (name : string)
| KeyError (key : string)
| OSError (p : path)
| ReadError (e : read_error)
| ValueError
| IndexError.

Abbreviation io A := (st fs exn A).

(** Result of walking the directories of a path. *)
Inductive dir_status : Type :=
| DirOk
| DirMissing
| DirNotDir.

#[export] Instance dir_status_eq_dec : EqDecision dir_status.
Proof. solve_decision. Defined.

Fixpoint walk (s : fs) (pre rest : path) : dir_status :=
  match rest with
  | [] => DirOk
  | c :: rest' =>
      match s !! (pre ++ [c])%list with
      | Some EDir => walk s (pre ++ [c])%list rest'
      | Some (EFile _) => DirNotDir
      | None => DirMissing
      end
  end.

(** Whether every component of [d] is a directory. *)
Definition resolve_dir (s : fs) (d : path) : dir_status := walk s [] d.

(** [os.path.exists]: the working directory exists; any other path exists
    when its parent resolves and it has an entry. *)
Definition path_exists (s : fs) (p : path) : bool :=
  match p with
  | [] => true
  | _ =>
      match resolve_dir s (removelast p), s !! p with
      | DirOk, Some _ => true
      | _, _ => false
      end
  end.

(** [os.mkdir]. *)
Definition os_mkdir (p : path) : io unit := fun s =>
  match p with
  | [] => (Raise (FileExistsError p), s)
  | _ =>
      match resolve_dir s (removelast p) with
      | DirMissing => (Raise (FileNotFoundError p), s)
      | DirNotDir => (Raise (NotADirectoryError p), s)
      | DirOk =>
          match s !! p with
          | Some _ => (Raise (FileExistsError p), s)
          | None => (Ok tt, <[p := EDir]> s)
          end
      end
  end.

(** [try: ... except FileExistsError: pass]. *)
Definition catch_exists (m : io unit) : io unit := fun s =>
  match m s with
  | (Raise (FileExistsError _), s') => (Ok tt, s')
  | r => r
  end.

(** [os.makedirs(name)] with [exist_ok=False], on the reversed path:
    create the parent when it is missing (ignoring [FileExistsError]),
    then [mkdir] the path itself. *)
Fixpoint makedirs_rev (rp : list string) : io unit :=
  match rp with
  | [] => os_mkdir []
  | t :: rhead =>
      bind (fun s =>
              match rhead with
              | [] => (Ok tt, s)
              | _ => if path_exists s (rev rhead) then (Ok tt, s)
                     else catch_exists (makedirs_rev rhead) s
              end)
           (fun _ => os_mkdir (rev rp))
  end.

Definition os_makedirs (p : path) : io unit := makedirs_rev (rev p).

(** Lines 16-18. *)
Definition create_dir_if_not_exists (d : path) : io unit := fun s =>
  if path_exists s d then (Ok tt, s) else os_makedirs d s.

(** [open(p, 'w')] and a write, as [to_csv] and [chart.save] do. *)
Definition write_file (p : path) (c : contents) : io unit := fun s =>
  match p with
  | [] => (Raise (IsADirectoryError p), s)
  | _ =>
      match resolve_dir s (removelast p) with
      | DirMissing => (Raise (FileNotFoundError p), s)
      | DirNotDir => (Raise (NotADirectoryError p), s)
      | DirOk =>
          match s !! p with
          | Some EDir => (Raise (IsADirectoryError p), s)
          | _ => (Ok tt, <[p := EFile c]> s)
          end
      end
  end.

(** What [pd.read_csv] makes of the bytes of a file: a table as
    [CsvRead.read_text] reads it, or the parser's error; the summary that
    [to_csv] wrote, whose reading [CsvRead.read_summary_csv] computes; a
    PNG chart, which is not UTF-8. *)
Definition read_contents (p : path) (c : contents) : outcome exn table :=
  match c with
  | FTable t => Ok t
  | FRejected e => Raise (ReadError e)
  | FSummary sd => Ok (summary_table sd)
  | FImage _ _ => Raise (UnicodeDecodeError p)
  end.

(** [pd.read_csv(p)] (line 28). *)
Definition read_csv (p : path) : io table := fun s =>
  match p with
  | [] => (Raise (IsADirectoryError p), s)
  | _ =>
      match resolve_dir s (removelast p) with
      | DirMissing => (Raise (FileNotFoundError p), s)
      | DirNotDir => (Raise (NotADirectoryError p), s)
      | DirOk =>
          match s !! p with
          | Some (EFile c) => (read_contents p c, s)
          | Some EDir => (Raise (IsADirectoryError p), s)
          | None => (Raise (FileNotFoundError p), s)
          end
      end
  end.

(** The filesystem invariant: every entry has a non-empty path whose
    parent resolves to directories. *)
Definition fs_wf (s : fs) : Prop :=
  forall p e, s !! p = Some e -> p <> [] /\ resolve_dir s (removelast p) = DirOk.

(** ** Walking paths *)

Lemma walk_app s pre l1 l2 :
  walk s pre (l1 ++ l2) =
  match walk s pre l1 with
  | DirOk => walk s (pre ++ l1) l2
  | st => st
  end.
Proof.
  revert pre. induction l1 as [|c l1 IH]; intros pre; simpl.
  - rewrite app_nil_r. reflexivity.
  - destruct (s !! (pre ++ [c])) as [[|]|]; [|reflexivity|reflexivity].
    rewrite IH, <- app_assoc. reflexivity.
Qed.

Lemma resolve_dir_snoc s h c :
  resolve_dir s (h ++ [c]) =
  match resolve_dir s h with
  | DirOk =>
      match s !! (h ++ [c]) with
      | Some EDir => DirOk
      | Some (EFile _) => DirNotDir
      | None => DirMissing
      end
  | st => st
  end.
Proof.
  unfold resolve_dir. rewrite walk_app. destruct (walk s [] h); reflexivity.
Qed.

(** Writing at a path that is not a directory leaves every resolved
    directory chain resolved. *)
Lemma walk_insert_nondir s p e pre rest :
  s !! p <> Some EDir -> walk s pre rest = DirOk -> walk (<[p := e]> s) pre rest = DirOk.
Proof.
  intros Hp. revert pre. induction rest as [|c rest IH]; intros pre Hw; simpl in *; [reflexivity|].
  destruct (s !! (pre ++ [c])) as [[|]|] eqn:Hc; try discriminate.
  rewrite lookup_insert_ne by (intros Heq; rewrite <- Heq in Hc; contradiction).
  rewrite Hc. apply IH, Hw.
Qed.

Lemma resolve_insert_nondir s p e d :
  s !! p <> Some EDir -> resolve_dir s d = DirOk -> resolve_dir (<[p := e]> s) d = DirOk.
Proof. apply walk_insert_nondir. Qed.

Lemma snoc_not_nil (h : path) c : h ++ [c] <> [].
Proof. destruct h; discriminate. Qed.

Lemma removelast_snoc (h : path) c : removelast (h ++ [c]) = h.
Proof. apply removelast_last. Qed.

Lemma path_snoc (p : path) : p <> [] -> p = removelast p ++ [List.last p ""%string].
Proof. apply app_removelast_last. Qed.

(** ** The invariant *)

Lemma insert_wf s p e :
  fs_wf s -> p <> [] -> resolve_dir s (removelast p) = DirOk -> s !! p <> Some EDir ->
  fs_wf (<[p := e]> s).
Proof.
  intros Hwf Hne Hpar Hp q e' Hq. destruct (decide (p = q)) as [<-|Hpq].
  - split; [exact Hne|]. apply resolve_insert_nondir; assumption.
  - rewrite lookup_insert_ne in Hq by exact Hpq. destruct (Hwf q e' Hq) as [Hq1 Hq2].
    split; [exact Hq1|]. apply resolve_insert_nondir; assumption.
Qed.

(** An operation that keeps the invariant, whatever its outcome. *)
Definition preserves_wf {A : Type} (m : io A) : Prop :=
  forall s, fs_wf s -> fs_wf (snd (m s)).

Lemma bind_preserves_wf {A B : Type} (m : io A) (k : A -> io B) :
  preserves_wf m -> (forall a, preserves_wf (k a)) -> preserves_wf (bind m k).
Proof.
  intros Hm Hk s Hs. unfold bind. specialize (Hm s Hs).
  destruct (m s) as [[a|e] s']; simpl in *; [apply Hk, Hm | exact Hm].
Qed.

Lemma os_mkdir_wf p : preserves_wf (os_mkdir p).
Proof.
  intros s Hs. unfold os_mkdir. destruct p as [|c p]; [exact Hs|].
  destruct (resolve_dir s (removelast (c :: p))) eqn:Hr; try exact Hs.
  case_match eqn:Hl; [exact Hs|]. simpl.
  apply insert_wf; [exact Hs | discriminate | exact Hr | rewrite Hl; discriminate].
Qed.

Lemma write_file_wf p c : preserves_wf (write_file p c).
Proof.
  intros s Hs. unfold write_file. destruct p as [|x p]; [exact Hs|].
  destruct (resolve_dir s (removelast (x :: p))) eqn:Hr; try exact Hs.
  case_match eqn:Hl; [case_match; [exact Hs|]|]; simpl;
    (apply insert_wf; [exact Hs | discriminate | exact Hr | rewrite Hl; congruence]).
Qed.

Lemma makedirs_rev_wf rp : preserves_wf (makedirs_rev rp).
Proof.
  induction rp as [|t rhead IH]; [apply os_mkdir_wf|]. simpl.
  apply bind_preserves_wf; [|intros; apply os_mkdir_wf].
  intros s Hs. destruct rhead as [|x r]; [exact Hs|].
  destruct (path_exists s (rev (x :: r))); [exact Hs|].
  unfold catch_exists. specialize (IH s Hs).
  destruct (makedirs_rev (x :: r) s) as [[|[]] s']; exact IH.
Qed.

Lemma create_dir_wf d : preserves_wf (create_dir_if_not_exists d).
Proof.
  intros s Hs. unfold create_dir_if_not_exists.
  destruct (path_exists s d); [exact Hs | apply makedirs_rev_wf, Hs].
Qed.

(** [read_csv] only reads. *)
Lemma read_csv_state p s : snd (read_csv p s) = s.
Proof.
  unfold read_csv. destruct p as [|x p]; [reflexivity|].
  destruct (resolve_dir s (removelast (x :: p))); try reflexivity.
  destruct (s !! (x :: p)) as [[|]|]; reflexivity.
Qed.

Lemma read_csv_wf p : preserves_wf (read_csv p).
Proof. intros s Hs. rewrite read_csv_state. exact Hs. Qed.

Lemma ret_wf {A : Type} (a : A) : preserves_wf (ret a).
Proof. intros s Hs. exact Hs. Qed.

Lemma raise_wf {A : Type} (e : exn) : preserves_wf (A := A) (raise e).
Proof. intros s Hs. exact Hs. Qed.

#[export] Hint Resolve os_mkdir_wf write_file_wf makedirs_rev_wf create_dir_wf read_csv_wf
  ret_wf raise_wf bind_preserves_wf : horses.

(** The invariant after one run of an operation that keeps it. *)
Lemma preserves_wf_eq {A : Type} (m : io A) s r s' :
  preserves_wf m -> fs_wf s -> m s = (r, s') -> fs_wf s'.
Proof. intros Hm Hs Heq. pose proof (Hm s Hs) as H. rewrite Heq in H. exact H. Qed.

(** A write changes its own path only, whatever its outcome. *)
Lemma write_file_only p c s r s' q : write_file p c s = (r, s') -> q <> p -> s' !! q = s !! q.
Proof.
  unfold write_file. destruct p as [|x p]; [congruence|].
  destruct (resolve_dir s (removelast (x :: p))); try congruence.
  destruct (s !! (x :: p)) as [[|]|]; try congruence;
    intros [= _ <-] Hq; apply lookup_insert_ne; congruence.
Qed.

(** ** [os.mkdir] and [os.makedirs] *)

Lemma os_mkdir_ok p s :
  p <> [] -> resolve_dir s (removelast p) = DirOk -> s !! p = None ->
  os_mkdir p s = (Ok tt, <[p := EDir]> s).
Proof.
  intros Hne Hr Hl. unfold os_mkdir. destruct p as [|c p]; [congruence|].
  rewrite Hr. case_match; [congruence | reflexivity].
Qed.

Lemma path_exists_nonempty s p :
  p <> [] ->
  path_exists s p = match resolve_dir s (removelast p), s !! p with
                    | DirOk, Some _ => true
                    | _, _ => false
                    end.
Proof. destruct p; [congruence | reflexivity]. Qed.

Lemma os_mkdir_exists p s s' : os_mkdir p s = (Ok tt, s') -> path_exists s' p = true.
Proof.
  unfold os_mkdir. destruct p as [|c p]; [discriminate|].
  destruct (resolve_dir s (removelast (c :: p))) eqn:Hr; try discriminate.
  case_match eqn:Hl; [discriminate|]. intros [= <-].
  rewrite path_exists_nonempty by discriminate.
  rewrite (resolve_insert_nondir s) by (rewrite ?Hl; congruence).
  rewrite lookup_insert_eq. reflexivity.
Qed.

(** A path that does not exist has no entry, in a well-formed tree. *)
Lemma not_exists_none s p :
  fs_wf s -> path_exists s p = false -> s !! p = None.
Proof.
  intros Hwf He. destruct (s !! p) as [e|] eqn:Hl; [|reflexivity].
  destruct (Hwf p e Hl) as [Hne Hr].
  rewrite path_exists_nonempty, Hr, Hl in He by exact Hne. discriminate.
Qed.

Lemma exists_resolve s p :
  path_exists s p = true -> resolve_dir s p <> DirNotDir -> resolve_dir s p = DirOk.
Proof.
  intros He Hnd. destruct (decide (p = [])) as [->|Hne]; [reflexivity|].
  rewrite path_exists_nonempty in He by exact Hne.
  rewrite (path_snoc p Hne), resolve_dir_snoc, <- (path_snoc p Hne) in Hnd |- *.
  destruct (resolve_dir s (removelast p)); try discriminate.
  destruct (s !! p) as [[|]|]; congruence.
Qed.

Lemma resolve_parent_notdir s p :
  p <> [] -> resolve_dir s p <> DirNotDir -> resolve_dir s (removelast p) <> DirNotDir.
Proof.
  intros Hne Hnd. rewrite (path_snoc p Hne), resolve_dir_snoc in Hnd.
  destruct (resolve_dir s (removelast p)); congruence.
Qed.

(** What [os.makedirs d] does to the tree when it succeeds. *)
Definition grows_to (s s' : fs) (d : path) : Prop :=
  s' !! d = Some EDir /\ resolve_dir s' (removelast d) = DirOk /\
  (forall q, (length d < length q)%nat -> s' !! q = s !! q) /\
  (forall q e, s !! q = Some e -> s' !! q = Some e) /\
  (forall q e, s' !! q = Some e -> s !! q = Some e \/ e = EDir).

Lemma mkdir_grows s d :
  resolve_dir s (removelast d) = DirOk -> s !! d = None -> grows_to s (<[d := EDir]> s) d.
Proof.
  intros Hr Hl. split; [apply lookup_insert_eq|]. split.
  - apply resolve_insert_nondir; [rewrite Hl; discriminate | exact Hr].
  - split; [|split].
    + intros q Hq. apply lookup_insert_ne. intros <-. lia.
    + intros q e Hq. rewrite lookup_insert_ne; [exact Hq | congruence].
    + intros q e Hq. destruct (decide (d = q)) as [<-|Hdq].
      * rewrite lookup_insert_eq in Hq. right. congruence.
      * rewrite lookup_insert_ne in Hq by exact Hdq. left. exact Hq.
Qed.

Lemma makedirs_rev_ok rp s :
  rp <> [] -> fs_wf s -> s !! rev rp = None ->
  resolve_dir s (removelast (rev rp)) <> DirNotDir ->
  exists s', makedirs_rev rp s = (Ok tt, s') /\ grows_to s s' (rev rp).
Proof.
  revert s. induction rp as [|t rhead IH]; intros s Hne Hwf Hl Hnd; [congruence|].
  simpl rev in *. rewrite removelast_snoc in Hnd. simpl makedirs_rev. unfold bind.
  destruct rhead as [|x r].
  - cbv beta iota.
    rewrite os_mkdir_ok; [|apply snoc_not_nil | rewrite removelast_snoc; reflexivity | exact Hl].
    eexists. split; [reflexivity|]. apply mkdir_grows; [rewrite removelast_snoc; reflexivity | exact Hl].
  - assert (Hh : rev (x :: r) <> []) by (intros H; apply (f_equal (@length string)) in H;
                                         rewrite length_rev in H; discriminate).
    destruct (path_exists s (rev (x :: r))) eqn:He; cbv beta iota.
    + assert (Hok : resolve_dir s (rev (x :: r)) = DirOk) by (apply exists_resolve; assumption).
      rewrite os_mkdir_ok; [|apply snoc_not_nil| rewrite removelast_snoc; exact Hok | exact Hl].
      eexists. split; [reflexivity|]. apply mkdir_grows; [rewrite removelast_snoc; exact Hok | exact Hl].
    + destruct (IH s ltac:(discriminate) Hwf (not_exists_none s _ Hwf He)
                 (resolve_parent_notdir s _ Hh Hnd))
        as (s1 & Hrun & Hg1 & Hr1 & Hlen1 & Hext1 & Hnew1).
      unfold catch_exists. rewrite Hrun.
      assert (Hok : resolve_dir s1 (rev (x :: r)) = DirOk).
      { rewrite (path_snoc _ Hh), resolve_dir_snoc, <- (path_snoc _ Hh), Hr1, Hg1. reflexivity. }
      assert (Hl1 : s1 !! (rev (x :: r) ++ [t]) = None).
      { rewrite Hlen1; [exact Hl|]. rewrite length_app, !length_rev. simpl. lia. }
      rewrite os_mkdir_ok; [|apply snoc_not_nil | rewrite removelast_snoc; exact Hok | exact Hl1].
      eexists. split; [reflexivity|].
      destruct (mkdir_grows s1 (rev (x :: r) ++ [t])) as (G1 & G2 & G3 & G4 & G5);
        [rewrite removelast_snoc; exact Hok | exact Hl1 |].
      split; [exact G1|]. split; [rewrite removelast_snoc in G2 |- *; exact G2|]. split.
      * intros q Hq. rewrite G3 by exact Hq. apply Hlen1.
        rewrite length_app, !length_rev in *. simpl in *. lia.
      * split; [intros q e Hq; apply G4, Hext1, Hq|].
        intros q e Hq. destruct (G5 q e Hq) as [H|H]; [|right; exact H].
        apply Hnew1, H.
Qed.

Lemma makedirs_rev_exists rp s s' :
  makedirs_rev rp s = (Ok tt, s') -> path_exists s' (rev rp) = true.
Proof.
  destruct rp as [|t rhead]; simpl makedirs_rev; [discriminate|]. unfold bind.
  destruct (match rhead with [] => _ | _ => _ end) as [[[]|e] s1]; [|discriminate].
  apply os_mkdir_exists.
Qed.

Lemma write_file_ok p c s :
  p <> [] -> resolve_dir s (removelast p) = DirOk -> s !! p <> Some EDir ->
  write_file p c s = (Ok tt, <[p := EFile c]> s).
Proof.
  intros Hne Hr Hl. unfold write_file. destruct p as [|x p]; [congruence|].
  rewrite Hr. destruct (s !! (x :: p)) as [[|]|]; congruence.
Qed.

(** What a successful ensurer leaves: [d] resolves to directories, the
    tree is well formed and no entry that existed changed. *)
Lemma create_dir_spec s d :
  fs_wf s -> d <> [] -> resolve_dir s d <> DirNotDir ->
  exists s', create_dir_if_not_exists d s = (Ok tt, s') /\
             fs_wf s' /\ resolve_dir s' d = DirOk /\
             (forall q e, s !! q = Some e -> s' !! q = Some e) /\
             (forall q e, s' !! q = Some e -> s !! q = Some e \/ e = EDir) /\
             (forall q, (length d < length q)%nat -> s' !! q = s !! q).
Proof.
  intros Hwf Hne Hnd. unfold create_dir_if_not_exists.
  destruct (path_exists s d) eqn:He.
  - exists s. split; [reflexivity|]. split; [exact Hwf|].
    split; [apply exists_resolve; assumption | split; auto].
  - pose proof (not_exists_none s d Hwf He) as Hl.
    pose proof (resolve_parent_notdir s d Hne Hnd) as Hp.
    unfold os_makedirs. rewrite <- (rev_involutive d) in Hl, Hp.
    destruct (makedirs_rev_ok (rev d) s) as (s' & Hrun & Hg & Hr & Hlen & Hext & Hnew);
      [rewrite <- length_zero_iff_nil, length_rev, length_zero_iff_nil; exact Hne
      | exact Hwf | exact Hl | exact Hp |].
    rewrite rev_involutive in Hg, Hr. rewrite Hrun.
    exists s'. split; [reflexivity|]. split.
    + pose proof (makedirs_rev_wf (rev d) s Hwf) as Hw. rewrite Hrun in Hw. exact Hw.
    + split; [|split; [exact Hext | split; [exact Hnew|]]].
      * rewrite (path_snoc d Hne), resolve_dir_snoc, <- (path_snoc d Hne), Hr, Hg. reflexivity.
      * rewrite ?rev_involutive, ?length_rev in Hlen. exact Hlen.
Qed.

Lemma walk_ext s s' pre rest :
  (forall q e, s !! q = Some e -> s' !! q = Some e) ->
  walk s pre rest = DirOk -> walk s' pre rest = DirOk.
Proof.
  intros Hext. revert pre. induction rest as [|c rest IH]; intros pre Hw; simpl in *; [reflexivity|].
  destruct (s !! (pre ++ [c])) as [[|]|] eqn:Hc; try discriminate.
  rewrite (Hext _ _ Hc). apply IH, Hw.
Qed.

Lemma resolve_ext s s' d :
  (forall q e, s !! q = Some e -> s' !! q = Some e) ->
  resolve_dir s d = DirOk -> resolve_dir s' d = DirOk.
Proof. apply walk_ext. Qed.

Lemma write_file_ok_inv p c s s' :
  write_file p c s = (Ok tt, s') ->
  p <> [] /\ resolve_dir s (removelast p) = DirOk /\ s !! p <> Some EDir /\
  s' = <[p := EFile c]> s.
Proof.
  unfold write_file. destruct p as [|x p]; [discriminate|].
  destruct (resolve_dir s (removelast (x :: p))); try discriminate.
  destruct (s !! (x :: p)) as [[|]|] eqn:Hl; try discriminate;
    intros [= <-]; repeat split; congruence.
Qed.

Lemma write_file_same p c s :
  p <> [] -> resolve_dir s (removelast p) = DirOk -> s !! p = Some (EFile c) ->
  write_file p c s = (Ok tt, s).
Proof.
  intros Hne Hr Hl. rewrite write_file_ok by (rewrite ?Hl; congruence).
  rewrite insert_id by exact Hl. reflexivity.
Qed.

Lemma write_resolve p c s s' d :
  write_file p c s = (Ok tt, s') -> resolve_dir s d = DirOk -> resolve_dir s' d = DirOk.
Proof.
  intros (_ & _ & Hl & ->)%write_file_ok_inv. apply resolve_insert_nondir, Hl.
Qed.

Lemma write_lookup_ne p c s s' q :
  write_file p c s = (Ok tt, s') -> p <> q -> s' !! q = s !! q.
Proof. intros (_ & _ & _ & ->)%write_file_ok_inv Hpq. apply lookup_insert_ne, Hpq. Qed.

Lemma write_path_exists p c s s' d :
  write_file p c s = (Ok tt, s') -> p <> d -> path_exists s d = true -> path_exists s' d = true.
Proof.
  intros Hw Hpd He. destruct (decide (d = [])) as [->|Hne]; [reflexivity|].
  rewrite path_exists_nonempty in He |- * by exact Hne.
  rewrite (write_lookup_ne p c s s' d Hw Hpd).
  destruct (resolve_dir s (removelast d)) eqn:Hr; try discriminate.
  rewrite (write_resolve p c s s' _ Hw Hr). exact He.
Qed.

Lemma read_csv_ok_inv p s t s' :
  read_csv p s = (Ok t, s') ->
  s' = s /\ p <> [] /\ resolve_dir s (removelast p) = DirOk /\
  exists c, s !! p = Some (EFile c) /\ read_contents p c = Ok t.
Proof.
  unfold read_csv. destruct p as [|x p]; [discriminate|].
  destruct (resolve_dir s (removelast (x :: p))); try discriminate.
  destruct (s !! (x :: p)) as [[|c]|]; try discriminate.
  destruct (read_contents _ c) eqn:E; intros [= <- <-]. repeat split; eauto; congruence.
Qed.

Lemma create_dir_exists_after d s s' :
  create_dir_if_not_exists d s = (Ok tt, s') -> path_exists s' d = true.
Proof.
  unfold create_dir_if_not_exists. destruct (path_exists s d) eqn:He.
  - intros [= <-]. exact He.
  - unfold os_makedirs. intros Hrun. apply makedirs_rev_exists in Hrun.
    rewrite rev_involutive in Hrun. exact Hrun.
Qed.

(** ** What the ensurer may change *)

Lemma catch_exists_state (m : io unit) s : snd (catch_exists m s) = snd (m s).
Proof. unfold catch_exists. destruct (m s) as [[|[]] s']; reflexivity. Qed.

Lemma os_mkdir_only p s r s' q : os_mkdir p s = (r, s') -> q <> p -> s' !! q = s !! q.
Proof.
  unfold os_mkdir. destruct p as [|c p]; [congruence|].
  destruct (resolve_dir s (removelast (c :: p))); try congruence.
  destruct (s !! (c :: p)); [congruence|]. intros [= _ <-] Hq.
  apply lookup_insert_ne. congruence.
Qed.

(** [os.makedirs d] creates nothing but ancestors of [d] and [d]. *)
Lemma makedirs_rev_only rp : forall s r s' q,
  makedirs_rev rp s = (r, s') -> ~ q `prefix_of` rev rp -> s' !! q = s !! q.
Proof.
  induction rp as [|t rhead IH]; intros s r s' q Hrun Hq; simpl makedirs_rev in Hrun.
  - injection Hrun as _ <-. reflexivity.
  - unfold bind in Hrun. simpl rev in Hq.
    assert (Hq' : ~ q `prefix_of` rev rhead) by (intros H; apply Hq, prefix_app_r, H).
    assert (Hm : forall r1 s1, match rhead with
                               | [] => (Ok tt, s)
                               | _ => if path_exists s (rev rhead) then (Ok tt, s)
                                      else catch_exists (makedirs_rev rhead) s
                               end = (r1, s1) -> s1 !! q = s !! q).
    { intros r1 s1 Hm. destruct rhead as [|x r']; [congruence|].
      destruct (path_exists s (rev (x :: r'))); [congruence|].
      pose proof (catch_exists_state (makedirs_rev (x :: r')) s) as Hc. rewrite Hm in Hc.
      destruct (makedirs_rev (x :: r') s) as [r2 s2] eqn:E. cbn [snd] in Hc. subst s2.
      exact (IH s r2 s1 q E Hq'). }
    destruct (match rhead with [] => _ | _ => _ end) as [[[]|e] s1] eqn:Em.
    + rewrite (os_mkdir_only _ _ _ _ _ Hrun). 2: { intros ->. apply Hq. reflexivity. }
      exact (Hm _ _ eq_refl).
    + injection Hrun as _ <-. exact (Hm _ _ eq_refl).
Qed.

Lemma create_dir_only d s r s' q :
  create_dir_if_not_exists d s = (r, s') -> ~ q `prefix_of` d -> s' !! q = s !! q.
Proof.
  unfold create_dir_if_not_exists. destruct (path_exists s d); [congruence|].
  unfold os_makedirs. intros Hrun Hq. apply (makedirs_rev_only _ _ _ _ _ Hrun).
  rewrite rev_involutive. exact Hq.
Qed.

(** ** A blocked ensurer *)

Lemma os_mkdir_notdir p s :
  p <> [] -> resolve_dir s (removelast p) = DirNotDir ->
  os_mkdir p s = (Raise (NotADirectoryError p), s).
Proof. intros Hne Hr. unfold os_mkdir. destruct p; [congruence|]. rewrite Hr. reflexivity. Qed.

Lemma notdir_missing_parent s h :
  h <> [] -> resolve_dir s h = DirNotDir -> path_exists s h = false ->
  resolve_dir s (removelast h) = DirNotDir.
Proof.
  intros Hne Hr He. rewrite path_exists_nonempty in He by exact Hne.
  rewrite (path_snoc h Hne), resolve_dir_snoc, <- (path_snoc h Hne) in Hr.
  destruct (resolve_dir s (removelast h)); [|discriminate|reflexivity].
  destruct (s !! h) as [[|]|]; discriminate.
Qed.

(** When a proper ancestor is a file, [os.makedirs] raises
    [NotADirectoryError] before creating anything. *)
Lemma makedirs_rev_blocked rp s :
  resolve_dir s (removelast (rev rp)) = DirNotDir ->
  exists p, makedirs_rev rp s = (Raise (NotADirectoryError p), s).
Proof.
  induction rp as [|t rhead IH]; intros H; [discriminate|].
  simpl rev in H. rewrite removelast_snoc in H. simpl makedirs_rev. unfold bind.
  destruct rhead as [|x r]; [discriminate|].
  assert (Hh : rev (x :: r) <> []) by (simpl; apply snoc_not_nil).
  destruct (path_exists s (rev (x :: r))) eqn:He; cbv beta iota.
  - exists (rev (t :: x :: r)). apply os_mkdir_notdir; [simpl; apply snoc_not_nil|].
    simpl rev. rewrite removelast_snoc. exact H.
  - destruct (IH (notdir_missing_parent s _ Hh H He)) as (p & Hp).
    unfold catch_exists. rewrite Hp. eauto.
Qed.

Lemma create_dir_notdir s d :
  d <> [] -> resolve_dir s (removelast d) = DirNotDir ->
  exists p, create_dir_if_not_exists d s = (Raise (NotADirectoryError p), s).
Proof.
  intros Hne Hr. unfold create_dir_if_not_exists.
  rewrite path_exists_nonempty, Hr by exact Hne. cbv iota.
  unfold os_makedirs. apply makedirs_rev_blocked. rewrite rev_involutive. exact Hr.
Qed.

(** ** The Directory Ensurer *)

(** When no component of [d] is a regular file, lines 16-18 return
    normally; afterwards [d] exists as a directory ([os.path.isdir]), the
    tree is still well formed, every entry that existed is unchanged, and
    every new entry is a directory. *)
Theorem create_dir_ok s d :
  fs_wf s -> d <> [] -> resolve_dir s d <> DirNotDir ->
  exists s', create_dir_if_not_exists d s = (Ok tt, s') /\
             fs_wf s' /\ path_exists s' d = true /\ s' !! d = Some EDir /\
             (forall q e, s !! q = Some e -> s' !! q = Some e) /\
             (forall q e, s' !! q = Some e -> s !! q = Some e \/ e = EDir).
Proof.
  intros Hwf Hne Hnd.
  destruct (create_dir_spec s d Hwf Hne Hnd) as (s' & Hrun & Hw & Hr & Hext & Hnew & _).
  exists s'. split; [exact Hrun|]. split; [exact Hw|].
  rewrite (path_snoc d Hne), resolve_dir_snoc, <- (path_snoc d Hne) in Hr.
  rewrite path_exists_nonempty by exact Hne.
  destruct (resolve_dir s' (removelast d)); try discriminate.
  destruct (s' !! d) as [[|]|]; try discriminate. auto.
Qed.

(** Lines 16-18 are idempotent: once they have returned normally, a
    second call returns normally and changes nothing. *)
Theorem create_dir_idempotent s s' d :
  create_dir_if_not_exists d s = (Ok tt, s') ->
  create_dir_if_not_exists d s' = (Ok tt, s').
Proof.
  intros Hrun. unfold create_dir_if_not_exists.
  rewrite (create_dir_exists_after d s s' Hrun). reflexivity.
Qed.

(** C33: When [out_dir] exists as a regular file, lines 16-18 do nothing
    and report success, and every later write into it raises
    [NotADirectoryError]. *)
Theorem create_dir_on_file s d c :
  d <> [] -> resolve_dir s (removelast d) = DirOk -> s !! d = Some (EFile c) ->
  create_dir_if_not_exists d s = (Ok tt, s) /\
  forall name c', write_file (d ++ [name]) c' s = (Raise (NotADirectoryError (d ++ [name])), s).
Proof.
  intros Hne Hr Hl. unfold create_dir_if_not_exists.
  rewrite path_exists_nonempty, Hr, Hl by exact Hne. split; [reflexivity|].
  intros name c'. unfold write_file. destruct (d ++ [name]) eqn:E; [exfalso; revert E; apply snoc_not_nil|].
  rewrite <- E, removelast_snoc.
  rewrite (path_snoc d Hne), resolve_dir_snoc, <- (path_snoc d Hne), Hr, Hl. reflexivity.
Qed.

(** ** The contract of the Directory Ensurer

    The specification's contract (section 4.1): afterwards the path
    exists; if it existed nothing changed; nothing that existed is lost;
    and what is new are directories on the way to the path. *)
Definition ensure_spec (d : path) (s s' : fs) : Prop :=
  path_exists s' d = true /\
  (path_exists s d = true -> s' = s) /\
  (forall q e, s !! q = Some e -> s' !! q = Some e) /\
  (forall q e, s' !! q = Some e -> s !! q = Some e \/ (e = EDir /\ q `prefix_of` d)).

Lemma missing_not_notdir s d :
  d <> [] -> path_exists s d = false -> resolve_dir s (removelast d) <> DirNotDir ->
  resolve_dir s d <> DirNotDir.
Proof.
  intros Hne He Hp. rewrite path_exists_nonempty in He by exact Hne.
  rewrite (path_snoc d Hne), resolve_dir_snoc, <- (path_snoc d Hne).
  destruct (resolve_dir s (removelast d)); try congruence.
  destruct (s !! d) as [[|]|]; congruence.
Qed.

(** C16: Lines 16-18 refine the contract: from a well-formed tree they
    either return normally in a state the contract allows, or raise
    [NotADirectoryError] without changing anything, and then only
    because a proper ancestor of the path is a regular file. *)
Theorem create_dir_refines s d :
  fs_wf s -> d <> [] ->
  match create_dir_if_not_exists d s with
  | (Ok _, s') => ensure_spec d s s'
  | (Raise e, s') =>
      s' = s /\ resolve_dir s (removelast d) = DirNotDir /\ exists p, e = NotADirectoryError p
  end.
Proof.
  intros Hwf Hne. destruct (path_exists s d) eqn:He.
  - unfold create_dir_if_not_exists. rewrite He.
    split; [exact He|]. split; [reflexivity|]. split; [auto|]. intros q e Hq. left. exact Hq.
  - destruct (decide (resolve_dir s (removelast d) = DirNotDir)) as [Hr|Hr].
    + destruct (create_dir_notdir s d Hne Hr) as (p & ->). eauto.
    + destruct (create_dir_spec s d Hwf Hne (missing_not_notdir s d Hne He Hr))
        as (s' & Hrun & _ & _ & Hext & Hnew & _).
      rewrite Hrun. split; [exact (create_dir_exists_after _ _ _ Hrun)|].
      split; [congruence|]. split; [exact Hext|].
      intros q e Hq. destruct (decide (q `prefix_of` d)) as [Hp|Hp].
      * destruct (Hnew q e Hq) as [H|H]; [left; exact H | right; split; assumption].
      * left. rewrite <- (create_dir_only _ _ _ _ _ Hrun Hp). exact Hq.
Qed.

(** ** A decision procedure for the invariant, for concrete trees *)

Definition fs_wfb (s : fs) : bool :=
  forallb (fun pe => match fst pe with
                     | [] => false
                     | _ => bool_decide (resolve_dir s (removelast (fst pe)) = DirOk)
                     end)
          (map_to_list s).

Lemma fs_wfb_sound s : fs_wfb s = true -> fs_wf s.
Proof.
  unfold fs_wfb. rewrite forallb_forall. intros H p e Hl.
  apply elem_of_map_to_list, list_elem_of_In in Hl. specialize (H _ Hl). simpl in H.
  destruct p as [|c p]; [discriminate|]. split; [discriminate|].
  apply bool_decide_eq_true in H. exact H.
Qed.

(** ** Witnesses *)

Definition input_path : path := ["data"; "horses.csv"].
Definition results_dir : path := ["results"; "figures"].

(** The columns of the Statistics Canada table the script is run on. *)
Definition input_cols : list string := ["Ref_Date"; "GEO"; "DATE"; "Vector"; "Coordinate"; "Value"].

Definition fs_input : fs :=
  <[["data"] := EDir]>
  (<[input_path := EFile (FTable (mkTable input_cols Preprocess.scenario_frame))]> ∅).

Definition fs_file_out : fs := <[["results"] := EFile (FSummary [])]> fs_input.

Lemma create_dir_ok_witness :
  fs_wf fs_input /\ results_dir <> [] /\ resolve_dir fs_input results_dir <> DirNotDir /\
  exists s', create_dir_if_not_exists results_dir fs_input = (Ok tt, s') /\
             fs_wf s' /\ path_exists s' results_dir = true /\ s' !! results_dir = Some EDir /\
             (forall q e, fs_input !! q = Some e -> s' !! q = Some e) /\
             (forall q e, s' !! q = Some e -> fs_input !! q = Some e \/ e = EDir).
Proof.
  assert (Hwf : fs_wf fs_input) by (apply fs_wfb_sound; vm_compute; reflexivity).
  assert (Hne : results_dir <> []) by discriminate.
  assert (Hnd : resolve_dir fs_input results_dir <> DirNotDir) by (vm_compute; discriminate).
  split; [exact Hwf|]. split; [exact Hne|]. split; [exact Hnd|].
  apply (create_dir_ok fs_input results_dir Hwf Hne Hnd).
Defined.

Definition fs_created : fs :=
  <[results_dir := EDir]> (<[["results"] := EDir]> fs_input).

Lemma create_dir_idempotent_witness :
  create_dir_if_not_exists results_dir fs_input = (Ok tt, fs_created) /\
  create_dir_if_not_exists results_dir fs_created = (Ok tt, fs_created).
Proof.
  assert (H : create_dir_if_not_exists results_dir fs_input = (Ok tt, fs_created))
    by reflexivity.
  split; [exact H | apply (create_dir_idempotent fs_input), H].
Defined.

Lemma create_dir_on_file_witness :
  ["results"] <> [] /\ resolve_dir fs_file_out (removelast ["results"]) = DirOk /\
  fs_file_out !! ["results"] = Some (EFile (FSummary [])) /\
  create_dir_if_not_exists ["results"] fs_file_out = (Ok tt, fs_file_out) /\
  forall name c', write_file (["results"] ++ [name]) c' fs_file_out =
                  (Raise (NotADirectoryError (["results"] ++ [name])), fs_file_out).
Proof.
  assert (H1 : ["results"] <> []) by discriminate.
  assert (H2 : resolve_dir fs_file_out (removelast ["results"]) = DirOk) by reflexivity.
  assert (H3 : fs_file_out !! ["results"] = Some (EFile (FSummary []))) by (vm_compute; reflexivity).
  split; [exact H1|]. split; [exact H2|]. split; [exact H3|].
  apply (create_dir_on_file fs_file_out ["results"] (FSummary []) H1 H2 H3).
Defined.

Lemma create_dir_refines_witness :
  fs_wf fs_input /\ results_dir <> [] /\ ensure_spec results_dir fs_input fs_created.
Proof.
  assert (Hwf : fs_wf fs_input) by (apply fs_wfb_sound; vm_compute; reflexivity).
  assert (Hne : results_dir <> []) by discriminate.
  split; [exact Hwf|]. split; [exact Hne|].
  pose proof (create_dir_refines fs_input results_dir Hwf Hne) as H.
  assert (E : create_dir_if_not_exists results_dir fs_input = (Ok tt, fs_created)) by reflexivity.
  rewrite E in H. exact H.
Defined.
