(* ===== verification/Pipeline.v ===== *)
(** The command [main(input_dir, out_dir)] of [generate_figures.py]
    (lines 21-64) as a sequence of steps in the Python-exception state
    monad over the filesystem: ensure the output directory, read the
    input, pre-process, save the faceted chart, aggregate, write the
    summary, select the first province, save its chart.  An exception
    stops the sequence and keeps the files already written. *)

From Stdlib Require Import List String QArith Lia.
From stdpp Require Import base gmap strings.
From S2P Require Import Prelude Frame PyFloat Preprocess Sorting Summary Csv CsvRead Charts FileSystem.
Import ListNotations.
Open Scope list_scope.
Open Scope horses_scope.

(** Two output paths with different file names differ. *)
Ltac out_ne := let H := fresh in intros H; apply app_inv_head in H; discriminate.

Section Pipeline.
Context `{AS : Argsort}.

Definition plot_name : string := "horse_pops_plot.png".
Definition csv_name : string := "horses_sd.csv".
Definition plot2_name : string := "horse_pops_plot_largest_sd.png".

(** [scale_factor=2.0]. *)
Definition scale : Q := 2.

(** [chart.save(path, scale_factor=2.0)]. *)
Definition chart_save (p : path) (c : chart) : io unit := write_file p (FImage c scale).

(** [horses_sd.to_csv(path, index=False)]: pandas first checks that the
    parent is a directory ([check_parent_directory], which raises a plain
    [OSError] naming the parent), then opens the file for writing. *)
Definition to_csv (p : path) (sd : list srow) : io unit := fun s =>
  match resolve_dir s (removelast p) with
  | DirOk => write_file p (FSummary sd) s
  | _ => (Raise (OSError (removelast p)), s)
  end.

(** A library result that is [None] raises. *)
Definition or_raise {A : Type} (e : exn) (o : option A) : io A :=
  match o with
  | Some a => ret a
  | None => raise e
  end.

(** A label is among the columns of a DataFrame (labels compare exactly:
    case and surrounding spaces count). *)
Definition has_col (cols : list string) (c : string) : bool := existsb (String.eqb c) cols.

(** A name of the [query] expression of line 29.  pandas resolves the
    names while it parses the expression, left to right and before it
    evaluates anything, among the column labels and then the caller's
    variables, none of which is called DATE or GEO. *)
Definition resolve_name (cols : list string) (n : string) : io unit :=
  if has_col cols n then ret tt else raise (UndefinedVariableError n).

(** The column lookup [horse_pop[c]] of lines 30-32. *)
Definition getitem (cols : list string) (c : string) : io unit :=
  if has_col cols c then ret tt else raise (KeyError c).

(** Lines 29-32 on the table [read_csv] returned: each statement first
    looks up the columns it reads, then transforms the frame as
    [Preprocess] does; the assignments keep the labels. *)
Definition load_filter (horse_pop : table) : io frame :=
  let cols := tcols horse_pop in
  do! resolve_name cols "DATE" in
  do! resolve_name cols "GEO" in
  let f := query (tframe horse_pop) in
  do! getitem cols "GEO" in
  let f := replace_geo f in
  do! getitem cols "Value" in
  let f := scale_value f in
  do! getitem cols "Ref_Date" in
  ret (astype_str_ref f).

(** Lines 24-64. *)
Definition main (input_dir out_dir : path) : io unit :=
  do! create_dir_if_not_exists out_dir in
  let! raw := read_csv input_dir in
  let! horse_pop := load_filter raw in
  do! chart_save (out_dir ++ [plot_name]) (horse_pops_chart horse_pop) in
  let! horses_sd := or_raise ValueError (horses_sd horse_pop) in
  do! to_csv (out_dir ++ [csv_name]) horses_sd in
  let! largest_sd_prov := or_raise IndexError (largest_sd_prov horses_sd) in
  chart_save (out_dir ++ [plot2_name])
             (largest_sd_chart (horse_pop_largest_sd horse_pop largest_sd_prov) largest_sd_prov).

(** ** Steps of a run *)

Definition out_path (out : path) (n : string) : path := out ++ [n].

(** The columns lines 29-32 read, in the order they read them. *)
Definition required_cols : list string := ["DATE"; "GEO"; "Value"; "Ref_Date"].

Definition cols_ok (cols : list string) : bool := forallb (has_col cols) required_cols.

(** The first of [req] that is not a column label. *)
Fixpoint first_missing (cols req : list string) : option string :=
  match req with
  | [] => None
  | c :: req' => if has_col cols c then first_missing cols req' else Some c
  end.

(** The exception a missing column raises: a name of the query, or a
    lookup. *)
Definition column_error (c : string) : exn :=
  if String.eqb c "DATE" || String.eqb c "GEO" then UndefinedVariableError c else KeyError c.

Lemma first_missing_none cols req :
  first_missing cols req = None <-> forallb (has_col cols) req = true.
Proof.
  induction req as [|c req IH]; simpl; [tauto|].
  destruct (has_col cols c); simpl; [exact IH | split; discriminate].
Qed.

Lemma first_missing_some cols req :
  forallb (has_col cols) req = false -> exists c, first_missing cols req = Some c.
Proof.
  intros H. destruct (first_missing cols req) as [c|] eqn:E; [eauto|].
  apply first_missing_none in E. congruence.
Qed.

(** Lines 29-32 on a table with the four columns compute [preprocess]. *)
Lemma load_filter_ok t s :
  cols_ok (tcols t) = true -> load_filter t s = (Ok (preprocess (tframe t)), s).
Proof.
  destruct t as [cols f]. unfold cols_ok; simpl. rewrite !andb_true_iff.
  intros (H1 & H2 & H3 & H4 & _).
  unfold load_filter, resolve_name, getitem; simpl. rewrite H1, H2, H3, H4. reflexivity.
Qed.

(** Lines 29-32 on a table without one of the four columns raise the
    error of the first one missing, and change nothing. *)
Lemma load_filter_missing t c s :
  first_missing (tcols t) required_cols = Some c -> load_filter t s = (Raise (column_error c), s).
Proof.
  destruct t as [cols f]. simpl. unfold load_filter, resolve_name, getitem; simpl.
  destruct (has_col cols "DATE"), (has_col cols "GEO"), (has_col cols "Value"),
    (has_col cols "Ref_Date"); intros [= <-]; reflexivity.
Qed.

Lemma load_filter_state t s : snd (load_filter t s) = s.
Proof.
  destruct (cols_ok (tcols t)) eqn:E; [rewrite load_filter_ok by exact E; reflexivity|].
  destruct (first_missing_some _ _ E) as [c Hc]. rewrite (load_filter_missing _ _ _ Hc). reflexivity.
Qed.

Lemma load_filter_wf t : preserves_wf (load_filter t).
Proof. intros s Hs. rewrite load_filter_state. exact Hs. Qed.

#[local] Hint Resolve load_filter_wf : horses.

Lemma load_filter_ok_inv t s f s' :
  load_filter t s = (Ok f, s') -> s' = s /\ cols_ok (tcols t) = true /\ f = preprocess (tframe t).
Proof.
  destruct (cols_ok (tcols t)) eqn:E.
  - rewrite load_filter_ok by exact E. intros [= <- <-]. auto.
  - destruct (first_missing_some _ _ E) as [c Hc]. rewrite (load_filter_missing _ _ _ Hc).
    discriminate.
Qed.

Lemma to_csv_ok_dir p sd s :
  resolve_dir s (removelast p) = DirOk -> to_csv p sd s = write_file p (FSummary sd) s.
Proof. intros Hr. unfold to_csv. rewrite Hr. reflexivity. Qed.

Lemma to_csv_ok_inv p sd s s' :
  to_csv p sd s = (Ok tt, s') -> write_file p (FSummary sd) s = (Ok tt, s').
Proof. unfold to_csv. destruct (resolve_dir s (removelast p)); congruence. Qed.

Lemma to_csv_wf p sd : preserves_wf (to_csv p sd).
Proof.
  intros s Hs. unfold to_csv. destruct (resolve_dir s (removelast p)); [|exact Hs..].
  apply write_file_wf, Hs.
Qed.

#[local] Hint Resolve to_csv_wf : horses.

Lemma out_path_inj out a b : out_path out a = out_path out b -> a = b.
Proof. unfold out_path. intros H. apply app_inv_head in H. congruence. Qed.

Lemma out_path_ne out a b : a <> b -> out_path out a <> out_path out b.
Proof. intros Hab H. apply Hab, (out_path_inj out), H. Qed.

Lemma write_step p c s d :
  p <> [] -> removelast p = d -> resolve_dir s d = DirOk -> s !! p <> Some EDir ->
  write_file p c s = (Ok tt, <[p := EFile c]> s) /\
  resolve_dir (<[p := EFile c]> s) d = DirOk.
Proof.
  intros Hne <- Hr Hl. split; [apply write_file_ok; assumption|].
  apply resolve_insert_nondir; assumption.
Qed.

Lemma out_write_step out n c s :
  resolve_dir s out = DirOk -> s !! out_path out n <> Some EDir ->
  write_file (out_path out n) c s = (Ok tt, <[out_path out n := EFile c]> s) /\
  resolve_dir (<[out_path out n := EFile c]> s) out = DirOk.
Proof.
  intros Hr Hl. apply write_step; [apply snoc_not_nil | apply removelast_snoc | exact Hr | exact Hl].
Qed.

(** Line 28 on a file that exists: what pandas makes of its contents. *)
Lemma read_csv_file p s c :
  p <> [] -> resolve_dir s (removelast p) = DirOk -> s !! p = Some (EFile c) ->
  read_csv p s = (read_contents p c, s).
Proof.
  intros Hne Hr Hl. unfold read_csv. destruct p as [|x p]; [congruence|]. rewrite Hr, Hl. reflexivity.
Qed.

Lemma read_csv_ok p s c t :
  p <> [] -> resolve_dir s (removelast p) = DirOk -> s !! p = Some (EFile c) ->
  read_contents p c = Ok t -> read_csv p s = (Ok t, s).
Proof. intros Hne Hr Hl Hc. rewrite (read_csv_file _ _ _ Hne Hr Hl), Hc. reflexivity. Qed.

Lemma plot_csv_ne : plot_name <> csv_name. Proof. discriminate. Qed.
Lemma plot_plot2_ne : plot_name <> plot2_name. Proof. discriminate. Qed.
Lemma csv_plot2_ne : csv_name <> plot2_name. Proof. discriminate. Qed.

#[local] Hint Resolve plot_csv_ne plot_plot2_ne csv_plot2_ne out_path_ne : horses.


(** The preconditions of a run that reaches the end. *)
Record run_ready (s : fs) (inp out : path) (raw : frame) : Prop := {
  rr_wf : fs_wf s;
  rr_out : out <> [];
  rr_out_dirs : resolve_dir s out <> DirNotDir;
  rr_inp : inp <> [];
  rr_inp_dir : resolve_dir s (removelast inp) = DirOk;
  rr_inp_file : exists cols, cols_ok cols = true /\ s !! inp = Some (EFile (FTable (mkTable cols raw)));
  rr_outs : forall n, In n [plot_name; csv_name; plot2_name] -> s !! out_path out n <> Some EDir
}.

(** The state after the directory step and the read, which every run
    from a ready state reaches. *)
Lemma run_prefix s inp out raw :
  run_ready s inp out raw ->
  exists s1, create_dir_if_not_exists out s = (Ok tt, s1) /\ fs_wf s1 /\
    (exists t, read_csv inp s1 = (Ok t, s1) /\ load_filter t s1 = (Ok (preprocess raw), s1)) /\
    resolve_dir s1 out = DirOk /\
    (forall n, In n [plot_name; csv_name; plot2_name] -> s1 !! out_path out n = s !! out_path out n).
Proof.
  intros [Hwf Hne Hnd Hi Hir (cols & Hc & Hif) Houts].
  destruct (create_dir_spec s out Hwf Hne Hnd) as (s1 & H1 & Hw1 & Hr1 & Hext1 & _ & Hlen1).
  exists s1. split; [exact H1|]. split; [exact Hw1|]. split.
  - exists (mkTable cols raw). split; [|apply load_filter_ok, Hc].
    apply (read_csv_ok _ _ (FTable (mkTable cols raw)));
      [exact Hi | apply (resolve_ext s); assumption | apply Hext1, Hif | reflexivity].
  - split; [exact Hr1|]. intros n _. apply Hlen1. unfold out_path. rewrite length_app. simpl. lia.
Qed.

Lemma write_keeps_wf p c s s' : fs_wf s -> write_file p c s = (Ok tt, s') -> fs_wf s'.
Proof. intros Hw Hrun. pose proof (write_file_wf p c s Hw) as H. rewrite Hrun in H. exact H. Qed.

Lemma or_raise_some {A B : Type} (e : exn) (a : A) (k : A -> io B) (s : fs) :
  bind (or_raise e (Some a)) k s = k a s.
Proof. reflexivity. Qed.

Lemma or_raise_none {A B : Type} (e : exn) (k : A -> io B) (s : fs) :
  bind (or_raise e None) k s = (Raise e, s).
Proof. reflexivity. Qed.

(** What remains of [main] after the faceted chart is saved. *)
Definition after_plot (out : path) (horse_pop : frame) : io unit :=
  let! horses_sd := or_raise ValueError (horses_sd horse_pop) in
  do! to_csv (out ++ [csv_name]) horses_sd in
  let! largest_sd_prov := or_raise IndexError (largest_sd_prov horses_sd) in
  chart_save (out ++ [plot2_name])
             (largest_sd_chart (horse_pop_largest_sd horse_pop largest_sd_prov) largest_sd_prov).

(** A run up to the first chart: the faceted chart is written and the
    other two output paths are untouched. *)
Lemma run_to_plot s inp out raw :
  run_ready s inp out raw ->
  exists s2,
    main inp out s = after_plot out (preprocess raw) s2 /\
    fs_wf s2 /\ resolve_dir s2 out = DirOk /\
    s2 !! (out ++ [plot_name]) = Some (EFile (FImage (horse_pops_chart (preprocess raw)) scale)) /\
    s2 !! (out ++ [csv_name]) = s !! (out ++ [csv_name]) /\
    s2 !! (out ++ [plot2_name]) = s !! (out ++ [plot2_name]).
Proof.
  intros Hr. pose proof (rr_outs _ _ _ _ Hr) as Houts.
  destruct (run_prefix s inp out raw Hr) as (s1 & H1 & Hw1 & (t & Hrd & Hlf) & Hr1 & Hkeep).
  set (c1 := FImage (horse_pops_chart (preprocess raw)) scale).
  destruct (out_write_step out plot_name c1 s1 Hr1) as [W1 R1].
  { rewrite Hkeep by (simpl; tauto). apply Houts. simpl. tauto. }
  eexists. split; [|split; [|split; [exact R1|split; [|split]]]].
  - unfold main. rewrite (bind_ok _ _ _ _ _ H1), (bind_ok _ _ _ _ _ Hrd), (bind_ok _ _ _ _ _ Hlf).
    unfold chart_save, out_path in *. rewrite (bind_ok _ _ _ _ _ W1). reflexivity.
  - eapply write_keeps_wf; [exact Hw1 | exact W1].
  - unfold out_path. rewrite lookup_insert_eq. reflexivity.
  - unfold out_path. rewrite lookup_insert_ne by out_ne. apply Hkeep. simpl. tauto.
  - unfold out_path. rewrite lookup_insert_ne by out_ne. apply Hkeep. simpl. tauto.
Qed.

(** A run up to the summary file: the faceted chart and the summary are
    written, the second chart's path is untouched, and what remains of
    [main] is the selection of line 54 and the second save. *)
Lemma run_to_summary s inp out raw sd :
  run_ready s inp out raw -> horses_sd (preprocess raw) = Some sd ->
  exists s3,
    main inp out s =
      bind (or_raise IndexError (largest_sd_prov sd))
           (fun prov => chart_save (out ++ [plot2_name])
                          (largest_sd_chart (horse_pop_largest_sd (preprocess raw) prov) prov)) s3 /\
    fs_wf s3 /\ resolve_dir s3 out = DirOk /\
    s3 !! (out ++ [plot_name]) = Some (EFile (FImage (horse_pops_chart (preprocess raw)) scale)) /\
    s3 !! (out ++ [csv_name]) = Some (EFile (FSummary sd)) /\
    s3 !! (out ++ [plot2_name]) = s !! (out ++ [plot2_name]).
Proof.
  intros Hr Hsd. pose proof (rr_outs _ _ _ _ Hr) as Houts.
  destruct (run_to_plot s inp out raw Hr) as (s2 & Hrun & Hw2 & R2 & L1 & L2 & L3).
  destruct (out_write_step out csv_name (FSummary sd) s2 R2) as [W2 R3].
  { unfold out_path. rewrite L2. apply Houts. simpl. tauto. }
  eexists. split; [|split; [|split; [exact R3|split; [|split]]]].
  - rewrite Hrun. unfold after_plot. rewrite Hsd, or_raise_some.
    assert (Rc : resolve_dir s2 (removelast (out ++ [csv_name])) = DirOk)
      by (rewrite removelast_snoc; exact R2).
    unfold out_path in *. rewrite (bind_ok _ _ _ _ _ (eq_trans (to_csv_ok_dir _ _ _ Rc) W2)).
    reflexivity.
  - eapply write_keeps_wf; [exact Hw2 | exact W2].
  - unfold out_path. rewrite lookup_insert_ne by out_ne. exact L1.
  - unfold out_path. rewrite lookup_insert_eq. reflexivity.
  - unfold out_path. rewrite lookup_insert_ne by out_ne. exact L3.
Qed.

(** A ready run with a non-empty summary returns normally, with the
    three outputs in place. *)
Lemma main_run_ok s inp out raw sd prov :
  run_ready s inp out raw ->
  horses_sd (preprocess raw) = Some sd -> largest_sd_prov sd = Some prov ->
  exists s', main inp out s = (Ok tt, s') /\ fs_wf s' /\
    s' !! (out ++ [plot_name]) = Some (EFile (FImage (horse_pops_chart (preprocess raw)) scale)) /\
    s' !! (out ++ [csv_name]) = Some (EFile (FSummary sd)) /\
    s' !! (out ++ [plot2_name]) =
      Some (EFile (FImage (largest_sd_chart (horse_pop_largest_sd (preprocess raw) prov) prov)
                          scale)).
Proof.
  intros Hr Hsd Hp. pose proof (rr_outs _ _ _ _ Hr) as Houts.
  destruct (run_to_summary s inp out raw sd Hr Hsd) as (s3 & Hrun & Hw3 & R3 & L1 & L2 & L3).
  set (c3 := FImage (largest_sd_chart (horse_pop_largest_sd (preprocess raw) prov) prov) scale).
  destruct (out_write_step out plot2_name c3 s3 R3) as [W3 _].
  { unfold out_path. rewrite L3. apply Houts. simpl. tauto. }
  eexists. split; [|split; [|split; [|split]]].
  - rewrite Hrun, Hp, or_raise_some. exact W3.
  - eapply write_keeps_wf; [exact Hw3 | exact W3].
  - unfold out_path. rewrite lookup_insert_ne by out_ne. exact L1.
  - unfold out_path. rewrite lookup_insert_ne by out_ne. exact L2.
  - unfold out_path. rewrite lookup_insert_eq. reflexivity.
Qed.

(** C1: From a well-formed tree where the input file holds a table,
    where no component of [out_dir] is a regular file and no output path
    is a directory, a run whose summary is computed and non-empty returns
    normally and leaves the three artifacts of the specification in
    [out_dir]: the faceted chart of the filtered frame, the summary, and
    the chart of the selected province, each saved with scale factor 2. *)
Theorem main_writes_outputs s inp out raw sd prov :
  run_ready s inp out raw ->
  horses_sd (preprocess raw) = Some sd -> largest_sd_prov sd = Some prov ->
  exists s', main inp out s = (Ok tt, s') /\ fs_wf s' /\
    s' !! (out ++ [plot_name]) = Some (EFile (FImage (horse_pops_chart (preprocess raw)) scale)) /\
    s' !! (out ++ [csv_name]) = Some (EFile (FSummary sd)) /\
    s' !! (out ++ [plot2_name]) =
      Some (EFile (FImage (largest_sd_chart (horse_pop_largest_sd (preprocess raw) prov) prov)
                          scale)).
Proof. apply main_run_ok. Qed.

Lemma horses_sd_no_rows f : frows f = [] -> horses_sd f = Some [].
Proof.
  intros H. unfold horses_sd, groupby_std, group_keys. rewrite H. simpl.
  unfold sort_values_std. rewrite (sort_nil (desc_le Std) (nargsort_desc Std)). reflexivity.
Qed.

(** Once line 49 has computed the summary of a ready run, the file
    [horses_sd.csv] holds it when the run ends, normally or at line 54. *)
Lemma main_summary_written s inp out raw sd :
  run_ready s inp out raw -> horses_sd (preprocess raw) = Some sd ->
  snd (main inp out s) !! (out ++ [csv_name]) = Some (EFile (FSummary sd)).
Proof.
  intros Hr Hsd.
  destruct (run_to_summary s inp out raw sd Hr Hsd) as (s3 & Hrun & _ & _ & _ & L2 & _).
  rewrite Hrun. destruct (largest_sd_prov sd) as [p|]; [|exact L2].
  rewrite or_raise_some. unfold chart_save.
  destruct (write_file _ _ s3) as [r s'] eqn:W. simpl.
  rewrite (write_file_only _ _ _ _ _ _ W) by out_ne. exact L2.
Qed.

(** C21: When no input row passes the query of line 29, the run writes
    the faceted chart and a summary with no row, then raises [IndexError]
    at line 54; the second chart is not written. *)
Theorem main_empty_index_error s inp out raw :
  run_ready s inp out raw -> List.filter query_keep (frows raw) = [] ->
  exists s', main inp out s = (Raise IndexError, s') /\ fs_wf s' /\
    s' !! (out ++ [plot_name]) = Some (EFile (FImage (horse_pops_chart (preprocess raw)) scale)) /\
    s' !! (out ++ [csv_name]) = Some (EFile (FSummary [])) /\
    s' !! (out ++ [plot2_name]) = s !! (out ++ [plot2_name]).
Proof.
  intros Hr Hq.
  assert (Hsd : horses_sd (preprocess raw) = Some []).
  { apply horses_sd_no_rows. rewrite preprocess_rows, Hq. reflexivity. }
  destruct (run_to_summary s inp out raw [] Hr Hsd) as (s3 & Hrun & Hw3 & _ & L1 & L2 & L3).
  exists s3. split; [rewrite Hrun; reflexivity|]. auto.
Qed.

Lemma or_raise_ok_inv {A B : Type} (e : exn) (o : option A) (k : A -> io B) s b s' :
  bind (or_raise e o) k s = (Ok b, s') -> exists a, o = Some a /\ k a s = (Ok b, s').
Proof. destruct o as [a|]; [eauto | discriminate]. Qed.

(** Only a table can have the four columns. *)
Lemma read_contents_table p c t : read_contents p c = Ok t -> cols_ok (tcols t) = true -> c = FTable t.
Proof. destruct c; simpl; intros [= <-]; [reflexivity | discriminate]. Qed.

(** A run that returns normally went through every step. *)
Lemma main_ok_inv inp out s s' :
  main inp out s = (Ok tt, s') ->
  exists s1 raw s2 sd s3 prov,
    create_dir_if_not_exists out s = (Ok tt, s1) /\ read_csv inp s1 = (Ok raw, s1) /\
    cols_ok (tcols raw) = true /\
    write_file (out ++ [plot_name]) (FImage (horse_pops_chart (preprocess (tframe raw))) scale) s1
      = (Ok tt, s2) /\
    horses_sd (preprocess (tframe raw)) = Some sd /\
    write_file (out ++ [csv_name]) (FSummary sd) s2 = (Ok tt, s3) /\
    largest_sd_prov sd = Some prov /\
    write_file (out ++ [plot2_name])
      (FImage (largest_sd_chart (horse_pop_largest_sd (preprocess (tframe raw)) prov) prov) scale) s3
      = (Ok tt, s').
Proof.
  unfold main. intros H.
  apply bind_ok_inv in H as ([] & s1 & H1 & H).
  apply bind_ok_inv in H as (raw & s1' & Hr & H).
  pose proof (read_csv_ok_inv _ _ _ _ Hr) as [-> _].
  apply bind_ok_inv in H as (hp & s1' & Hl & H).
  apply load_filter_ok_inv in Hl as (-> & Hc & ->).
  apply bind_ok_inv in H as ([] & s2 & H2 & H).
  apply or_raise_ok_inv in H as (sd & Hsd & H).
  apply bind_ok_inv in H as ([] & s3 & H3%to_csv_ok_inv & H).
  apply or_raise_ok_inv in H as (prov & Hp & H).
  exists s1, raw, s2, sd, s3, prov. repeat split; assumption.
Qed.

Lemma snoc_ne_prefix (out : path) n : out ++ [n] <> out.
Proof.
  intros H. apply (f_equal (@length string)) in H. rewrite length_app in H. simpl in H. lia.
Qed.

(** What the filesystem holds after a run that returned normally: the
    output directory exists, the input is still the table that was read,
    and the three outputs hold what the run computed from it. *)
Lemma main_ok_state inp out s s' :
  main inp out s = (Ok tt, s') ->
  ~ In inp [out ++ [plot_name]; out ++ [csv_name]; out ++ [plot2_name]] ->
  exists raw sd prov,
    path_exists s' out = true /\ resolve_dir s' out = DirOk /\
    inp <> [] /\ resolve_dir s' (removelast inp) = DirOk /\
    s' !! inp = Some (EFile (FTable raw)) /\ cols_ok (tcols raw) = true /\
    horses_sd (preprocess (tframe raw)) = Some sd /\ largest_sd_prov sd = Some prov /\
    s' !! (out ++ [plot_name]) = Some (EFile (FImage (horse_pops_chart (preprocess (tframe raw))) scale)) /\
    s' !! (out ++ [csv_name]) = Some (EFile (FSummary sd)) /\
    s' !! (out ++ [plot2_name]) =
      Some (EFile (FImage (largest_sd_chart (horse_pop_largest_sd (preprocess (tframe raw)) prov) prov)
                          scale)).
Proof.
  intros Hrun Hin.
  destruct (main_ok_inv inp out s s' Hrun)
    as (s1 & raw & s2 & sd & s3 & prov & H1 & Hr & Hc & W1 & Hsd & W2 & Hp & W3).
  destruct (read_csv_ok_inv _ _ _ _ Hr) as (_ & Hi & Hir & c & Hif & Hcr).
  rewrite (read_contents_table _ _ _ Hcr Hc) in Hif.
  pose proof (write_file_ok_inv _ _ _ _ W1) as (_ & Ro & _ & E1).
  pose proof (write_file_ok_inv _ _ _ _ W2) as (_ & _ & _ & E2).
  pose proof (write_file_ok_inv _ _ _ _ W3) as (_ & _ & _ & E3).
  rewrite removelast_snoc in Ro.
  assert (Hres : forall d, resolve_dir s1 d = DirOk -> resolve_dir s' d = DirOk)
    by eauto using write_resolve.
  exists raw, sd, prov. split; [|split; [auto|split; [exact Hi|split; [auto|split]]]].
  - apply (write_path_exists _ _ _ _ _ W3 (snoc_ne_prefix out _)),
      (write_path_exists _ _ _ _ _ W2 (snoc_ne_prefix out _)),
      (write_path_exists _ _ _ _ _ W1 (snoc_ne_prefix out _)), (create_dir_exists_after _ _ _ H1).
  - rewrite (write_lookup_ne _ _ _ _ _ W3), (write_lookup_ne _ _ _ _ _ W2),
            (write_lookup_ne _ _ _ _ _ W1) by (intros <-; apply Hin; simpl; tauto). exact Hif.
  - split; [exact Hc|]. split; [exact Hsd|]. split; [exact Hp|]. split; [|split].
    + rewrite E3, E2, !lookup_insert_ne, E1, lookup_insert_eq by out_ne. reflexivity.
    + rewrite E3, lookup_insert_ne, E2, lookup_insert_eq by out_ne. reflexivity.
    + rewrite E3, lookup_insert_eq. reflexivity.
Qed.

(** Running the script a second time, with the same input and output
    directory, after a run that returned normally, returns normally and
    leaves the filesystem exactly as it was: in particular [horses_sd.csv]
    is byte for byte the same.  The input must not be one of the outputs. *)
Theorem main_idempotent inp out s s' :
  main inp out s = (Ok tt, s') ->
  ~ In inp [out ++ [plot_name]; out ++ [csv_name]; out ++ [plot2_name]] ->
  main inp out s' = (Ok tt, s').
Proof.
  intros Hrun Hin.
  destruct (main_ok_state inp out s s' Hrun Hin)
    as (raw & sd & prov & Hex & Ro & Hi & Hir & Hinp & Hc & Hsd & Hp & L1 & L2 & L3).
  assert (O : forall n, resolve_dir s' (removelast (out ++ [n])) = DirOk)
    by (intros n; rewrite removelast_snoc; exact Ro).
  assert (C : create_dir_if_not_exists out s' = (Ok tt, s'))
    by (unfold create_dir_if_not_exists; rewrite Hex; reflexivity).
  unfold main. rewrite (bind_ok _ _ _ _ _ C).
  rewrite (bind_ok _ _ _ _ _ (read_csv_ok inp s' _ raw Hi Hir Hinp eq_refl)).
  rewrite (bind_ok _ _ _ _ _ (load_filter_ok raw s' Hc)).
  unfold chart_save.
  rewrite (bind_ok _ _ _ _ _ (write_file_same _ _ s' (snoc_not_nil _ _) (O _) L1)), Hsd, or_raise_some.
  rewrite (bind_ok _ _ _ _ _ (eq_trans (to_csv_ok_dir _ _ _ (O _))
                                       (write_file_same _ _ s' (snoc_not_nil _ _) (O _) L2))).
  rewrite Hp, or_raise_some.
  apply write_file_same; [apply snoc_not_nil | apply O | exact L3].
Qed.

(** A kept row whose Value is a string that [float()] rejects once line
    31 has repeated it stops the run at line 49. *)
Lemma main_str_value s inp out raw r v :
  run_ready s inp out raw -> In r (frows raw) -> query_keep r = true ->
  Value r = CStr v -> py_float (str_repeat 1000 v) = None ->
  exists s', main inp out s = (Raise ValueError, s') /\ fs_wf s' /\
    s' !! (out ++ [plot_name]) = Some (EFile (FImage (horse_pops_chart (preprocess raw)) scale)) /\
    s' !! (out ++ [csv_name]) = s !! (out ++ [csv_name]) /\
    s' !! (out ++ [plot2_name]) = s !! (out ++ [plot2_name]).
Proof.
  intros Hr Hin Hk Hv Hs.
  assert (Hnone : horses_sd (preprocess raw) = None).
  { apply (horses_sd_none_of_str _ (transform_row r) (str_repeat 1000 v));
      [apply in_preprocess; eauto | unfold transform_row; simpl; rewrite Hv; reflexivity | exact Hs]. }
  destruct (run_to_plot s inp out raw Hr) as (s2 & Hrun & Hw2 & _ & L1 & L2 & L3).
  exists s2. split; [|auto]. rewrite Hrun. unfold after_plot. rewrite Hnone. reflexivity.
Qed.

(** C24: When a row the query keeps has a string [v] as its Value (an
    object column, as [read_csv] makes of a column with a non-numeric
    entry), line 31 makes it [v * 1000], the string repeated a thousand
    times; when Python's [float()] rejects that string, the cast of the
    Value column to float64 in [std] at line 49 raises [ValueError]: the
    run stops after the faceted chart, without writing the summary or the
    second chart.  The GEO of the row does not matter, since the whole
    column is cast before the groups are formed. *)
Theorem main_value_error s inp out raw r v :
  run_ready s inp out raw -> In r (frows raw) -> query_keep r = true ->
  Value r = CStr v -> py_float (str_repeat 1000 v) = None ->
  exists s', main inp out s = (Raise ValueError, s') /\ fs_wf s' /\
    s' !! (out ++ [plot_name]) = Some (EFile (FImage (horse_pops_chart (preprocess raw)) scale)) /\
    s' !! (out ++ [csv_name]) = s !! (out ++ [csv_name]) /\
    s' !! (out ++ [plot2_name]) = s !! (out ++ [plot2_name]).
Proof. apply main_str_value. Qed.

(** C25: From the text of the input file: when a line of the CSV file
    that the query keeps (DATE is the June label, GEO is not Canada) has
    in its Value column a token that is neither NaN nor a number nor a
    boolean and has no digit, such as Statistics Canada's [..], pandas
    reads the whole Value column as strings, line 31 repeats them, and
    [float()] rejects the repeated token: the run raises [ValueError] at
    line 49 after the faceted chart is written; the summary and the
    second chart are not written. *)
Theorem main_marker_value_error s inp out txt t hdr data r :
  read_text txt = Some (Ok t) -> csv_records txt = Some (hdr :: data) -> In r data ->
  tok_of hdr r "DATE" = target_date -> tok_of hdr r "GEO" <> national_geo ->
  value_marker (tok_of hdr r "Value") = true ->
  no_digit (list_ascii_of_string (tok_of hdr r "Value")) = true ->
  run_ready s inp out (tframe t) ->
  exists s', main inp out s = (Raise ValueError, s') /\ fs_wf s' /\
    s' !! (out ++ [plot_name]) = Some (EFile (FImage (horse_pops_chart (preprocess (tframe t))) scale)) /\
    s' !! (out ++ [csv_name]) = s !! (out ++ [csv_name]) /\
    s' !! (out ++ [plot2_name]) = s !! (out ++ [plot2_name]).
Proof.
  intros Hs Hrec Hin Hd Hng Hm Hnd Hr.
  destruct (read_text_marker_row _ _ _ _ _ Hs Hrec Hin Hm) as (rt & Hrow & Hv).
  apply (main_str_value _ _ _ _ _ (tok_of hdr r "Value") Hr Hrow); [|exact Hv | apply py_float_repeat_no_digit; [exact Hnd | lia]].
  apply query_keep_true. simpl. unfold obj_cell. rewrite Hd. split; [reflexivity|].
  destruct (is_na (tok_of hdr r "GEO")); congruence.
Qed.

(** Whatever the outcome of a run, normal or an exception at any
    step, the filesystem it leaves is well formed: every entry hangs below
    directories. *)
Theorem main_preserves_wf inp out s : fs_wf s -> fs_wf (snd (main inp out s)).
Proof.
  revert s. unfold main, chart_save, or_raise.
  repeat (apply bind_preserves_wf; [auto with horses | intros ?]);
    repeat match goal with |- context [match ?o with _ => _ end] => destruct o end;
    auto with horses.
Qed.

(** [pd.read_csv] on a path with no entry. *)
Lemma read_csv_missing p s :
  p <> [] -> s !! p = None ->
  exists e, read_csv p s = (Raise e, s) /\ (e = FileNotFoundError p \/ e = NotADirectoryError p).
Proof.
  intros Hne Hl. unfold read_csv. destruct p as [|x p]; [congruence|].
  destruct (resolve_dir s (removelast (x :: p))); [rewrite Hl| |]; eauto.
Qed.

(** The directory step of a run that can create [out_dir]: it returns
    normally, keeps every entry, and leaves the paths below [out_dir] as
    they were. *)
Lemma ensure_step out s :
  fs_wf s -> out <> [] -> resolve_dir s out <> DirNotDir ->
  exists s1, create_dir_if_not_exists out s = (Ok tt, s1) /\
    fs_wf s1 /\ path_exists s1 out = true /\
    (forall q e, s !! q = Some e -> s1 !! q = Some e) /\
    (forall n, s1 !! (out ++ [n]) = s !! (out ++ [n])).
Proof.
  intros Hwf Hne Hnd.
  destruct (create_dir_spec s out Hwf Hne Hnd) as (s1 & H1 & Hw1 & _ & Hext & _ & Hlen).
  exists s1. split; [exact H1|]. split; [exact Hw1|].
  split; [apply (create_dir_exists_after _ _ _ H1)|]. split; [exact Hext|].
  intros n. apply Hlen. rewrite length_app. simpl. lia.
Qed.

(** C29: When a proper ancestor of [out_dir] is a regular file, the run
    raises [NotADirectoryError] at line 25, inside [os.makedirs], before
    anything is created or written: the filesystem is unchanged. *)
Theorem main_out_blocked inp out s :
  out <> [] -> resolve_dir s (removelast out) = DirNotDir ->
  exists p, main inp out s = (Raise (NotADirectoryError p), s).
Proof.
  intros Hne Hr. destruct (create_dir_notdir s out Hne Hr) as (p & Hp).
  exists p. unfold main. apply bind_err, Hp.
Qed.

(** C27: When the input file is missing (and is not the output directory
    or one of its ancestors), the run creates [out_dir] and then raises
    [FileNotFoundError], or [NotADirectoryError] when an ancestor of the
    input is a file, at line 28: no output is written and the tree stays
    well formed. *)
Theorem main_missing_input inp out s :
  fs_wf s -> out <> [] -> resolve_dir s out <> DirNotDir ->
  inp <> [] -> s !! inp = None -> ~ inp `prefix_of` out ->
  exists e s1, main inp out s = (Raise e, s1) /\
    (e = FileNotFoundError inp \/ e = NotADirectoryError inp) /\
    fs_wf s1 /\ path_exists s1 out = true /\
    forall n, s1 !! (out ++ [n]) = s !! (out ++ [n]).
Proof.
  intros Hwf Hne Hnd Hi Hl Hpre.
  destruct (ensure_step out s Hwf Hne Hnd) as (s1 & H1 & Hw1 & Hex & _ & Hkeep).
  assert (Hl1 : s1 !! inp = None) by (rewrite (create_dir_only _ _ _ _ _ H1 Hpre); exact Hl).
  destruct (read_csv_missing inp s1 Hi Hl1) as (e & Hr & He).
  exists e, s1. split; [|auto].
  unfold main. rewrite (bind_ok _ _ _ _ _ H1). apply bind_err, Hr.
Qed.

(** C28: When the input is a CSV table without one of the columns DATE,
    GEO, Value and Ref_Date (labels compare exactly), the run creates
    [out_dir] and then raises the error of the first one missing, in the
    order lines 29-32 read them: [UndefinedVariableError] for a name of
    the query of line 29, [KeyError] for the lookups of lines 31 and 32.
    No output is written and the tree stays well formed. *)
Theorem main_missing_column inp out s c t col :
  fs_wf s -> out <> [] -> resolve_dir s out <> DirNotDir ->
  inp <> [] -> resolve_dir s (removelast inp) = DirOk -> s !! inp = Some (EFile c) ->
  read_contents inp c = Ok t -> first_missing (tcols t) required_cols = Some col ->
  exists s1, main inp out s = (Raise (column_error col), s1) /\
    fs_wf s1 /\ path_exists s1 out = true /\
    forall n, s1 !! (out ++ [n]) = s !! (out ++ [n]).
Proof.
  intros Hwf Hne Hnd Hi Hir Hl Hc Hm.
  destruct (ensure_step out s Hwf Hne Hnd) as (s1 & H1 & Hw1 & Hex & Hext & Hkeep).
  exists s1. split; [|auto].
  unfold main. rewrite (bind_ok _ _ _ _ _ H1).
  rewrite (bind_ok _ _ _ _ _ (read_csv_ok _ _ _ _ Hi (resolve_ext _ _ _ Hext Hir) (Hext _ _ Hl) Hc)).
  apply bind_err, load_filter_missing, Hm.
Qed.

(** When the input is a text that pandas' parser rejects (an empty
    file raises [EmptyDataError], an end of file inside a quoted field
    [ParserError], as [CsvRead.read_text] computes), the run creates
    [out_dir] and then raises that error at line 28: no output is
    written and the tree stays well formed. *)
Theorem main_parser_error inp out s e :
  fs_wf s -> out <> [] -> resolve_dir s out <> DirNotDir ->
  inp <> [] -> resolve_dir s (removelast inp) = DirOk -> s !! inp = Some (EFile (FRejected e)) ->
  exists s1, main inp out s = (Raise (ReadError e), s1) /\
    fs_wf s1 /\ path_exists s1 out = true /\
    forall n, s1 !! (out ++ [n]) = s !! (out ++ [n]).
Proof.
  intros Hwf Hne Hnd Hi Hir Hl.
  destruct (ensure_step out s Hwf Hne Hnd) as (s1 & H1 & Hw1 & Hex & Hext & Hkeep).
  exists s1. split; [|auto].
  unfold main. rewrite (bind_ok _ _ _ _ _ H1).
  apply bind_err. exact (read_csv_file _ _ _ Hi (resolve_ext _ _ _ Hext Hir) (Hext _ _ Hl)).
Qed.

End Pipeline.

#[export] Hint Resolve load_filter_wf : horses.
#[export] Hint Resolve to_csv_wf : horses.
#[export] Hint Resolve plot_csv_ne plot_plot2_ne csv_plot2_ne out_path_ne : horses.

(** ** Witnesses *)

#[local] Existing Instance stable_argsort.

(** A tree holding only an input table. *)
Definition table_tree (t : table) : fs :=
  <[["data"] := EDir]> (<[input_path := EFile (FTable t)]> ∅).

Definition input_tree (raw : frame) : fs := table_tree (mkTable input_cols raw).

Lemma table_tree_ready t :
  cols_ok (tcols t) = true -> run_ready (table_tree t) input_path results_dir (tframe t).
Proof.
  destruct t as [cols raw]. intros Hc. split.
  - apply fs_wfb_sound. vm_compute. reflexivity.
  - discriminate.
  - vm_compute. discriminate.
  - discriminate.
  - reflexivity.
  - exists cols. split; [exact Hc | reflexivity].
  - intros n Hn. simpl in Hn. unfold out_path.
    destruct Hn as [<-|[<-|[<-|[]]]]; vm_compute; discriminate.
Qed.

Lemma input_tree_ready raw : run_ready (input_tree raw) input_path results_dir raw.
Proof. exact (table_tree_ready (mkTable input_cols raw) eq_refl). Qed.

Lemma fs_input_ready : run_ready fs_input input_path results_dir Preprocess.scenario_frame.
Proof. exact (input_tree_ready scenario_frame). Qed.

(** The tree after a run from [fs_input]. *)
Definition fs_after_run : fs :=
  <[results_dir ++ [plot2_name] :=
      EFile (FImage (largest_sd_chart (horse_pop_largest_sd (preprocess scenario_frame) "Ontario")
                                      "Ontario") scale)]>
  (<[results_dir ++ [csv_name] := EFile (FSummary scenario_sd)]>
  (<[results_dir ++ [plot_name] := EFile (FImage (horse_pops_chart (preprocess scenario_frame)) scale)]>
   fs_created)).

Lemma main_writes_outputs_witness :
  run_ready fs_input input_path results_dir scenario_frame /\
  horses_sd (preprocess scenario_frame) = Some scenario_sd /\
  largest_sd_prov scenario_sd = Some "Ontario" /\
  exists s', main input_path results_dir fs_input = (Ok tt, s') /\ fs_wf s' /\
    s' !! (results_dir ++ [plot_name]) =
      Some (EFile (FImage (horse_pops_chart (preprocess scenario_frame)) scale)) /\
    s' !! (results_dir ++ [csv_name]) = Some (EFile (FSummary scenario_sd)) /\
    s' !! (results_dir ++ [plot2_name]) =
      Some (EFile (FImage (largest_sd_chart
                             (horse_pop_largest_sd (preprocess scenario_frame) "Ontario") "Ontario")
                          scale)).
Proof.
  split; [exact fs_input_ready|]. split; [exact scenario_horses_sd|]. split; [reflexivity|].
  apply (main_writes_outputs fs_input input_path results_dir scenario_frame scenario_sd "Ontario");
    [exact fs_input_ready | exact scenario_horses_sd | reflexivity].
Defined.

Lemma main_run_scenario : main input_path results_dir fs_input = (Ok tt, fs_after_run).
Proof. reflexivity. Qed.

(** The four-row input of the specification as the text of
    [data/horses.csv], with the columns of the Statistics Canada table. *)
Definition scenario_text : string :=
  write_rows [input_cols;
              ["2019"; "Ontario"; target_date; "v1"; "1.1"; "10"];
              ["2020"; "Ontario"; target_date; "v1"; "1.1"; "12"];
              ["2019"; "Canada"; target_date; "v2"; "1.2"; "50"];
              ["2019"; "Prince Edward Island"; target_date; "v3"; "1.3"; "1"]].

Definition line_str (s : string) : string := s +:+ String nl EmptyString.

(** The scenarios of the specification end to end: from a tree with
    only the four-row input, which pandas reads from its text as the
    table of the tree, and no [results] directory, the run returns
    normally, creates [results/figures], and writes the summary with
    Ontario first (variance 2,000,000 of 10000 and 12000) and P.E.I.,
    which has a single observation, with a NaN Std rather than a crash:
    the file's text is the header and the lines [Ontario,1414.213562373095]
    and [P.E.I.,] with an empty Std.  The other two artifacts are written
    beside it. *)
Theorem main_spec_scenario :
  read_text scenario_text = Some (Ok (mkTable input_cols scenario_frame)) /\
  fs_input !! input_path = Some (EFile (FTable (mkTable input_cols scenario_frame))) /\
  exists s', main input_path results_dir fs_input = (Ok tt, s') /\
    fs_input !! ["results"] = None /\ s' !! results_dir = Some EDir /\
    s' !! (results_dir ++ [csv_name]) =
      Some (EFile (FSummary [mkSRow "Ontario" (Some (4000000 # 2)%Q); mkSRow "P.E.I." None])) /\
    summary_csv scenario_repr [mkSRow "Ontario" (Some (4000000 # 2)%Q); mkSRow "P.E.I." None] =
      line_str "Province,Std" +:+ line_str "Ontario,1414.213562373095" +:+ line_str "P.E.I.," /\
    (exists c, s' !! (results_dir ++ [plot_name]) = Some (EFile (FImage c scale))) /\
    (exists c, s' !! (results_dir ++ [plot2_name]) = Some (EFile (FImage c scale))).
Proof.
  split; [vm_compute; reflexivity|]. split; [reflexivity|].
  exists fs_after_run. split; [exact main_run_scenario|].
  split; [reflexivity|]. split; [reflexivity|]. split; [reflexivity|]. split; [reflexivity|].
  split; eexists; reflexivity.
Qed.

(** Running the script on its own summary: [horses_sd.csv] has the
    columns Province and Std, so the name DATE of the query is undefined. *)
Lemma main_missing_column_witness :
  fs_wf fs_after_run /\ resolve_dir fs_after_run results_dir <> DirNotDir /\
  resolve_dir fs_after_run (removelast (results_dir ++ [csv_name])) = DirOk /\
  fs_after_run !! (results_dir ++ [csv_name]) = Some (EFile (FSummary scenario_sd)) /\
  first_missing (tcols (summary_table scenario_sd)) required_cols = Some "DATE" /\
  exists s1, main (results_dir ++ [csv_name]) results_dir fs_after_run =
               (Raise (UndefinedVariableError "DATE"), s1) /\
    fs_wf s1 /\ path_exists s1 results_dir = true /\
    forall n, s1 !! (results_dir ++ [n]) = fs_after_run !! (results_dir ++ [n]).
Proof.
  assert (Hw : fs_wf fs_after_run) by (apply fs_wfb_sound; vm_compute; reflexivity).
  assert (Hnd : resolve_dir fs_after_run results_dir <> DirNotDir) by (vm_compute; discriminate).
  assert (Hir : resolve_dir fs_after_run (removelast (results_dir ++ [csv_name])) = DirOk)
    by reflexivity.
  assert (Hl : fs_after_run !! (results_dir ++ [csv_name]) = Some (EFile (FSummary scenario_sd)))
    by reflexivity.
  assert (Hm : first_missing (tcols (summary_table scenario_sd)) required_cols = Some "DATE")
    by reflexivity.
  split; [exact Hw|]. split; [exact Hnd|]. split; [exact Hir|]. split; [exact Hl|].
  split; [exact Hm|].
  apply (main_missing_column (results_dir ++ [csv_name]) results_dir fs_after_run
           (FSummary scenario_sd) (summary_table scenario_sd) "DATE");
    [exact Hw | discriminate | exact Hnd | discriminate | exact Hir | exact Hl | reflexivity | exact Hm].
Defined.

Lemma main_idempotent_witness :
  main input_path results_dir fs_input = (Ok tt, fs_after_run) /\
  ~ In input_path [results_dir ++ [plot_name]; results_dir ++ [csv_name];
                   results_dir ++ [plot2_name]] /\
  main input_path results_dir fs_after_run = (Ok tt, fs_after_run).
Proof.
  assert (Hn : ~ In input_path [results_dir ++ [plot_name]; results_dir ++ [csv_name];
                                results_dir ++ [plot2_name]])
    by (simpl; intros [H|[H|[H|[]]]]; discriminate).
  split; [exact main_run_scenario|]. split; [exact Hn|].
  apply (main_idempotent input_path results_dir fs_input); [exact main_run_scenario | exact Hn].
Defined.

(** An input in which no row has the target DATE label. *)
Definition no_june_frame : frame :=
  mkFrame (mkSchema DInt64 DInt64)
    [ mkRow (Some "Ontario") (Some "At July 1 (x 1,000)") (RInt 2019) (CInt 10) ].

Definition fs_no_june : fs := input_tree no_june_frame.

Lemma main_empty_index_error_witness :
  run_ready fs_no_june input_path results_dir no_june_frame /\
  List.filter query_keep (frows no_june_frame) = [] /\
  exists s', main input_path results_dir fs_no_june = (Raise IndexError, s') /\ fs_wf s' /\
    s' !! (results_dir ++ [plot_name]) =
      Some (EFile (FImage (horse_pops_chart (preprocess no_june_frame)) scale)) /\
    s' !! (results_dir ++ [csv_name]) = Some (EFile (FSummary [])) /\
    s' !! (results_dir ++ [plot2_name]) = fs_no_june !! (results_dir ++ [plot2_name]).
Proof.
  assert (Hr : run_ready fs_no_june input_path results_dir no_june_frame)
    by apply input_tree_ready.
  assert (Hq : List.filter query_keep (frows no_june_frame) = []) by reflexivity.
  split; [exact Hr|]. split; [exact Hq|].
  apply (main_empty_index_error fs_no_june input_path results_dir no_june_frame Hr Hq).
Defined.

(** An input whose Value column [read_csv] reads as strings. *)
Definition str_frame : frame :=
  mkFrame (mkSchema DInt64 DObject)
    [ mkRow (Some "Ontario") (Some target_date) (RInt 2019) (CStr "12");
      mkRow (Some "Ontario") (Some target_date) (RInt 2020) (CStr "..") ].

Lemma main_value_error_witness :
  run_ready (input_tree str_frame) input_path results_dir str_frame /\
  exists s', main input_path results_dir (input_tree str_frame) = (Raise ValueError, s') /\
    fs_wf s' /\
    s' !! (results_dir ++ [plot_name]) =
      Some (EFile (FImage (horse_pops_chart (preprocess str_frame)) scale)) /\
    s' !! (results_dir ++ [csv_name]) = input_tree str_frame !! (results_dir ++ [csv_name]) /\
    s' !! (results_dir ++ [plot2_name]) = input_tree str_frame !! (results_dir ++ [plot2_name]).
Proof.
  split; [apply input_tree_ready|].
  apply (main_value_error _ _ _ str_frame
           (mkRow (Some "Ontario") (Some target_date) (RInt 2020) (CStr "..")) "..");
    [apply input_tree_ready | right; left; reflexivity | reflexivity | reflexivity | vm_compute; reflexivity].
Defined.

Lemma main_preserves_wf_witness :
  fs_wf fs_input /\ fs_wf (snd (main input_path results_dir fs_input)).
Proof.
  pose proof (rr_wf _ _ _ _ fs_input_ready) as Hw.
  split; [exact Hw | apply (main_preserves_wf input_path results_dir fs_input Hw)].
Defined.

(** A tree where [results] is a file. *)
Definition fs_blocked : fs := <[["results"] := EFile (FSummary [])]> fs_input.

Lemma main_out_blocked_witness :
  results_dir <> [] /\ resolve_dir fs_blocked (removelast results_dir) = DirNotDir /\
  exists p, main input_path results_dir fs_blocked = (Raise (NotADirectoryError p), fs_blocked).
Proof.
  assert (Hne : results_dir <> []) by discriminate.
  assert (Hr : resolve_dir fs_blocked (removelast results_dir) = DirNotDir) by reflexivity.
  split; [exact Hne|]. split; [exact Hr|].
  apply (main_out_blocked input_path results_dir fs_blocked Hne Hr).
Defined.

Lemma main_missing_input_witness :
  fs_wf fs_input /\ results_dir <> [] /\ resolve_dir fs_input results_dir <> DirNotDir /\
  ["data"; "missing.csv"] <> [] /\ fs_input !! ["data"; "missing.csv"] = None /\
  ~ ["data"; "missing.csv"] `prefix_of` results_dir /\
  exists e s1, main ["data"; "missing.csv"] results_dir fs_input = (Raise e, s1) /\
    (e = FileNotFoundError ["data"; "missing.csv"] \/ e = NotADirectoryError ["data"; "missing.csv"]) /\
    fs_wf s1 /\ path_exists s1 results_dir = true /\
    forall n, s1 !! (results_dir ++ [n]) = fs_input !! (results_dir ++ [n]).
Proof.
  pose proof (rr_wf _ _ _ _ fs_input_ready) as Hw.
  assert (Hne : results_dir <> []) by discriminate.
  assert (Hnd : resolve_dir fs_input results_dir <> DirNotDir) by (vm_compute; discriminate).
  assert (Hi : ["data"; "missing.csv"] <> []) by discriminate.
  assert (Hl : fs_input !! ["data"; "missing.csv"] = None) by reflexivity.
  assert (Hp : ~ ["data"; "missing.csv"] `prefix_of` results_dir)
    by (intros [k Hk]; discriminate).
  split; [exact Hw|]. split; [exact Hne|]. split; [exact Hnd|]. split; [exact Hi|].
  split; [exact Hl|]. split; [exact Hp|].
  apply (main_missing_input _ _ _ Hw Hne Hnd Hi Hl Hp).
Defined.

(** The run on the text [CsvRead.marker_text], whose second line has
    [..] as its Value. *)
Lemma main_marker_value_error_witness :
  read_text marker_text = Some (Ok marker_table) /\
  csv_records marker_text =
    Some (["Ref_Date"; "GEO"; "DATE"; "Value"] ::
          [["2019"; "Ontario"; "At June 1 (x 1,000)"; "12"];
           ["2020"; "Ontario"; "At June 1 (x 1,000)"; ".."]]) /\
  run_ready (table_tree marker_table) input_path results_dir (tframe marker_table) /\
  exists s', main input_path results_dir (table_tree marker_table) = (Raise ValueError, s') /\ fs_wf s' /\
    s' !! (results_dir ++ [plot_name]) =
      Some (EFile (FImage (horse_pops_chart (preprocess (tframe marker_table))) scale)) /\
    s' !! (results_dir ++ [csv_name]) = table_tree marker_table !! (results_dir ++ [csv_name]) /\
    s' !! (results_dir ++ [plot2_name]) = table_tree marker_table !! (results_dir ++ [plot2_name]).
Proof.
  assert (Hrec : csv_records marker_text =
    Some (["Ref_Date"; "GEO"; "DATE"; "Value"] ::
          [["2019"; "Ontario"; "At June 1 (x 1,000)"; "12"];
           ["2020"; "Ontario"; "At June 1 (x 1,000)"; ".."]])) by (vm_compute; reflexivity).
  assert (Hr : run_ready (table_tree marker_table) input_path results_dir (tframe marker_table))
    by (apply table_tree_ready; reflexivity).
  split; [exact read_marker_text|]. split; [exact Hrec|]. split; [exact Hr|].
  apply (main_marker_value_error _ _ _ marker_text marker_table _ _
           ["2020"; "Ontario"; "At June 1 (x 1,000)"; ".."] read_marker_text Hrec);
    [right; left; reflexivity | reflexivity | discriminate | reflexivity | reflexivity | exact Hr].
Defined.

(** An empty input file, which pandas' parser rejects. *)
Definition empty_input_tree : fs :=
  <[["data"] := EDir]> (<[input_path := EFile (FRejected EmptyDataError)]> ∅).

Lemma main_parser_error_witness :
  read_text EmptyString = Some (Raise EmptyDataError) /\
  exists s1, main input_path results_dir empty_input_tree = (Raise (ReadError EmptyDataError), s1) /\
    fs_wf s1 /\ path_exists s1 results_dir = true /\
    forall n, s1 !! (results_dir ++ [n]) = empty_input_tree !! (results_dir ++ [n]).
Proof.
  split; [vm_compute; reflexivity|].
  apply main_parser_error.
  - apply fs_wfb_sound. vm_compute. reflexivity.
  - discriminate.
  - vm_compute. discriminate.
  - discriminate.
  - vm_compute. reflexivity.
  - reflexivity.
Defined.
