(* ===== verification/Machine.v ===== *)
(** [main] (lines 24-64) as a small-step machine, one transition per
    statement of the source.

    A configuration is a program point with the Python locals that are
    live there ([pc]) and the filesystem.  [mstep] has one rule per
    statement and outcome: line 25 (the Directory Ensurer), line 28
    ([read_csv]), lines 29-32 (pre-processing), line 45 (first
    [chart.save]), line 49 (the summary, or its [ValueError]), line 50
    ([to_csv]), lines 54-55 ([iloc[0]], or its [IndexError], and the
    filter), line 64 (second [chart.save]).  An exception ends the run in
    [PDone (Raise e)] with the filesystem as the failing statement left it.

    [next] is the same machine as an executable step function.  The
    theorems: the relation is deterministic and never stuck, every run
    terminates (the program point's rank decreases), the machine computes
    exactly the monadic [Pipeline.main], and two invariants hold of every
    reachable configuration, by induction on the run: nothing outside
    [out_dir]'s ancestors and the three outputs changes, and line 54 runs
    only once both the faceted chart and the summary are on disk. *)

From Stdlib Require Import List String QArith Lia.
From stdpp Require Import base gmap strings.
From S2P Require Import Prelude Frame Preprocess Sorting Summary Charts FileSystem Pipeline.
Import ListNotations.
Open Scope list_scope.
Open Scope horses_scope.

(** Program points of [main], with the locals live at each. *)
Inductive pc : Type :=
| PStart                                              (* line 25 *)
| PRead                                               (* line 28 *)
| PPre (raw : table)                                  (* lines 29-32 *)
| PPlot (horse_pop : frame)                           (* lines 35-45 *)
| PAgg (horse_pop : frame)                            (* line 49 *)
| PCsv (horse_pop : frame) (horses_sd : list srow)    (* line 50 *)
| PSel (horse_pop : frame) (horses_sd : list srow)    (* lines 54-55 *)
| PPlot2 (horse_pop horse_pop_largest_sd : frame) (largest_sd_prov : string)  (* 57-64 *)
| PDone (r : outcome exn unit).

Definition config : Type := (pc * fs)%type.

Section Machine.
Context `{AS : Argsort}.
Context (input_dir out_dir : path).

Inductive mstep : config -> config -> Prop :=
| step_ensure_ok s s' :
    create_dir_if_not_exists out_dir s = (Ok tt, s') -> mstep (PStart, s) (PRead, s')
| step_ensure_err s e s' :
    create_dir_if_not_exists out_dir s = (Raise e, s') -> mstep (PStart, s) (PDone (Raise e), s')
| step_read_ok s raw s' :
    read_csv input_dir s = (Ok raw, s') -> mstep (PRead, s) (PPre raw, s')
| step_read_err s e s' :
    read_csv input_dir s = (Raise e, s') -> mstep (PRead, s) (PDone (Raise e), s')
| step_pre_ok raw hp s s' :
    load_filter raw s = (Ok hp, s') -> mstep (PPre raw, s) (PPlot hp, s')
| step_pre_err raw s e s' :
    load_filter raw s = (Raise e, s') -> mstep (PPre raw, s) (PDone (Raise e), s')
| step_plot_ok hp s s' :
    chart_save (out_dir ++ [plot_name]) (horse_pops_chart hp) s = (Ok tt, s') ->
    mstep (PPlot hp, s) (PAgg hp, s')
| step_plot_err hp s e s' :
    chart_save (out_dir ++ [plot_name]) (horse_pops_chart hp) s = (Raise e, s') ->
    mstep (PPlot hp, s) (PDone (Raise e), s')
| step_agg_ok hp sd s :
    horses_sd hp = Some sd -> mstep (PAgg hp, s) (PCsv hp sd, s)
| step_agg_err hp s :
    horses_sd hp = None -> mstep (PAgg hp, s) (PDone (Raise ValueError), s)
| step_csv_ok hp sd s s' :
    to_csv (out_dir ++ [csv_name]) sd s = (Ok tt, s') -> mstep (PCsv hp sd, s) (PSel hp sd, s')
| step_csv_err hp sd s e s' :
    to_csv (out_dir ++ [csv_name]) sd s = (Raise e, s') ->
    mstep (PCsv hp sd, s) (PDone (Raise e), s')
| step_sel_ok hp sd p s :
    largest_sd_prov sd = Some p ->
    mstep (PSel hp sd, s) (PPlot2 hp (horse_pop_largest_sd hp p) p, s)
| step_sel_err hp sd s :
    largest_sd_prov sd = None -> mstep (PSel hp sd, s) (PDone (Raise IndexError), s)
| step_plot2 hp hl p s r s' :
    chart_save (out_dir ++ [plot2_name]) (largest_sd_chart hl p) s = (r, s') ->
    mstep (PPlot2 hp hl p, s) (PDone r, s').

(** A statement that may raise: continue at [k] or stop. *)
Definition continue_with {A : Type} (o : outcome exn A * fs) (k : A -> pc) : config :=
  match o with
  | (Ok a, s') => (k a, s')
  | (Raise e, s') => (PDone (Raise e), s')
  end.

(** The machine as a step function; [None] at the end of the run. *)
Definition next (c : config) : option config :=
  let (p, s) := c in
  match p with
  | PStart => Some (continue_with (create_dir_if_not_exists out_dir s) (fun _ => PRead))
  | PRead => Some (continue_with (read_csv input_dir s) PPre)
  | PPre raw => Some (continue_with (load_filter raw s) PPlot)
  | PPlot hp =>
      Some (continue_with (chart_save (out_dir ++ [plot_name]) (horse_pops_chart hp) s)
                          (fun _ => PAgg hp))
  | PAgg hp =>
      Some (match horses_sd hp with
            | Some sd => (PCsv hp sd, s)
            | None => (PDone (Raise ValueError), s)
            end)
  | PCsv hp sd => Some (continue_with (to_csv (out_dir ++ [csv_name]) sd s) (fun _ => PSel hp sd))
  | PSel hp sd =>
      Some (match largest_sd_prov sd with
            | Some p => (PPlot2 hp (horse_pop_largest_sd hp p) p, s)
            | None => (PDone (Raise IndexError), s)
            end)
  | PPlot2 hp hl p =>
      let (r, s') := chart_save (out_dir ++ [plot2_name]) (largest_sd_chart hl p) s in
      Some (PDone r, s')
  | PDone _ => None
  end.

(** [next] run for at most [fuel] steps. *)
Fixpoint run (fuel : nat) (c : config) : config :=
  match fuel with
  | O => c
  | S n => match next c with
           | Some c' => run n c'
           | None => c
           end
  end.

(** Statements left before the end: the measure of termination. *)
Definition rank (p : pc) : nat :=
  match p with
  | PStart => 8
  | PRead => 7
  | PPre _ => 6
  | PPlot _ => 5
  | PAgg _ => 4
  | PCsv _ _ => 3
  | PSel _ _ => 2
  | PPlot2 _ _ _ => 1
  | PDone _ => 0
  end.

(** What is left of [main] at each program point. *)
Definition rest (p : pc) : io unit :=
  match p with
  | PStart => main input_dir out_dir
  | PRead =>
      let! raw := read_csv input_dir in
      let! hp := load_filter raw in
      do! chart_save (out_dir ++ [plot_name]) (horse_pops_chart hp) in after_plot out_dir hp
  | PPre raw =>
      let! hp := load_filter raw in
      do! chart_save (out_dir ++ [plot_name]) (horse_pops_chart hp) in after_plot out_dir hp
  | PPlot hp =>
      do! chart_save (out_dir ++ [plot_name]) (horse_pops_chart hp) in after_plot out_dir hp
  | PAgg hp => after_plot out_dir hp
  | PCsv hp sd =>
      do! to_csv (out_dir ++ [csv_name]) sd in
      let! p := or_raise IndexError (largest_sd_prov sd) in
      chart_save (out_dir ++ [plot2_name]) (largest_sd_chart (horse_pop_largest_sd hp p) p)
  | PSel hp sd =>
      let! p := or_raise IndexError (largest_sd_prov sd) in
      chart_save (out_dir ++ [plot2_name]) (largest_sd_chart (horse_pop_largest_sd hp p) p)
  | PPlot2 _ hl p => chart_save (out_dir ++ [plot2_name]) (largest_sd_chart hl p)
  | PDone r => fun s => (r, s)
  end.

(** The three files [main] writes. *)
Definition outputs : list path :=
  [out_dir ++ [plot_name]; out_dir ++ [csv_name]; out_dir ++ [plot2_name]].

(** Between [s0] and [s], nothing changed but [out_dir]'s ancestors and
    the outputs. *)
Definition untouched (s0 s : fs) : Prop :=
  forall q, ~ q `prefix_of` out_dir -> ~ In q outputs -> s !! q = s0 !! q.

(** What each program point knows about the files already written. *)
Definition point_inv (c : config) : Prop :=
  let (p, s) := c in
  match p with
  | PAgg hp => s !! (out_dir ++ [plot_name]) = Some (EFile (FImage (horse_pops_chart hp) scale))
  | PCsv hp sd =>
      s !! (out_dir ++ [plot_name]) = Some (EFile (FImage (horse_pops_chart hp) scale)) /\
      horses_sd hp = Some sd
  | PSel hp sd =>
      s !! (out_dir ++ [plot_name]) = Some (EFile (FImage (horse_pops_chart hp) scale)) /\
      s !! (out_dir ++ [csv_name]) = Some (EFile (FSummary sd)) /\ horses_sd hp = Some sd
  | PPlot2 hp hl p =>
      s !! (out_dir ++ [plot_name]) = Some (EFile (FImage (horse_pops_chart hp) scale)) /\
      (exists sd, s !! (out_dir ++ [csv_name]) = Some (EFile (FSummary sd)) /\
                  horses_sd hp = Some sd /\ largest_sd_prov sd = Some p) /\
      hl = horse_pop_largest_sd hp p
  | _ => True
  end.

End Machine.

Section MachineFacts.
Context `{AS : Argsort}.
Context (input_dir out_dir : path).
Local Abbreviation step := (mstep input_dir out_dir).

(** ** The relation and the step function *)

Lemma continue_with_step {A : Type} (o : outcome exn A * fs) (k : A -> pc) p s :
  (forall a s', o = (Ok a, s') -> step (p, s) (k a, s')) ->
  (forall e s', o = (Raise e, s') -> step (p, s) (PDone (Raise e), s')) ->
  step (p, s) (continue_with o k).
Proof. destruct o as [[a|e] s']; simpl; eauto. Qed.

Lemma mstep_next c c' : step c c' <-> next input_dir out_dir c = Some c'.
Proof.
  split.
  - destruct 1; simpl; repeat match goal with H : _ = _ |- _ => rewrite H end; reflexivity.
  - destruct c as [p s]. intros H.
    destruct p; simpl in H; try discriminate;
      try (injection H as <-; apply continue_with_step; intros;
           repeat match goal with u : unit |- _ => destruct u end; constructor; assumption).
    + injection H as <-. destruct (horses_sd _) eqn:E; constructor; exact E.
    + injection H as <-. destruct (largest_sd_prov _) eqn:E; constructor; exact E.
    + destruct (chart_save _ _ s) eqn:E. injection H as <-. constructor. exact E.
Qed.

Lemma mstep_determ c c1 c2 : step c c1 -> step c c2 -> c1 = c2.
Proof. rewrite !mstep_next. congruence. Qed.

Lemma mstep_rank c c' : step c c' -> rank (fst c') < rank (fst c).
Proof. destruct 1; simpl; lia. Qed.

Lemma done_irred r s : irred step (PDone r, s).
Proof. intros c H. inversion H. Qed.

(** Every configuration but a final one can step. *)
Lemma mstep_progress p s : (exists r, p = PDone r) \/ exists c', step (p, s) c'.
Proof.
  destruct (next input_dir out_dir (p, s)) as [c'|] eqn:E.
  - right. exists c'. apply mstep_next, E.
  - left. destruct p; simpl in E; try discriminate;
      try (destruct (chart_save _ _ s); discriminate). eexists; reflexivity.
Qed.

(** ** The machine computes [main] *)

Ltac rest_case E :=
  match goal with
  | E : ?m = (Ok _, ?s1) |- _ => try unfold main; rewrite (bind_ok _ _ _ _ _ E); reflexivity
  | E : ?m = (Raise _, ?s1) |- _ => try unfold main; rewrite (bind_err _ _ _ _ _ E); reflexivity
  end.

(** One step of the machine is one statement of [main]. *)
Lemma rest_step c c' : step c c' -> rest input_dir out_dir (fst c) (snd c) = rest input_dir out_dir (fst c') (snd c').
Proof.
  destruct 1 as [s s' E|s e s' E|s raw s' E|s e s' E|raw hp s s' E|raw s e s' E|hp s s' E|hp s e s' E
                |hp sd s E|hp s E|hp sd s s' E|hp sd s e s' E|hp sd p s E|hp sd s E|hp hl p s r s' E];
    simpl; try rest_case E.
  - unfold after_plot. rewrite E. reflexivity.
  - unfold after_plot. rewrite E. reflexivity.
  - rewrite E. reflexivity.
  - rewrite E. reflexivity.
  - exact E.
Qed.

Lemma run_next n c c' :
  next input_dir out_dir c = Some c' -> run input_dir out_dir (S n) c = run input_dir out_dir n c'.
Proof. intros H. simpl. rewrite H. reflexivity. Qed.

Lemma run_rest n : forall p s, rank p <= n ->
  star step (p, s) (PDone (fst (rest input_dir out_dir p s)), snd (rest input_dir out_dir p s)) /\
  run input_dir out_dir n (p, s) = (PDone (fst (rest input_dir out_dir p s)), snd (rest input_dir out_dir p s)).
Proof.
  induction n as [|n IH]; intros p s Hr.
  - destruct p; simpl in Hr; try lia. split; [apply star_refl | reflexivity].
  - destruct (mstep_progress p s) as [[r ->]|[[p' s'] Hs]].
    + split; [apply star_refl | reflexivity].
    + pose proof (mstep_rank _ _ Hs) as Hk. simpl in Hk.
      pose proof (rest_step _ _ Hs) as Hrs. simpl in Hrs. rewrite Hrs.
      destruct (IH p' s' ltac:(lia)) as [Hstar Hrun]. split.
      * eapply star_step; [exact Hs | exact Hstar].
      * apply mstep_next in Hs. rewrite (run_next _ _ _ Hs). exact Hrun.
Qed.

(** ** Invariants of the run *)

Lemma to_csv_only p sd s r s' q : to_csv p sd s = (r, s') -> q <> p -> s' !! q = s !! q.
Proof.
  unfold to_csv. destruct (resolve_dir s (removelast p)); [apply write_file_only | |];
    intros [= _ <-]; reflexivity.
Qed.

Lemma untouched_trans s0 s1 s2 : untouched out_dir s0 s1 -> untouched out_dir s1 s2 -> untouched out_dir s0 s2.
Proof. intros H1 H2 q Hp Ho. rewrite (H2 q Hp Ho). apply H1; assumption. Qed.

Lemma step_untouched c c' : step c c' -> untouched out_dir (snd c) (snd c').
Proof.
  intros Hs q Hp Ho. unfold outputs in Ho. simpl in Ho.
  destruct Hs; simpl;
    try (pose proof (read_csv_state input_dir s) as Hr; rewrite H in Hr; simpl in Hr; subst; reflexivity);
    try (pose proof (load_filter_state raw s) as Hr; rewrite H in Hr; simpl in Hr; subst; reflexivity);
    try reflexivity.
  - exact (create_dir_only _ _ _ _ _ H Hp).
  - exact (create_dir_only _ _ _ _ _ H Hp).
  - apply (write_file_only _ _ _ _ _ _ H). intros ->; apply Ho; auto.
  - apply (write_file_only _ _ _ _ _ _ H). intros ->; apply Ho; auto.
  - apply (to_csv_only _ _ _ _ _ _ H). intros ->; apply Ho; auto.
  - apply (to_csv_only _ _ _ _ _ _ H). intros ->; apply Ho; auto.
  - apply (write_file_only _ _ _ _ _ _ H). intros ->; apply Ho; auto.
Qed.

Lemma step_wf c c' : step c c' -> fs_wf (snd c) -> fs_wf (snd c').
Proof.
  intros Hs Hw. destruct Hs; simpl in *; try exact Hw;
    refine (preserves_wf_eq _ _ _ _ _ Hw H); unfold chart_save; auto with horses.
Qed.

Lemma point_inv_step c c' : step c c' -> point_inv out_dir c -> point_inv out_dir c'.
Proof.
  destruct 1; simpl; intros Hi; auto.
  - unfold chart_save in H. apply write_file_ok_inv in H as (_ & _ & _ & ->).
    apply lookup_insert_eq.
  - apply to_csv_ok_inv, write_file_ok_inv in H as (_ & _ & _ & ->).
    destruct Hi as [Hp Hsd]. split; [|split; [apply lookup_insert_eq | exact Hsd]].
    rewrite lookup_insert_ne by out_ne. exact Hp.
  - destruct Hi as (Hp & Hc & Hsd). split; [exact Hp|]. split; [|reflexivity]. eauto.
Qed.

(** The small-step machine and the monadic model agree: [main]
    ends in outcome [r] with filesystem [s'] exactly when the machine
    goes, statement by statement, from line 25 to the final
    configuration [(r, s')]. *)
Theorem main_small_step s r s' :
  main input_dir out_dir s = (r, s') <-> star (mstep input_dir out_dir) (PStart, s) (PDone r, s').
Proof.
  destruct (run_rest 8 PStart s (le_n _)) as [Hstar _]. simpl rest in Hstar. split.
  - intros E. rewrite E in Hstar. exact Hstar.
  - intros H. pose proof (star_determ_final step mstep_determ _ _ _ H Hstar
                            (done_irred _ _) (done_irred _ _)) as E.
    injection E as -> ->. destruct (main input_dir out_dir s); reflexivity.
Qed.

(** Every run terminates: from any configuration the machine reaches
    a final configuration, and [rank] steps of [next] (at most 8, one per
    statement of lines 25-64) compute it. *)
Theorem machine_terminates c :
  exists r s', star step c (PDone r, s') /\ irred step (PDone r, s') /\
               run input_dir out_dir (rank (fst c)) c = (PDone r, s').
Proof.
  destruct c as [p s]. destruct (run_rest (rank p) p s (le_n _)) as [H1 H2].
  do 2 eexists. split; [exact H1|]. split; [apply done_irred | exact H2].
Qed.

(** C17: Along any run of [main], by induction on its steps, the tree
    stays well formed and no path changes except [out_dir] and its
    ancestors and the three output files: in particular the input file
    and every other file are left as they were. *)
Theorem run_frame c c' :
  star step c c' -> fs_wf (snd c) -> fs_wf (snd c') /\ untouched out_dir (snd c) (snd c').
Proof.
  induction 1 as [c|c c1 c2 Hs _ IH]; intros Hw.
  - split; [exact Hw | intros q _ _; reflexivity].
  - destruct (IH (step_wf _ _ Hs Hw)) as [Hw2 Hu2]. split; [exact Hw2|].
    eapply untouched_trans; [apply (step_untouched _ _ Hs) | exact Hu2].
Qed.

Lemma point_inv_star c c' : star step c c' -> point_inv out_dir c -> point_inv out_dir c'.
Proof. induction 1; eauto using point_inv_step. Qed.

(** C19: Line 54 runs only after both other outputs are on disk: in any
    run of [main] that reaches [iloc[0]], [horse_pops_plot.png] holds the
    faceted chart of the filtered frame and [horses_sd.csv] holds the very
    summary being indexed. *)
Theorem line54_after_outputs s0 hp sd s :
  star (mstep input_dir out_dir) (PStart, s0) (PSel hp sd, s) ->
  s !! (out_dir ++ [plot_name]) = Some (EFile (FImage (horse_pops_chart hp) scale)) /\
  s !! (out_dir ++ [csv_name]) = Some (EFile (FSummary sd)) /\ horses_sd hp = Some sd.
Proof. intros H. exact (point_inv_star _ _ H I). Qed.

(** C20: Liveness of the summary: from a ready tree whose summary line 49
    computes, every run of the machine eventually reaches a configuration
    from which on [horses_sd.csv] holds that summary, whether line 54 then
    raises [IndexError] or the run goes on to the second chart. *)
Theorem summary_eventually s raw sd :
  run_ready s input_dir out_dir raw -> horses_sd (preprocess raw) = Some sd ->
  eventually (mstep input_dir out_dir)
    (fun c => forall c', star (mstep input_dir out_dir) c c' -> snd c' !! (out_dir ++ [csv_name]) = Some (EFile (FSummary sd)))
    (PStart, s).
Proof.
  intros Hr Hsd. destruct (run_rest 8 PStart s (le_n _)) as [Hstar _]. simpl rest in Hstar.
  apply (star_eventually step mstep_determ _ _ _ Hstar). intros c' Hc'.
  rewrite (star_irred _ _ _ (done_irred _ _) Hc'). apply (main_summary_written s _ _ raw sd Hr Hsd).
Qed.

End MachineFacts.

(** ** Witnesses *)

#[local] Existing Instance stable_argsort.

Lemma scenario_star :
  star (mstep input_path results_dir) (PStart, fs_input) (PDone (Ok tt), fs_after_run).
Proof.
  destruct (run_rest input_path results_dir 8 PStart fs_input (le_n _)) as [H _].
  simpl rest in H. rewrite main_run_scenario in H. exact H.
Qed.

Lemma run_frame_witness :
  star (mstep input_path results_dir) (PStart, fs_input) (PDone (Ok tt), fs_after_run) /\
  fs_wf fs_input /\
  fs_wf fs_after_run /\ untouched results_dir fs_input fs_after_run.
Proof.
  pose proof (rr_wf _ _ _ _ fs_input_ready) as Hw.
  split; [exact scenario_star|]. split; [exact Hw|].
  apply (run_frame input_path results_dir _ _ scenario_star Hw).
Defined.

(** The tree when the scenario reaches line 54. *)
Definition fs_at_line54 : fs :=
  <[results_dir ++ [csv_name] := EFile (FSummary scenario_sd)]>
  (<[results_dir ++ [plot_name] := EFile (FImage (horse_pops_chart (preprocess scenario_frame)) scale)]>
   fs_created).

Lemma scenario_star_line54 :
  star (mstep input_path results_dir) (PStart, fs_input)
       (PSel (preprocess scenario_frame) scenario_sd, fs_at_line54).
Proof.
  apply (star_step _ _ (PRead, fs_created)); [apply step_ensure_ok; reflexivity|].
  apply (star_step _ _ (PPre (mkTable input_cols scenario_frame), fs_created));
    [apply step_read_ok; reflexivity|].
  eapply star_step; [apply step_pre_ok, load_filter_ok; reflexivity|].
  eapply star_step; [apply step_plot_ok; reflexivity|].
  eapply star_step; [apply step_agg_ok, scenario_horses_sd|].
  eapply star_step; [apply step_csv_ok; reflexivity|].
  apply star_refl.
Qed.

Lemma summary_eventually_witness :
  run_ready fs_input input_path results_dir scenario_frame /\
  horses_sd (preprocess scenario_frame) = Some scenario_sd /\
  eventually (mstep input_path results_dir)
    (fun c => forall c', star (mstep input_path results_dir) c c' ->
                         snd c' !! (results_dir ++ [csv_name]) = Some (EFile (FSummary scenario_sd)))
    (PStart, fs_input).
Proof.
  split; [exact fs_input_ready|]. split; [exact scenario_horses_sd|].
  apply (summary_eventually input_path results_dir fs_input scenario_frame scenario_sd);
    [exact fs_input_ready | exact scenario_horses_sd].
Defined.

Lemma line54_after_outputs_witness :
  star (mstep input_path results_dir) (PStart, fs_input)
       (PSel (preprocess scenario_frame) scenario_sd, fs_at_line54) /\
  fs_at_line54 !! (results_dir ++ [plot_name]) =
    Some (EFile (FImage (horse_pops_chart (preprocess scenario_frame)) scale)) /\
  fs_at_line54 !! (results_dir ++ [csv_name]) = Some (EFile (FSummary scenario_sd)) /\
  horses_sd (preprocess scenario_frame) = Some scenario_sd.
Proof.
  split; [exact scenario_star_line54|].
  apply (line54_after_outputs input_path results_dir fs_input _ _ _ scenario_star_line54).
Defined.
