(* ===== verification/Difflib.v ===== *)
(** Python's [difflib.get_close_matches], which click calls to suggest an
    option when a command line names one that does not exist.

    [SequenceMatcher(None, x, word)] with [x] a known option: [b2j] holds
    the positions of each character of [word], without the "popular"
    characters when [word] has 200 characters or more ([autojunk]);
    [find_longest_match] scans [x] then [word] and keeps the first
    longest block, then extends it over equal neighbours;
    [get_matching_blocks] splits around that block, and [ratio] is
    [2 * M / T] for [M] matched characters out of [T] in both strings.
    [real_quick_ratio] and [quick_ratio] bound [ratio] from above, so the
    cutoff test is [ratio >= 0.6], compared here on rationals: for
    strings shorter than a million characters a float quotient is on the
    same side of [0.6] as the exact one. *)

From Stdlib Require Import List Bool Ascii String Arith Lia.
From S2P Require Import Prelude.
Import ListNotations.

Section Matcher.
Variables a b : list ascii.

Definition nth_a (i : nat) : ascii := nth i a "000"%char.
Definition nth_b (j : nat) : ascii := nth j b "000"%char.

(** [autojunk]: with [n >= 200] characters, a character that occurs more
    than [n // 100 + 1] times is left out of [b2j]. *)
Definition popular (c : ascii) : bool :=
  (200 <=? List.length b) && (List.length b / 100 + 1 <? count_occ ascii_dec b c).

(** [j2len]: the length of the block of [b2j] matches ending at [(i, j)]
    inside [a[alo:]] and [b[blo:]]. *)
Fixpoint run_len (alo blo i j : nat) : nat :=
  if (alo <=? i) && (blo <=? j) && Ascii.eqb (nth_a i) (nth_b j) && negb (popular (nth_b j)) then
    S (match i with
       | S i' => if (alo <? i) && (blo <? j) then run_len alo blo i' (pred j) else 0
       | O => 0
       end)
  else 0.

(** The scan of [find_longest_match]: rows [i] of [a], columns [j] of
    [b], a strictly longer block replacing the best so far. *)
Definition scan (alo ahi blo bhi : nat) : nat * nat * nat :=
  fold_left (fun best i =>
    fold_left (fun best j =>
      let k := run_len alo blo i j in
      let '(_, _, bs) := best in
      if bs <? k then (S i - k, S j - k, k) else best)
      (seq blo (bhi - blo)) best)
    (seq alo (ahi - alo)) (alo, blo, 0).

(** The two loops that extend the block over equal characters on its
    left and right (no character is junk). *)
Fixpoint extend_left (fuel alo blo i j k : nat) : nat * nat * nat :=
  match fuel with
  | O => (i, j, k)
  | S f =>
      match i, j with
      | S i', S j' =>
          if (alo <? i) && (blo <? j) && Ascii.eqb (nth_a i') (nth_b j')
          then extend_left f alo blo i' j' (S k) else (i, j, k)
      | _, _ => (i, j, k)
      end
  end.

Fixpoint extend_right (fuel ahi bhi i j k : nat) : nat * nat * nat :=
  match fuel with
  | O => (i, j, k)
  | S f =>
      if (i + k <? ahi) && (j + k <? bhi) && Ascii.eqb (nth_a (i + k)) (nth_b (j + k))
      then extend_right f ahi bhi i j (S k) else (i, j, k)
  end.

Definition find_longest_match (alo ahi blo bhi : nat) : nat * nat * nat :=
  let '(i, j, k) := scan alo ahi blo bhi in
  let '(i, j, k) := extend_left (List.length a) alo blo i j k in
  extend_right (List.length a) ahi bhi i j k.

(** The characters of all the blocks [get_matching_blocks] finds in
    [a[alo:ahi]] and [b[blo:bhi]]; each split leaves a shorter part of
    [a], so [length a + 1] rounds suffice. *)
Fixpoint matched (fuel alo ahi blo bhi : nat) : nat :=
  match fuel with
  | O => 0
  | S f =>
      let '(i, j, k) := find_longest_match alo ahi blo bhi in
      if k =? 0 then 0
      else k + (if (alo <? i) && (blo <? j) then matched f alo i blo j else 0)
             + (if (i + k <? ahi) && (j + k <? bhi) then matched f (i + k) ahi (j + k) bhi else 0)
  end.

Definition matches : nat := matched (S (List.length a)) 0 (List.length a) 0 (List.length b).

End Matcher.

(** [ratio() >= 0.6], that is [2 * M / T >= 3 / 5]; two empty strings
    have ratio 1. *)
Definition close_enough (x word : string) : bool :=
  let a := list_ascii_of_string x in
  let b := list_ascii_of_string word in
  3 * (List.length a + List.length b) <=? 10 * matches a b.

(** [get_close_matches(word, possibilities)] with [n = 3] and
    [cutoff = 0.6], as a set: click sorts the result before it prints
    it, and it never has more than three candidates. *)
Definition get_close_matches (word : string) (possibilities : list string) : list string :=
  List.filter (fun x => close_enough x word) possibilities.

(** ** Fuel

    [get_matching_blocks] pops its queue until it is empty; the fuel of
    [matched] is enough when it exceeds the length of the part of [a]
    searched, since every block found lies inside that part and each
    split leaves a strictly shorter one. *)

Section Fuel.
Variables a b : list ascii.

Lemma run_len_le alo blo i j : run_len a b alo blo i j <= S i - alo.
Proof.
  revert j. induction i as [|i IH]; intros j; cbn [run_len];
    (destruct ((alo <=? _) && _ && _ && _) eqn:E; [|lia]);
    rewrite !andb_true_iff, Nat.leb_le in E; destruct E as [[[E _] _] _].
  - lia.
  - destruct ((alo <? S i) && _) eqn:F; [|lia].
    apply andb_true_iff in F as [F _]. apply Nat.ltb_lt in F.
    specialize (IH (pred j)). lia.
Qed.

Lemma scan_bounds alo ahi blo bhi i j k :
  alo <= ahi -> scan a b alo ahi blo bhi = (i, j, k) -> alo <= i /\ i + k <= ahi.
Proof.
  intros Hle Hs.
  pose (P := fun t : nat * nat * nat => alo <= fst (fst t) /\ fst (fst t) + snd t <= ahi).
  enough (H : P (i, j, k)) by exact H.
  rewrite <- Hs. unfold scan. apply fold_left_inv; [unfold P; simpl; lia|].
  intros best r Hr Hb. apply in_seq in Hr.
  apply fold_left_inv; [exact Hb|].
  intros [[bi bj] bs] c _ Hc. unfold P in *; cbn [fst snd] in *.
  pose proof (run_len_le alo blo r c).
  destruct (bs <? run_len a b alo blo r c) eqn:E; cbn [fst snd]; [|exact Hc].
  apply Nat.ltb_lt in E. lia.
Qed.

Lemma extend_left_bounds fuel alo blo i j k i' j' k' :
  alo <= i -> extend_left a b fuel alo blo i j k = (i', j', k') -> alo <= i' /\ i' + k' = i + k.
Proof.
  revert i j k. induction fuel as [|f IH]; intros i j k Hi He; simpl in He.
  - injection He as <- <- <-. lia.
  - destruct i as [|i], j as [|j]; try (injection He as <- <- <-; lia).
    destruct ((alo <? S i) && _ && _) eqn:E; [|injection He as <- <- <-; lia].
    rewrite !andb_true_iff, Nat.ltb_lt in E. destruct E as [[E _] _].
    apply IH in He; lia.
Qed.

Lemma extend_right_bounds fuel ahi bhi i j k i' j' k' :
  i + k <= ahi -> extend_right a b fuel ahi bhi i j k = (i', j', k') ->
  i' = i /\ k <= k' /\ i + k' <= ahi.
Proof.
  revert k. induction fuel as [|f IH]; intros k Hk He; simpl in He.
  - injection He as <- <- <-. lia.
  - destruct ((i + k <? ahi) && _ && _) eqn:E; [|injection He as <- <- <-; lia].
    rewrite !andb_true_iff, Nat.ltb_lt in E. destruct E as [[E _] _].
    apply IH in He; lia.
Qed.

(** Every block [find_longest_match] returns lies inside [a[alo:ahi]]. *)
Lemma find_longest_match_bounds alo ahi blo bhi i j k :
  alo <= ahi -> find_longest_match a b alo ahi blo bhi = (i, j, k) ->
  alo <= i /\ i + k <= ahi.
Proof.
  intros Hle. unfold find_longest_match.
  destruct (scan a b alo ahi blo bhi) as [[i0 j0] k0] eqn:Hs.
  destruct (extend_left a b _ alo blo i0 j0 k0) as [[i1 j1] k1] eqn:Hl. intros Hr.
  apply scan_bounds in Hs as [Hs1 Hs2]; [|exact Hle].
  apply extend_left_bounds in Hl as [Hl1 Hl2]; [|exact Hs1].
  apply extend_right_bounds in Hr as (-> & _ & Hr); lia.
Qed.

(** Two fuels that both exceed [ahi - alo] give the same count. *)
Lemma matched_fuel f1 f2 alo ahi blo bhi :
  alo <= ahi -> ahi - alo < f1 -> ahi - alo < f2 ->
  matched a b f1 alo ahi blo bhi = matched a b f2 alo ahi blo bhi.
Proof.
  revert f2 alo ahi blo bhi.
  induction f1 as [|f1 IH]; intros [|f2] alo ahi blo bhi Hle H1 H2; try lia. simpl.
  destruct (find_longest_match a b alo ahi blo bhi) as [[i j] k] eqn:Hf.
  apply find_longest_match_bounds in Hf as [Hi Hk]; [|exact Hle].
  destruct (k =? 0) eqn:Ek; [reflexivity|]. apply Nat.eqb_neq in Ek.
  rewrite (IH f2 alo i blo j), (IH f2 (i + k) ahi (j + k) bhi) by lia. reflexivity.
Qed.

(** Enough fuel gives the result: [matches] is the count of the
    unbounded loop, whatever fuel beyond [length a] it is given. *)
Lemma matches_fuel f :
  List.length a < f -> matched a b f 0 (List.length a) 0 (List.length b) = matches a b.
Proof. intros H. apply matched_fuel; lia. Qed.

End Fuel.
