(* ===== verification/Cli.v ===== *)
(** The command line of [generate_figures.py]: the click decorators of
    lines 21-23 and the entry point of lines 67-68.

    [main()] with no arguments makes click parse [sys.argv[1:]] in
    standalone mode.  The model follows click 8's [OptionParser]:
    - a token [--] ends the options; a token that starts with [-] and is
      longer than one character is an option; any other token is a
      leftover argument;
    - a long option is split at its first [=]; [--input_dir] and
      [--out_dir] take one value, the explicit one or else the next token
      whatever it looks like ([requires an argument] when there is none);
      the automatic [--help] flag takes no value; an unknown name raises
      [NoSuchOption], and a single-dash token fails on its first letter;
    - a later occurrence of an option overrides an earlier one;
    - after parsing, the eager [--help] shows the help and exits 0; then a
      missing [required=True] option raises [MissingParameter], in the
      order of declaration ([input_dir] first); then leftover arguments
      raise "Got unexpected extra argument".
    A usage error exits with status 2 before [main] runs; an exception of
    [main] escapes as a traceback with status 1; a normal return exits 0.

    Argument strings become paths by splitting at [/] and dropping empty
    and [.] components; the empty string names no file, so
    [os.makedirs('')] and [pd.read_csv('')] raise [FileNotFoundError].
    Absolute paths and [..] are read relative to the working directory,
    which the filesystem model takes as its root. *)

From Stdlib Require Import List String Ascii Bool ZArith Lia.
From stdpp Require Import base gmap strings.
From S2P Require Import Prelude Frame Preprocess Sorting Summary Charts FileSystem Pipeline Difflib.
Import ListNotations.
Open Scope string_scope.

Section Cli.
Context `{AS : Argsort}.

(** The options click knows: the two of lines 22-23 and [--help]. *)
Inductive opt_name : Type :=
| OInput
| OOut
| OHelp.

Definition long_opt (s : string) : option opt_name :=
  if String.eqb s "--input_dir" then Some OInput
  else if String.eqb s "--out_dir" then Some OOut
  else if String.eqb s "--help" then Some OHelp
  else None.

(** click's [UsageError]s. *)
Inductive usage_error : Type :=
| NoSuchOption (opt : string) (possibilities : list string)
| OptionRequiresArgument (opt : string)
| OptionTakesNoValue (opt : string)
| MissingParameter (name : string)
| ExtraArguments (args : list string).

(** The parser's state: the values stored so far and the leftovers. *)
Record pstate : Type := mkP {
  p_input : option string;
  p_out : option string;
  p_help : bool;
  p_largs : list string
}.

Definition p0 : pstate := mkP None None false [].

Definition set_opt (o : opt_name) (v : string) (st : pstate) : pstate :=
  match o with
  | OInput => mkP (Some v) (p_out st) (p_help st) (p_largs st)
  | OOut => mkP (p_input st) (Some v) (p_help st) (p_largs st)
  | OHelp => mkP (p_input st) (p_out st) true (p_largs st)
  end.

Definition add_largs (st : pstate) (l : list string) : pstate :=
  mkP (p_input st) (p_out st) (p_help st) (p_largs st ++ l).

(** [arg.split("=", 1)]. *)
Fixpoint split_eq (s : string) : string * option string :=
  match s with
  | EmptyString => (EmptyString, None)
  | String c rest =>
      if Ascii.eqb c "=" then (EmptyString, Some rest)
      else let (a, b) := split_eq rest in (String c a, b)
  end.

(** [arg[:1] in self._opt_prefixes and len(arg) > 1]. *)
Definition is_opt_like (s : string) : bool :=
  match s with
  | String "-" (String _ _) => true
  | _ => false
  end.

Definition is_long (s : string) : bool :=
  match s with
  | String "-" (String "-" _) => true
  | _ => false
  end.

(** The short option a single-dash token fails on: its first letter. *)
Definition short_name (s : string) : string :=
  match s with
  | String _ (String c _) => String "-" (String c EmptyString)
  | _ => s
  end.

(** click's [_long_opt], the long names its parser knows. *)
Definition long_names : list string := ["--input_dir"; "--out_dir"; "--help"].

(** [_process_args_for_options] with [_process_opts],
    [_match_long_opt] and [_get_value_from_state]. *)
Fixpoint parse_opts (args : list string) (st : pstate) : usage_error + pstate :=
  match args with
  | [] => inr st
  | a :: rest =>
      if String.eqb a "--" then inr (add_largs st rest)
      else if is_opt_like a then
        if is_long a then
          let (name, ev) := split_eq a in
          match long_opt name, ev with
          | None, _ => inl (NoSuchOption name (get_close_matches name long_names))
          | Some OHelp, Some _ => inl (OptionTakesNoValue name)
          | Some o, Some v => parse_opts rest (set_opt o v st)
          | Some OHelp, None => parse_opts rest (set_opt OHelp "" st)
          | Some o, None =>
              match rest with
              | [] => inl (OptionRequiresArgument name)
              | v :: rest' => parse_opts rest' (set_opt o v st)
              end
          end
        else inl (NoSuchOption (short_name a) [])
      else parse_opts rest (add_largs st [a])
  end.

(** What click does with [sys.argv[1:]] before calling [main]. *)
Inductive cli_outcome : Type :=
| ShowHelp
| Usage (e : usage_error)
| Run (input_dir out_dir : string).

(** [Command.parse_args]: the parse, the eager help, the required
    options in declaration order, the extra arguments. *)
Definition cli_parse (argv : list string) : cli_outcome :=
  match parse_opts argv p0 with
  | inl e => Usage e
  | inr st =>
      if p_help st then ShowHelp
      else match p_input st, p_out st with
           | None, _ => Usage (MissingParameter "input_dir")
           | _, None => Usage (MissingParameter "out_dir")
           | Some i, Some o =>
               match p_largs st with
               | [] => Run i o
               | l => Usage (ExtraArguments l)
               end
           end
  end.

(** [str.split('/')]. *)
Fixpoint split_on (sep : ascii) (s : string) : list string :=
  match s with
  | EmptyString => [EmptyString]
  | String c rest =>
      if Ascii.eqb c sep then EmptyString :: split_on sep rest
      else match split_on sep rest with
           | [] => [String c EmptyString]
           | w :: ws => String c w :: ws
           end
  end.

(** A path string as components; [None] for the empty string. *)
Definition path_of (s : string) : option path :=
  if String.eqb s "" then None
  else Some (List.filter (fun w => negb (String.eqb w "" || String.eqb w ".")) (split_on "/" s)).

(** Lines 67-68: the exit status and the filesystem after the process. *)
Definition run_cli (argv : list string) (s : fs) : Z * fs :=
  match cli_parse argv with
  | ShowHelp => (0%Z, s)
  | Usage _ => (2%Z, s)
  | Run i o =>
      match path_of o with
      | None => (1%Z, s)
      | Some op =>
          match path_of i with
          | None => (1%Z, snd (create_dir_if_not_exists op s))
          | Some ip =>
              match main ip op s with
              | (Ok _, s') => (0%Z, s')
              | (Raise _, s') => (1%Z, s')
              end
          end
      end
  end.

(** ** What click prints on a usage error *)

Definition nl_s : string := String "010" EmptyString.

(** [sys.argv[0]]'s base name, the script run as a file. *)
Definition prog_name : string := "generate_figures.py".

(** [ctx.get_usage()] and the hint that [UsageError.show] prints first. *)
Definition usage_hint : string :=
  "Usage: " ++ prog_name ++ " [OPTIONS]" ++ nl_s ++
  "Try '" ++ prog_name ++ " --help' for help." ++ nl_s ++ nl_s.

(** [format_message] of each error; [NoSuchOption] sorts the
    suggestions. *)
Definition error_message (e : usage_error) : string :=
  match e with
  | NoSuchOption o ps =>
      "No such option: " ++ o ++
      match isort String.leb ps with
      | [] => ""
      | [p] => " Did you mean " ++ p ++ "?"
      | ps' => " (Possible options: " ++ String.concat ", " ps' ++ ")"
      end
  | OptionRequiresArgument o => "Option '" ++ o ++ "' requires an argument."
  | OptionTakesNoValue o => "Option '" ++ o ++ "' does not take a value."
  | MissingParameter n => "Missing option '--" ++ n ++ "'."
  | ExtraArguments l =>
      "Got unexpected extra argument" ++ match l with [_] => "" | _ => "s" end ++
      " (" ++ String.concat " " l ++ ")"
  end.

(** What click writes to stderr when it exits with status 2. *)
Definition usage_stderr (argv : list string) : option string :=
  match cli_parse argv with
  | Usage e => Some (usage_hint ++ "Error: " ++ error_message e ++ nl_s)
  | _ => None
  end.

(** ** The parser *)

(** The value the parser holds for an option. *)
Definition get_opt (o : opt_name) (st : pstate) : option string :=
  match o with
  | OInput => p_input st
  | OOut => p_out st
  | OHelp => if p_help st then Some "" else None
  end.

Lemma get_set_other o o' v st : o <> o' -> get_opt o (set_opt o' v st) = get_opt o st.
Proof. destruct o, o'; simpl; congruence. Qed.

Lemma get_add_largs o st l : get_opt o (add_largs st l) = get_opt o st.
Proof. destruct o; reflexivity. Qed.

(** A token that does not name an option leaves that option as it was. *)
Lemma parse_opts_unset o n : forall argv st st',
  (length argv <= n)%nat -> parse_opts argv st = inr st' ->
  (forall t, In t argv -> long_opt (fst (split_eq t)) <> Some o) ->
  get_opt o st' = get_opt o st.
Proof.
  induction n as [|n IH]; intros [|a rest] st st' Hlen Hp Hno; simpl in Hlen;
    try (injection Hp as <-; reflexivity); try lia.
  assert (Hrest : forall t, In t rest -> long_opt (fst (split_eq t)) <> Some o)
    by (intros t Ht; apply Hno; right; exact Ht).
  simpl in Hp. destruct (String.eqb a "--").
  { injection Hp as <-. apply get_add_largs. }
  destruct (is_opt_like a).
  2: { rewrite (IH rest _ st' ltac:(lia) Hp Hrest). apply get_add_largs. }
  destruct (is_long a); [|discriminate].
  destruct (split_eq a) as [name ev] eqn:Hs.
  assert (Ha : long_opt name <> Some o) by (specialize (Hno a (or_introl eq_refl)); rewrite Hs in Hno; exact Hno).
  destruct (long_opt name) as [o'|] eqn:Hl; [|discriminate].
  assert (Ho : o <> o') by congruence.
  assert (Hstep : forall l v, (length l <= n)%nat -> (forall t, In t l -> long_opt (fst (split_eq t)) <> Some o) ->
                  parse_opts l (set_opt o' v st) = inr st' -> get_opt o st' = get_opt o st)
    by (intros l v Hl' Hno' Hp'; rewrite (IH l _ st' Hl' Hp' Hno'); apply get_set_other, Ho).
  destruct ev as [v|].
  - destruct o'; try discriminate; apply (Hstep rest v); auto; lia.
  - destruct o'.
    + destruct rest as [|v rest']; [discriminate|].
      apply (Hstep rest' v); [simpl in Hlen; lia | intros t Ht; apply Hrest; right; exact Ht | exact Hp].
    + destruct rest as [|v rest']; [discriminate|].
      apply (Hstep rest' v); [simpl in Hlen; lia | intros t Ht; apply Hrest; right; exact Ht | exact Hp].
    + apply (Hstep rest ""); auto; lia.
Qed.

(** ** The command line *)

(** click reads the two options whether they are written
    [--opt value] or [--opt=value] and in either order, and hands their
    values to [main] unchanged, whatever they look like. *)
Theorem cli_parse_forms i o :
  cli_parse ["--input_dir"; i; "--out_dir"; o] = Run i o /\
  cli_parse ["--out_dir"; o; "--input_dir"; i] = Run i o /\
  cli_parse ["--input_dir=" ++ i; "--out_dir=" ++ o] = Run i o.
Proof. split; [|split]; reflexivity. Qed.

(** C23: When the command line never names one of the two required
    options (neither as [--opt] nor as [--opt=value]) and does not ask
    for help, the process exits with status 2 before [main] runs: the
    filesystem is unchanged. *)
Theorem cli_missing_option argv s o :
  o <> OHelp ->
  (forall t, In t argv -> long_opt (fst (split_eq t)) <> Some o) ->
  (forall t, In t argv -> long_opt (fst (split_eq t)) <> Some OHelp) ->
  run_cli argv s = (2%Z, s).
Proof.
  intros Hno Ho Hh. unfold run_cli, cli_parse.
  destruct (parse_opts argv p0) as [e|st] eqn:Hp; [reflexivity|].
  pose proof (parse_opts_unset OHelp _ argv p0 st (le_n _) Hp Hh) as Hhelp.
  pose proof (parse_opts_unset o _ argv p0 st (le_n _) Hp Ho) as Hopt.
  simpl in Hhelp. destruct (p_help st); [discriminate|].
  destruct o; [| |congruence]; simpl in Hopt; rewrite Hopt;
    [reflexivity | destruct (p_input st); reflexivity].
Qed.

(** C22: Run as [generate_figures.py --input_dir i --out_dir o] on a
    ready tree with a non-empty summary, the process exits with status 0
    and the three artifacts are in the directory [o] names. *)
Theorem cli_writes_outputs s i o ip op raw sd prov :
  path_of i = Some ip -> path_of o = Some op ->
  run_ready s ip op raw -> horses_sd (preprocess raw) = Some sd -> largest_sd_prov sd = Some prov ->
  exists s', run_cli ["--input_dir"; i; "--out_dir"; o] s = (0%Z, s') /\ fs_wf s' /\
    s' !! (op ++ [plot_name])%list = Some (EFile (FImage (horse_pops_chart (preprocess raw)) scale)) /\
    s' !! (op ++ [csv_name])%list = Some (EFile (FSummary sd)) /\
    s' !! (op ++ [plot2_name])%list =
      Some (EFile (FImage (largest_sd_chart (horse_pop_largest_sd (preprocess raw) prov) prov)
                          scale)).
Proof.
  intros Hi Ho Hr Hsd Hp.
  destruct (main_run_ok s ip op raw sd prov Hr Hsd Hp) as (s' & Hrun & Hrest).
  exists s'. split; [|exact Hrest].
  unfold run_cli. change (cli_parse ["--input_dir"; i; "--out_dir"; o]) with (Run i o).
  cbv iota beta. rewrite Ho, Hi, Hrun. reflexivity.
Qed.

(** The error messages of the command line (spec section 6): with
    [--out_dir] missing, click prints the usage, the hint and
    [Error: Missing option '--out_dir'.] on stderr and exits with status
    2; with the options spelled with hyphens, it rejects the first one
    and suggests, sorted, the two real options written with underscores.
    Nothing on disk changes. *)
Theorem cli_usage_messages i o s :
  run_cli ["--input_dir"; i] s = (2%Z, s) /\
  usage_stderr ["--input_dir"; i] = Some (usage_hint ++ "Error: Missing option '--out_dir'." ++ nl_s) /\
  run_cli ["--input-dir"; i; "--out-dir"; o] s = (2%Z, s) /\
  usage_stderr ["--input-dir"; i; "--out-dir"; o] =
    Some (usage_hint ++ "Error: No such option: --input-dir (Possible options: --input_dir, --out_dir)"
          ++ nl_s).
Proof. repeat split. Qed.

End Cli.

(** ** Witnesses *)

#[local] Existing Instance stable_argsort.

Lemma cli_missing_option_witness :
  OOut <> OHelp /\
  (forall t, In t ["--input_dir"; "data/horses.csv"] -> long_opt (fst (split_eq t)) <> Some OOut) /\
  (forall t, In t ["--input_dir"; "data/horses.csv"] -> long_opt (fst (split_eq t)) <> Some OHelp) /\
  run_cli ["--input_dir"; "data/horses.csv"] fs_input = (2%Z, fs_input).
Proof.
  assert (H1 : OOut <> OHelp) by discriminate.
  assert (H2 : forall t, In t ["--input_dir"; "data/horses.csv"] ->
                         long_opt (fst (split_eq t)) <> Some OOut)
    by (intros t [<-|[<-|[]]]; vm_compute; discriminate).
  assert (H3 : forall t, In t ["--input_dir"; "data/horses.csv"] ->
                         long_opt (fst (split_eq t)) <> Some OHelp)
    by (intros t [<-|[<-|[]]]; vm_compute; discriminate).
  split; [exact H1|]. split; [exact H2|]. split; [exact H3|].
  apply (cli_missing_option _ fs_input OOut H1 H2 H3).
Defined.

Lemma cli_writes_outputs_witness :
  path_of "data/horses.csv" = Some input_path /\ path_of "results/figures" = Some results_dir /\
  exists s', run_cli ["--input_dir"; "data/horses.csv"; "--out_dir"; "results/figures"] fs_input
             = (0%Z, s') /\ fs_wf s' /\
    s' !! (results_dir ++ [plot_name])%list =
      Some (EFile (FImage (horse_pops_chart (preprocess scenario_frame)) scale)) /\
    s' !! (results_dir ++ [csv_name])%list = Some (EFile (FSummary scenario_sd)) /\
    s' !! (results_dir ++ [plot2_name])%list =
      Some (EFile (FImage (largest_sd_chart
                             (horse_pop_largest_sd (preprocess scenario_frame) "Ontario") "Ontario")
                          scale)).
Proof.
  assert (Hi : path_of "data/horses.csv" = Some input_path) by reflexivity.
  assert (Ho : path_of "results/figures" = Some results_dir) by reflexivity.
  split; [exact Hi|]. split; [exact Ho|].
  apply (cli_writes_outputs fs_input _ _ _ _ scenario_frame scenario_sd "Ontario" Hi Ho
           fs_input_ready scenario_horses_sd eq_refl).
Defined.
